(** * AusarScrubber: the PMC article scrubbing pipeline

    A shallow embedding of [src/text/ausarScrubber.py] and the properties
    of its boundary cutting, normalization, document splitting and batch
    driver.

    Texts are Python [str] values restricted to code points below 256
    (one [ascii] per character).  On that range [str.lower] maps one
    character to one character, and the classes [str.isalpha], [\d] and
    [\s] are the ones CPython uses for those code points.

    Outside that range [str.lower] can lengthen a text, and the two cuts
    slice the text with an index found in its lower case.  The module
    [Unicode] models them for texts of any code point, and
    [UnicodeFacts] shows that both models agree on code points below
    256. *)

From Stdlib Require Import List Ascii String ZArith Lia Bool Arith.
Import ListNotations.

Set Implicit Arguments.

(** ** Python values, exceptions and results *)

Module Py.

Definition pystr := list ascii.

(** A string literal of the source. *)
Definition str (s : string) : pystr := list_ascii_of_string s.

(** The exceptions the scrubber's code can raise.  All of them derive from
    Python's [Exception], so an [except Exception] clause catches each. *)
Inductive exn : Type :=
| IndexError
| ValueError
| AssertionError
| UnicodeDecodeError
| FileNotFoundError
| FileExistsError
| PermissionError
| NotADirectoryError
| IsADirectoryError.

Inductive result (A : Type) : Type :=
| Ok (a : A)
| Raise (e : exn).

Arguments Ok {A} a.
Arguments Raise {A} e.

Definition bind {A B} (r : result A) (f : A -> result B) : result B :=
  match r with
  | Ok a => f a
  | Raise e => Raise e
  end.

Notation "x <- r ;; k" := (bind r (fun x => k))
  (at level 61, r at next level, right associativity).

(** *** Character classes (code points 0..255) *)

Definition code (c : ascii) : N := N_of_ascii c.

Definition between (lo hi : N) (c : ascii) : bool :=
  ((lo <=? code c) && (code c <=? hi))%N.

Definition is_upper_ascii (c : ascii) : bool := between 65 90 c.
Definition is_lower_ascii (c : ascii) : bool := between 97 122 c.

(** [\d] of the [re] module on [str] patterns: the decimal digits. *)
Definition isdigit (c : ascii) : bool := between 48 57 c.

(** [str.isalpha] on one character: the letters of the Latin-1 range. *)
Definition isalpha (c : ascii) : bool :=
  is_upper_ascii c || is_lower_ascii c
  || (code c =? 170)%N || (code c =? 181)%N || (code c =? 186)%N
  || between 192 214 c || between 216 246 c || between 248 255 c.

(** [\s] of the [re] module on [str] patterns. *)
Definition isspace (c : ascii) : bool :=
  between 9 13 c || between 28 32 c || (code c =? 133)%N || (code c =? 160)%N.

(** [str.lower] on one character. *)
Definition lower_char (c : ascii) : ascii :=
  if is_upper_ascii c || (between 192 222 c && negb (code c =? 215)%N)
  then ascii_of_N (code c + 32)
  else c.

Definition lower (s : pystr) : pystr := map lower_char s.

(** *** [len], indexing and slicing *)

Definition len (s : pystr) : Z := Z.of_nat (List.length s).

(** [s[i]]: negative indices count from the end, anything outside
    [-len(s) .. len(s)-1] raises [IndexError]. *)
Definition getitem (s : pystr) (i : Z) : result ascii :=
  let j := (if i <? 0 then i + len s else i)%Z in
  if (j <? 0)%Z then Raise IndexError
  else match nth_error s (Z.to_nat j) with
       | Some c => Ok c
       | None => Raise IndexError
       end.

(** The bound of a slice, as CPython adjusts it. *)
Definition slice_bound (s : pystr) (i : Z) : nat :=
  let j := (if i <? 0 then Z.max 0 (i + len s) else Z.min i (len s))%Z in
  Z.to_nat j.

(** [s[i:]] *)
Definition slice_from (s : pystr) (i : Z) : pystr := skipn (slice_bound s i) s.

(** [s[:i]] *)
Definition slice_to (s : pystr) (i : Z) : pystr := firstn (slice_bound s i) s.

(** *** [str.find] and [str.rfind] *)

Fixpoint starts_with (p s : pystr) : bool :=
  match p, s with
  | [], _ => true
  | _ :: _, [] => false
  | a :: p', b :: s' => Ascii.eqb a b && starts_with p' s'
  end.

(** Lowest index at which [sub] occurs in [s]. *)
Fixpoint find_first (sub s : pystr) : option nat :=
  if starts_with sub s then Some 0
  else match s with
       | [] => None
       | _ :: s' => option_map S (find_first sub s')
       end.

(** Highest index at which [sub] occurs in [s]. *)
Fixpoint find_last (sub s : pystr) : option nat :=
  match s with
  | [] => if starts_with sub [] then Some 0 else None
  | _ :: s' =>
      match find_last sub s' with
      | Some i => Some (S i)
      | None => if starts_with sub s then Some 0 else None
      end
  end.

Definition index_or_minus_one (o : option nat) : Z :=
  match o with
  | Some i => Z.of_nat i
  | None => (-1)%Z
  end.

(** [s.find(sub)] *)
Definition find (s sub : pystr) : Z := index_or_minus_one (find_first sub s).

(** [s.rfind(sub)] *)
Definition rfind (s sub : pystr) : Z := index_or_minus_one (find_last sub s).

(** *** [max] and [min] of a list *)

Definition py_max (l : list Z) : result Z :=
  match l with
  | [] => Raise ValueError
  | x :: l' => Ok (fold_left Z.max l' x)
  end.

Definition py_min (l : list Z) : result Z :=
  match l with
  | [] => Raise ValueError
  | x :: l' => Ok (fold_left Z.min l' x)
  end.

(** *** [str.split(sep)], [str.count(sub)] and [sep.join] *)

(** The scan of [str.split]: [skip] characters of a separator just found
    are still to be passed over, [cur] is the current section, reversed. *)
Fixpoint split_scan (sep : pystr) (skip : nat) (cur : pystr) (s : pystr)
  : list pystr :=
  match s with
  | [] => [rev cur]
  | c :: s' =>
      match skip with
      | S n => split_scan sep n cur s'
      | O =>
          if starts_with sep s
          then rev cur :: split_scan sep (List.length sep - 1) [] s'
          else split_scan sep 0 (c :: cur) s'
      end
  end.

(** [s.split(sep)]; an empty separator raises [ValueError]. *)
Definition split (s sep : pystr) : result (list pystr) :=
  match sep with
  | [] => Raise ValueError
  | _ :: _ => Ok (split_scan sep 0 [] s)
  end.

(** The scan of [str.count]: occurrences that do not overlap, left to
    right. *)
Fixpoint count_scan (sub : pystr) (skip : nat) (s : pystr) : nat :=
  match s with
  | [] => 0
  | _ :: s' =>
      match skip with
      | S n => count_scan sub n s'
      | O =>
          if starts_with sub s
          then S (count_scan sub (List.length sub - 1) s')
          else count_scan sub 0 s'
      end
  end.

(** [s.count(sub)] for a non-empty [sub]. *)
Definition count (s sub : pystr) : nat := count_scan sub 0 s.

(** [sep.join(parts)] *)
Fixpoint join (sep : pystr) (parts : list pystr) : pystr :=
  match parts with
  | [] => []
  | [p] => p
  | p :: ps => p ++ sep ++ join sep ps
  end.

End Py.

(** ** The regular expressions of the scrubber and [re.sub] *)

Module Re.
Import Py.

(** The patterns of the source only repeat single-character classes, so
    repetition is on a class. *)
Inductive regex : Type :=
| Chr (p : ascii -> bool)
| Seq (a b : regex)
| Alt (a b : regex)
| Star (p : ascii -> bool).

(** Greedy [p*] followed by the continuation [k]: take as many characters
    as possible and give them back one at a time while [k] fails. *)
Fixpoint star_match (p : ascii -> bool) (s : pystr) (k : pystr -> option nat)
  : option nat :=
  match s with
  | [] => k []
  | c :: s' =>
      if p c
      then match star_match p s' k with
           | Some n => Some (S n)
           | None => k s
           end
      else k s
  end.

(** The backtracking matcher: the number of characters of [s] that [r]
    followed by [k] consumes, first alternative first. *)
Fixpoint match_k (r : regex) (s : pystr) (k : pystr -> option nat)
  : option nat :=
  match r with
  | Chr p =>
      match s with
      | [] => None
      | c :: s' => if p c then option_map S (k s') else None
      end
  | Seq a b => match_k a s (fun s' => match_k b s' k)
  | Alt a b =>
      match match_k a s k with
      | Some n => Some n
      | None => match_k b s k
      end
  | Star p => star_match p s k
  end.

(** Length of the match of [r] at the start of [s], if there is one. *)
Definition match_at (r : regex) (s : pystr) : option nat :=
  match_k r s (fun _ => Some 0).

(** The scan of [re.sub]: the leftmost match is replaced and the scan goes
    on after it; [skip] characters of the last match remain to be dropped.
    An empty match inserts the replacement and keeps the character. *)
Fixpoint sub_scan (r : regex) (repl : pystr) (skip : nat) (s : pystr) : pystr :=
  match s with
  | [] =>
      match match_at r [] with
      | Some _ => repl
      | None => []
      end
  | c :: s' =>
      match skip with
      | S n => sub_scan r repl n s'
      | O =>
          match match_at r s with
          | Some (S n) => repl ++ sub_scan r repl n s'
          | Some O => repl ++ c :: sub_scan r repl 0 s'
          | None => c :: sub_scan r repl 0 s'
          end
      end
  end.

(** [re.sub(pattern, repl, s)] *)
Definition sub (r : regex) (repl s : pystr) : pystr := sub_scan r repl 0 s.

Definition lit (c : ascii) : regex := Chr (Ascii.eqb c).

(** [p+] *)
Definition plus (p : ascii -> bool) : regex := Seq (Chr p) (Star p).

Definition nl : ascii := "010"%char.

(** [.] matches everything but a newline. *)
Definition dot (c : ascii) : bool := negb (Ascii.eqb c nl).

Definition one_of (cs : pystr) (c : ascii) : bool := existsb (Ascii.eqb c) cs.

(** [\[\d+\]|\(\d+\)] *)
Definition citing_re : regex :=
  Alt (Seq (lit "[") (Seq (plus isdigit) (lit "]")))
      (Seq (lit "(") (Seq (plus isdigit) (lit ")"))).

(** [\(.*[,]\s*\d{4}.*\)] *)
Definition refs_re : regex :=
  Seq (lit "(")
   (Seq (Star dot)
    (Seq (lit ",")
     (Seq (Star isspace)
      (Seq (Chr isdigit) (Seq (Chr isdigit) (Seq (Chr isdigit) (Seq (Chr isdigit)
       (Seq (Star dot) (lit ")"))))))))).

(** The class [a-zA-Z0-9!?,.\-\n]. *)
Definition necessary (c : ascii) : bool :=
  is_lower_ascii c || is_upper_ascii c || isdigit c
  || one_of (str "!?,.-") c || Ascii.eqb c nl.

(** [[^a-zA-Z0-9!?,.\-\n]] *)
Definition unnecessary_re : regex := Chr (fun c => negb (necessary c)).

Definition is_eos (c : ascii) : bool := one_of (str "!?.") c.

(** [[!?.]+] *)
Definition eos_re : regex := plus is_eos.

Definition is_sp (c : ascii) : bool := Ascii.eqb c " ".

(** [ {2,}] *)
Definition spaces_re : regex := Seq (Chr is_sp) (Seq (Chr is_sp) (Star is_sp)).

End Re.

(** ** The scrubber *)

Module Scrubber.
Import Py Re.

Definition _output_folder : pystr := str "preprocessed".
Definition _separator : pystr := str "====".
Definition _stopstrings_front : list pystr :=
  map str ["cited"; "license"; "credited"; "lawful purpose"]%string.
Definition _stopstrings_body : list pystr :=
  map str ["acknowledgements"; "supporting information"]%string.

Definition cut_head (text : pystr) (stopstrings : list pystr) : result pystr :=
  start_idx <- py_max
    (map (fun string =>
            rfind (lower text) string
            + len string * Z.b2z (negb (rfind (lower text) string =? -1)))%Z
         stopstrings) ;;
  start_idx <-
    (if (start_idx >? 0)%Z then
       c1 <- getitem text (start_idx + 1) ;;
       if negb (isalpha c1) then
         advance2 <-
           (if negb (len text >=? start_idx + 2)%Z
            then c2 <- getitem text (start_idx + 2) ;; Ok (isalpha c2)
            else Ok false) ;;
         if advance2 then Ok (start_idx + 2)%Z else Ok (start_idx + 1)%Z
       else Ok start_idx
     else Ok start_idx) ;;
  Ok (slice_from text (Z.min (len text) (Z.max start_idx 0))).

Definition cut_tail (text : pystr) (stopstrings : list pystr) : result pystr :=
  end_idx <- py_min
    (map (fun string =>
            find (lower text) string
            + (len text + 1) * Z.b2z (find (lower text) string =? -1))%Z
         stopstrings) ;;
  Ok (slice_to text end_idx).

Definition remove_citing (text : pystr) : pystr := sub citing_re (str " ") text.

Definition remove_refs (text : pystr) : pystr := sub refs_re (str " ") text.

Definition normalize (text : pystr) : pystr :=
  let processed_text := remove_citing text in
  let processed_text := remove_refs processed_text in
  let processed_text := sub unnecessary_re (str " ") processed_text in
  let processed_text := sub eos_re (str ".") processed_text in
  let processed_text := sub spaces_re (str " ") processed_text in
  processed_text.

Fixpoint text_eqb (a b : pystr) : bool :=
  match a, b with
  | [], [] => true
  | x :: a', y :: b' => Ascii.eqb x y && text_eqb a' b'
  | _, _ => false
  end.

Definition preprocess (text mode : pystr) : result pystr :=
  if negb (existsb (text_eqb mode) [str "front"; str "body"])
  then Raise AssertionError
  else
    processed_text <-
      (if text_eqb mode (str "front")
       then cut_head text _stopstrings_front
       else cut_tail text _stopstrings_body) ;;
    Ok (normalize processed_text).

(** [l[i:j]] for non-negative bounds. *)
Definition list_slice {A} (l : list A) (i j : nat) : list A :=
  firstn (j - i) (skipn i l).

(** [a, b = l] *)
Definition unpack2 {A} (l : list A) : result (A * A) :=
  match l with
  | [a; b] => Ok (a, b)
  | _ => Raise ValueError
  end.

(** The [try] block of [__call__] that gets the raw 'front' and 'body',
    with its [except Exception] fallback. *)
Definition front_body (text : pystr) : pystr * pystr :=
  match (parts <- split text _separator ;; unpack2 (list_slice parts 1 3)) with
  | Ok fb => fb
  | Raise _ => ([], text)
  end.

(** What [__call__] computes between reading the input file and writing the
    output file. *)
Definition scrub_text (text : pystr) : result pystr :=
  let '(front, body) := front_body text in
  preprocessed_front <- preprocess front (str "front") ;;
  preprocessed_body <- preprocess body (str "body") ;;
  Ok (preprocessed_front ++ [nl] ++ preprocessed_body).

End Scrubber.

(** ** The file system interface and the batch driver *)

Module Batch.
Import Py Re Scrubber.

(** A computation on the file system: it ends in a value or in an
    exception, and leaves a file system either way. *)
Definition io (World A : Type) : Type := World -> result A * World.

Definition ret {World A} (a : A) : io World A := fun w => (Ok a, w).

Definition raise {World A} (e : exn) : io World A := fun w => (Raise e, w).

Definition iobind {World A B} (m : io World A) (f : A -> io World B)
  : io World B :=
  fun w =>
    match m w with
    | (Ok a, w') => f a w'
    | (Raise e, w') => (Raise e, w')
    end.

Definition lift {World A} (r : result A) : io World A := fun w => (r, w).

(** [try: body  except Exception as e: handler e] *)
Definition try_catch {World A} (body : io World A) (handler : exn -> io World A)
  : io World A :=
  fun w =>
    match body w with
    | (Ok a, w') => (Ok a, w')
    | (Raise e, w') => handler e w'
    end.

Notation "x <-- m ;; k" := (iobind m (fun x => k))
  (at level 61, m at next level, right associativity).
Notation "m ;;; k" := (iobind m (fun _ => k))
  (at level 61, right associativity).

(** The operating system calls of the scrubber.  Listing a directory and
    testing a path only read the file system; [os.path.isfile] and
    [os.path.exists] never raise. *)
Class OS (World : Type) : Type := {
  (** [os.listdir(path)] *)
  os_listdir : pystr -> World -> result (list pystr);
  (** [os.path.isfile(path)] *)
  os_path_isfile : pystr -> World -> bool;
  (** [os.path.exists(path)] *)
  os_path_exists : pystr -> World -> bool;
  (** [os.mkdir(path)] *)
  os_mkdir : pystr -> io World unit;
  (** [with open(path, 'r', encoding='utf-8') as file: file.read()] *)
  read_file : pystr -> io World pystr;
  (** [with open(path, 'w') as file: file.write(data)] *)
  write_file : pystr -> pystr -> io World unit
}.

(** A call that only reads the file system. *)
Definition query {World A} (f : World -> A) : io World A :=
  fun w => (Ok (f w), w).

Definition query_result {World A} (f : World -> result A) : io World A :=
  fun w => (f w, w).

(** [os.sep] *)
Definition os_sep : pystr := str "/".

Definition ends_with (s suffix : pystr) : bool :=
  starts_with (rev suffix) (rev s).

(** [os.path.join(a, b)] *)
Definition os_path_join (a b : pystr) : pystr :=
  if starts_with os_sep b then b
  else if text_eqb a [] || ends_with a os_sep then a ++ b
  else a ++ os_sep ++ b.

(** [l[:-k]] *)
Definition drop_last {A} (k : nat) (l : list A) : list A :=
  firstn (List.length l - k) l.

(** [l[-1]] *)
Definition last_item (l : list pystr) : result pystr :=
  match rev l with
  | [] => Raise IndexError
  | x :: _ => Ok x
  end.

(** What the batch driver prints. *)
Inductive log_line : Type :=
| LogHeader
| LogStarted (folder : pystr)
| LogSuccess (path : pystr)
| LogError (path : pystr) (e : exn)
| LogFooter
| LogCompleted
| LogScrubbed (n : nat)
| LogFailed (n : nat).

(** The counters of [scrub_pmc] and its output so far. *)
Record tally : Type := {
  nScrubbed : nat;
  nFailed : nat;
  printed : list log_line
}.

Definition print (l : log_line) (t : tally) : tally :=
  {| nScrubbed := nScrubbed t; nFailed := nFailed t;
     printed := printed t ++ [l] |}.

Definition scrubbed (t : tally) : tally :=
  {| nScrubbed := S (nScrubbed t); nFailed := nFailed t;
     printed := printed t |}.

Definition failed (t : tally) : tally :=
  {| nScrubbed := nScrubbed t; nFailed := S (nFailed t);
     printed := printed t |}.

Section WithOS.

Context {World : Type} {os : OS World}.

(** [for x in xs: body], threading the loop's local state. *)
Fixpoint for_each {A S} (xs : list A) (body : A -> S -> io World S) (s : S)
  : io World S :=
  match xs with
  | [] => ret s
  | x :: xs' => s' <-- body x s ;; for_each xs' body s'
  end.

(** [AusarScrubber.__call__] *)
Definition call (path : pystr) (output_dir : option pystr) : io World unit :=
  output_dir <--
    match output_dir with
    | None =>
        parts <-- lift (split path os_sep) ;;
        ret (os_path_join (join os_sep (drop_last 2 parts)) _output_folder)
    | Some d => ret d
    end ;;
  present <-- query (os_path_exists output_dir) ;;
  (if negb present then os_mkdir output_dir else ret tt) ;;;
  text <-- read_file path ;;
  preprocessed_text <-- lift (scrub_text text) ;;
  parts <-- lift (split path os_sep) ;;
  filename <-- lift (last_item parts) ;;
  let output_path := os_path_join output_dir filename in
  write_file output_path preprocessed_text.

(** The [try] block of [scrub_pmc] for one article. *)
Definition try_scrub (path output_path : pystr) (t : tally) : io World tally :=
  try_catch
    (call path (Some output_path) ;;;
     ret (scrubbed (print (LogSuccess path) t)))
    (fun e => ret (failed (print (LogError path e) t))).

(** The body of the loop of [scrub_pmc] over the entries of a subfolder. *)
Definition scrub_entry (output_path folder filename : pystr) (t : tally)
  : io World tally :=
  let path := os_path_join folder filename in
  isfile <-- query (os_path_isfile path) ;;
  if isfile then try_scrub path output_path t else ret t.

(** The body of the loop of [scrub_pmc] over the subfolders. *)
Definition scrub_folder (output_path folder : pystr) (t : tally)
  : io World tally :=
  let t := print (LogStarted folder) t in
  filenames <-- query_result (os_listdir folder) ;;
  for_each filenames (scrub_entry output_path folder) t.

(** [AusarScrubber.scrub_pmc], without the timing of the run: the summary
    lines with the two counters are the last thing printed. *)
Definition scrub_pmc (pmc_folder : pystr) : io World tally :=
  let t := {| nScrubbed := 0; nFailed := 0; printed := [] |} in
  names <-- query_result (os_listdir pmc_folder) ;;
  let folders := map (os_path_join pmc_folder) names in
  parts <-- lift (split pmc_folder os_sep) ;;
  base <-- lift (last_item parts) ;;
  let suffix := base ++ str "_" ++ _output_folder in
  let output_path := os_path_join (join os_sep (drop_last 1 parts)) suffix in
  let t := print LogHeader t in
  t <-- for_each folders (scrub_folder output_path) t ;;
  let t := print LogFooter t in
  let t := print LogCompleted t in
  let t := print (LogScrubbed (nScrubbed t)) t in
  let t := print (LogFailed (nFailed t)) t in
  ret t.

(** *** What happens to each article of a run

    The outcome of every attempted scrub, in the order of the run: [true]
    when [__call__] returned, [false] when it raised.  The file system is
    threaded from one attempt to the next as the run does. *)

Definition attempt {A} (m : io World A) : io World bool :=
  fun w =>
    match m w with
    | (Ok _, w') => (Ok true, w')
    | (Raise _, w') => (Ok false, w')
    end.

Definition entry_outcome (output_path folder filename : pystr)
  (seen : list bool) : io World (list bool) :=
  let path := os_path_join folder filename in
  isfile <-- query (os_path_isfile path) ;;
  if isfile
  then b <-- attempt (call path (Some output_path)) ;; ret (seen ++ [b])
  else ret seen.

Definition folder_outcomes (output_path folder : pystr) (seen : list bool)
  : io World (list bool) :=
  filenames <-- query_result (os_listdir folder) ;;
  for_each filenames (entry_outcome output_path folder) seen.

Definition corpus_outcomes (pmc_folder : pystr) : io World (list bool) :=
  names <-- query_result (os_listdir pmc_folder) ;;
  let folders := map (os_path_join pmc_folder) names in
  parts <-- lift (split pmc_folder os_sep) ;;
  base <-- lift (last_item parts) ;;
  let suffix := base ++ str "_" ++ _output_folder in
  let output_path := os_path_join (join os_sep (drop_last 1 parts)) suffix in
  for_each folders (folder_outcomes output_path) [].

End WithOS.

(** *** An in-memory file system

    Paths are absolute, with [/] between the components.  A file whose
    reading fails (bytes that are not UTF-8, no read permission) holds the
    exception its reading raises. *)

Inductive node : Type :=
| File (data : result pystr)
| Dir (writable : bool).

Definition memfs : Type := list (pystr * node).

Fixpoint lookup (path : pystr) (w : memfs) : option node :=
  match w with
  | [] => None
  | (p, n) :: w' => if text_eqb p path then Some n else lookup path w'
  end.

Definition components (path : pystr) : list pystr := split_scan os_sep 0 [] path.

Definition parent (path : pystr) : pystr :=
  join os_sep (drop_last 1 (components path)).

Definition basename (path : pystr) : pystr :=
  match rev (components path) with
  | [] => []
  | x :: _ => x
  end.

Definition mem_listdir (path : pystr) (w : memfs) : result (list pystr) :=
  match lookup path w with
  | None => Raise FileNotFoundError
  | Some (File _) => Raise NotADirectoryError
  | Some (Dir _) =>
      Ok (map (fun e => basename (fst e))
              (filter (fun e => text_eqb (parent (fst e)) path) w))
  end.

Definition mem_isfile (path : pystr) (w : memfs) : bool :=
  match lookup path w with
  | Some (File _) => true
  | _ => false
  end.

Definition mem_exists (path : pystr) (w : memfs) : bool :=
  match lookup path w with
  | Some _ => true
  | None => false
  end.

(** A new entry goes into a directory that exists and can be written. *)
Definition create (path : pystr) (n : node) : io memfs unit :=
  fun w =>
    match lookup (parent path) w with
    | None => (Raise FileNotFoundError, w)
    | Some (File _) => (Raise NotADirectoryError, w)
    | Some (Dir false) => (Raise PermissionError, w)
    | Some (Dir true) => (Ok tt, w ++ [(path, n)])
    end.

Definition mem_mkdir (path : pystr) : io memfs unit :=
  fun w =>
    match lookup path w with
    | Some _ => (Raise FileExistsError, w)
    | None => create path (Dir true) w
    end.

Definition mem_read (path : pystr) : io memfs pystr :=
  fun w =>
    match lookup path w with
    | None => (Raise FileNotFoundError, w)
    | Some (Dir _) => (Raise IsADirectoryError, w)
    | Some (File data) => (data, w)
    end.

Definition mem_write (path data : pystr) : io memfs unit :=
  fun w =>
    match lookup path w with
    | Some (Dir _) => (Raise IsADirectoryError, w)
    | Some (File _) => (Ok tt, (path, File (Ok data)) :: w)
    | None => create path (File (Ok data)) w
    end.

#[export] Instance memfs_os : OS memfs := {
  os_listdir := mem_listdir;
  os_path_isfile := mem_isfile;
  os_path_exists := mem_exists;
  os_mkdir := mem_mkdir;
  read_file := mem_read;
  write_file := mem_write
}.

End Batch.

(** ** The vocabulary of the specification *)

Module Spec.
Import Py Re Scrubber Batch.

(** *** Sections of a document *)

(** The sections that the separator makes of a document. *)
Definition sections (text : pystr) : list pystr :=
  split_scan _separator 0 [] text.

(** The index at which [cut_head] starts its boundary cleanup. *)
Definition front_cut_index (text : pystr) (stopstrings : list pystr)
  : result Z :=
  py_max
    (map (fun string =>
            rfind (lower text) string
            + len string * Z.b2z (negb (rfind (lower text) string =? -1)))%Z
         stopstrings).

(** *** Occurrences of a marker *)

(** The marker occurs in [text] at index [i], letter case ignored. *)
Definition occurs_at (marker text : pystr) (i : nat) : Prop :=
  i + List.length marker <= List.length text
  /\ lower (firstn (List.length marker) (skipn i text)) = lower marker.

(** [i] is the start of the first occurrence of the marker. *)
Definition first_occurrence (marker text : pystr) (i : nat) : Prop :=
  occurs_at marker text i /\ forall j, j < i -> ~ occurs_at marker text j.

Definition occurs (marker text : pystr) : Prop :=
  exists i, occurs_at marker text i.

(** The position the back cut gives a marker: the start of its first
    occurrence, or the end of the text when it does not occur. *)
Definition marker_position (text marker : pystr) : nat :=
  match find_first marker (lower text) with
  | Some i => i
  | None => List.length text
  end.

(** *** Runs of characters *)

(** Length of the longest prefix of [s] made of characters of the class. *)
Fixpoint run (p : ascii -> bool) (s : pystr) : nat :=
  match s with
  | [] => 0
  | c :: s' => if p c then S (run p s') else 0
  end.

(** No two neighbours of [s] are both in the class. *)
Fixpoint no_adjacent (p : ascii -> bool) (s : pystr) : bool :=
  match s with
  | [] => true
  | c :: s' =>
      match s' with
      | [] => true
      | d :: _ => negb (p c && p d) && no_adjacent p s'
      end
  end.

(** Every maximal run of the class becomes the one character [x];
    [inrun] tells that the previous character was in the class. *)
Fixpoint collapse (p : ascii -> bool) (x : ascii) (inrun : bool) (s : pystr)
  : pystr :=
  match s with
  | [] => []
  | c :: s' =>
      if p c
      then if inrun then collapse p x true s' else x :: collapse p x true s'
      else c :: collapse p x false s'
  end.

(** *** Citation markers and references *)

(** [s] starts with the character [o], then one digit or more, then the
    character [c]: a bracketed or parenthesized run of digits. *)
Definition digit_group_at (o c : ascii) (s : pystr) : bool :=
  match s with
  | [] => false
  | x :: s' =>
      Ascii.eqb x o && (1 <=? run isdigit s')
      && match nth_error s' (run isdigit s') with
         | Some y => Ascii.eqb y c
         | None => false
         end
  end.

Fixpoint has_digit_group (o c : ascii) (s : pystr) : bool :=
  digit_group_at o c s
  || match s with
     | [] => false
     | _ :: s' => has_digit_group o c s'
     end.

(** A closing parenthesis follows on the same line. *)
Fixpoint closes (s : pystr) : bool :=
  match s with
  | [] => false
  | c :: s' =>
      if Ascii.eqb c ")" then true
      else if Ascii.eqb c nl then false
      else closes s'
  end.

(** Optional white space, then four digits, then a closing parenthesis
    on the same line. *)
Definition year_then_close (s : pystr) : bool :=
  match skipn (run isspace s) s with
  | d1 :: d2 :: d3 :: d4 :: rest =>
      isdigit d1 && isdigit d2 && isdigit d3 && isdigit d4 && closes rest
  | _ => false
  end.

(** A comma on the same line, followed by a year and a closing
    parenthesis. *)
Fixpoint comma_year_close (s : pystr) : bool :=
  match s with
  | [] => false
  | c :: s' =>
      (Ascii.eqb c "," && year_then_close s')
      || (negb (Ascii.eqb c nl) && comma_year_close s')
  end.

(** [s] starts with a parenthetical run that holds a comma followed by a
    four-digit year before a closing parenthesis. *)
Definition reference_at (s : pystr) : bool :=
  match s with
  | [] => false
  | c :: s' => Ascii.eqb c "(" && comma_year_close s'
  end.

Fixpoint has_reference (s : pystr) : bool :=
  reference_at s
  || match s with
     | [] => false
     | _ :: s' => has_reference s'
     end.

(** *** The batch driver *)

(** The counters agree with the outcomes seen so far. *)
Definition counts (t : tally) (seen : list bool) : Prop :=
  nScrubbed t = count_occ bool_dec seen true
  /\ nFailed t = count_occ bool_dec seen false.

(** A corpus of three articles in two subfolders; the second article
    cannot be read. *)
Definition example_corpus : memfs :=
  [ (str "/data", Dir true);
    (str "/data/pmc", Dir true);
    (str "/data/pmc/a", Dir true);
    (str "/data/pmc/b", Dir true);
    (str "/data/pmc/a/1.txt",
     File (Ok (str "x====Title.====Body [1] text!====refs")));
    (str "/data/pmc/a/2.txt", File (Raise UnicodeDecodeError));
    (str "/data/pmc/b/3.txt", File (Ok (str "No structure here"))) ].

(** A corpus of one article in a directory where nothing can be
    created. *)
Definition readonly_corpus : memfs :=
  [ (str "/ro", Dir false);
    (str "/ro/pmc", Dir true);
    (str "/ro/pmc/a", Dir true);
    (str "/ro/pmc/a/1.txt",
     File (Ok (str "x====Title.====Body [1] text!====refs"))) ].

(** *** The characters of a normalized text *)

Definition normalized_char (c : ascii) : bool :=
  is_lower_ascii c || is_upper_ascii c || isdigit c
  || one_of (str ",.- ") c || Ascii.eqb c nl.

(** *** Documents of the examples *)

Definition example_document : pystr :=
  str "==== front" ++ [nl]
  ++ str "Copyright 2020, licensed and credited." ++ [nl]
  ++ str "Title Here." ++ [nl]
  ++ str "==== body" ++ [nl]
  ++ str "Results [1] show growth (Doe, 2021). Acknowledgements: none." ++ [nl]
  ++ str "==== refs" ++ [nl]
  ++ str "Doe 2021.".

Definition example_front : pystr :=
  str " front" ++ [nl]
  ++ str "Copyright 2020, licensed and credited." ++ [nl]
  ++ str "Title Here." ++ [nl].

Definition example_body : pystr :=
  str " body" ++ [nl]
  ++ str "Results [1] show growth (Doe, 2021). Acknowledgements: none." ++ [nl].

End Spec.

(** ** Further vocabulary *)

Module SpecMore.
Import Py Re Scrubber Batch Spec.

(** [i] is the start of the last occurrence of the marker. *)
Definition last_occurrence (marker text : pystr) (i : nat) : Prop :=
  occurs_at marker text i /\ forall j, i < j -> ~ occurs_at marker text j.

(** What [cut_head] adds up for one marker: the end of its last
    occurrence, or [-1] when it does not occur. *)
Definition marker_end (text marker : pystr) : Z :=
  match find_last marker (lower text) with
  | Some j => Z.of_nat (j + List.length marker)
  | None => (-1)%Z
  end.

(** Neither a closing parenthesis nor a comma stands on the first line
    of [s]. *)
Fixpoint line_free (s : pystr) : bool :=
  match s with
  | [] => true
  | c :: s' =>
      if Ascii.eqb c nl then true
      else negb (Ascii.eqb c ")") && negb (Ascii.eqb c ",") && line_free s'
  end.

(** The parts of the pattern of references, from the right. *)
Definition close_re : regex := Seq (Star dot) (lit ")").

Definition year_re : regex :=
  Seq (Chr isdigit) (Seq (Chr isdigit) (Seq (Chr isdigit) (Seq (Chr isdigit)
    close_re))).

Definition space_year_re : regex := Seq (Star isspace) year_re.

Definition comma_re : regex := Seq (lit ",") space_year_re.

Definition inside_re : regex := Seq (Star dot) comma_re.

(** The output directory [__call__] takes when none is given. *)
Definition default_output_dir (path : pystr) : pystr :=
  os_path_join (join os_sep (drop_last 2 (components path))) _output_folder.

(** The output directory [scrub_pmc] gives to [__call__]. *)
Definition corpus_output_path (pmc_folder : pystr) : pystr :=
  os_path_join (join os_sep (drop_last 1 (components pmc_folder)))
    (basename pmc_folder ++ str "_" ++ _output_folder).

(** A name without the path separator. *)
Definition no_sep (name : pystr) : Prop :=
  Forall (fun c => Ascii.eqb "/" c = false) name.

(** What [scrub_pmc] prints after its loops. *)
Definition summary (t : tally) : tally :=
  let t := print LogFooter t in
  let t := print LogCompleted t in
  let t := print (LogScrubbed (nScrubbed t)) t in
  print (LogFailed (nFailed t)) t.

(** A corpus with a regular file among its subfolders. *)
Definition stray_corpus : memfs :=
  [ (str "/data", Dir true);
    (str "/data/pmc", Dir true);
    (str "/data/pmc/a", Dir true);
    (str "/data/pmc/a/1.txt", File (Ok (str "x====Title.====Body.====refs")));
    (str "/data/pmc/README", File (Ok (str "notes")));
    (str "/data/pmc/b", Dir true);
    (str "/data/pmc/b/2.txt", File (Ok (str "x====Title.====Body.====refs"))) ].

(** A corpus whose article has a front section that ends one character
    after a stopstring. *)
Definition unscrubbable_corpus : memfs :=
  [ (str "/data", Dir true);
    (str "/data/pmc", Dir true);
    (str "/data/pmc/a", Dir true);
    (str "/data/pmc/a/1.txt",
     File (Ok (str "====Licensed and credited.====Body.====refs"))) ].

Section WithOS.

Context {World : Type} {os : OS World}.

(** What [__call__] does before it preprocesses: the output directory is
    created when it is missing, and the article is read. *)
Definition prepare (output_dir path : pystr) : io World pystr :=
  present <-- query (os_path_exists output_dir) ;;
  (if negb present then os_mkdir output_dir else ret tt) ;;;
  read_file path.

(** The batch run into a given output directory. *)
Definition scrub_pmc_into (output_path pmc_folder : pystr) : io World tally :=
  names <-- query_result (os_listdir pmc_folder) ;;
  t <-- for_each (map (os_path_join pmc_folder) names)
          (scrub_folder output_path)
          (print LogHeader {| nScrubbed := 0; nFailed := 0; printed := [] |}) ;;
  ret (summary t).

End WithOS.

End SpecMore.

(** ** The list elements of the API wrapper

    [AusarGPT.scrub_elem] of [src/ai/ausarGPT.py]: the one function of the
    wrapper that works on text. *)

Module Gpt.
Import Py Re.

(** The matcher of [Re], for any kind of result: [bump] accounts for one
    character consumed. *)
Fixpoint star_match_r {R} (bump : R -> R) (p : ascii -> bool) (s : pystr)
  (k : pystr -> option R) : option R :=
  match s with
  | [] => k []
  | c :: s' =>
      if p c
      then match star_match_r bump p s' k with
           | Some n => Some (bump n)
           | None => k s
           end
      else k s
  end.

Fixpoint match_kr {R} (bump : R -> R) (r : regex) (s : pystr)
  (k : pystr -> option R) : option R :=
  match r with
  | Chr p =>
      match s with
      | [] => None
      | c :: s' => if p c then option_map bump (k s') else None
      end
  | Seq a b => match_kr bump a s (fun s' => match_kr bump b s' k)
  | Alt a b =>
      match match_kr bump a s k with
      | Some n => Some n
      | None => match_kr bump b s k
      end
  | Star p => star_match_r bump p s k
  end.

(** The match of the pattern [before(group)] at the start of [s]: the
    length of the match and the length of the group, which ends the
    match. *)
Definition match_group (before group : regex) (s : pystr)
  : option (nat * nat) :=
  match_kr (fun tg => (S (fst tg), snd tg)) before s
    (fun s1 =>
       match_kr (fun tg => (S (fst tg), S (snd tg))) group s1
         (fun _ => Some (0, 0))).

(** The scan of [re.sub] with the template [\1] for a pattern
    [before(group)]: each match is replaced by its group. *)
Fixpoint sub_group_scan (before group : regex) (skip : nat) (s : pystr)
  : pystr :=
  match s with
  | [] => []
  | c :: s' =>
      match skip with
      | S n => sub_group_scan before group n s'
      | O =>
          match match_group before group s with
          | Some (S n, g) =>
              firstn g (skipn (S n - g) s) ++ sub_group_scan before group n s'
          | Some (O, _) => c :: sub_group_scan before group 0 s'
          | None => c :: sub_group_scan before group 0 s'
          end
      end
  end.

Definition sub_group (before group : regex) (s : pystr) : pystr :=
  sub_group_scan before group 0 s.

(** [s.lstrip()] *)
Fixpoint lstrip (s : pystr) : pystr :=
  match s with
  | [] => []
  | c :: s' => if isspace c then lstrip s' else s
  end.

(** [s.rstrip()] *)
Definition rstrip (s : pystr) : pystr := rev (lstrip (rev s)).

(** [s.strip()] *)
Definition strip (s : pystr) : pystr := rstrip (lstrip s).

(** [\d+\. ], the part of the pattern before the group. *)
Definition index_re : regex :=
  Seq (plus isdigit) (Seq (lit ".") (lit " ")).

(** [AusarGPT.scrub_elem]: [re.sub] on [elem.strip()], with the pattern
    [\d+\. ] followed by the group [.*], and the template [\1]. *)
Definition scrub_elem (elem : pystr) : pystr :=
  sub_group index_re (Star dot) (strip elem).

End Gpt.


(** ** Texts of any code point

    [str.lower] can lengthen a text: U+0130, the capital I with a dot
    above, becomes the two characters U+0069 U+0307.  [cut_head] and
    [cut_tail] search in [text.lower()] and slice [text] with the index
    they find, so what they return for such a text is not covered by the
    one-[ascii]-per-character texts above.  Here a text is a list of code
    points and [lower] is [str.lower] as CPython computes it, with the
    tables of Unicode 14.0.0 (Python 3.11). *)

Module Unicode.
Import Py.

Definition ustr := list N.

(** The text of code points below 256 as a text of code points. *)
Definition of_pystr (s : pystr) : ustr := map N_of_ascii s.

Definition in_ranges (table : list (N * N)) (c : N) : bool :=
  existsb (fun r => (fst r <=? c) && (c <=? snd r))%N table.

(** *** Tables of the Unicode character database *)

(** The property Case_Ignorable. *)
Definition case_ignorable_ranges : list (N * N) :=
  (
  [(0x27, 0x27); (0x2E, 0x2E); (0x3A, 0x3A); (0x5E, 0x5E); (0x60, 0x60); (0xA8, 0xA8);
   (0xAD, 0xAD); (0xAF, 0xAF); (0xB4, 0xB4); (0xB7, 0xB8); (0x2B0, 0x36F); (0x374, 0x375);
   (0x37A, 0x37A); (0x384, 0x385); (0x387, 0x387); (0x483, 0x489); (0x559, 0x559); (0x55F, 0x55F);
   (0x591, 0x5BD); (0x5BF, 0x5BF); (0x5C1, 0x5C2); (0x5C4, 0x5C5); (0x5C7, 0x5C7); (0x5F4, 0x5F4);
   (0x600, 0x605); (0x610, 0x61A); (0x61C, 0x61C); (0x640, 0x640); (0x64B, 0x65F); (0x670, 0x670);
   (0x6D6, 0x6DD); (0x6DF, 0x6E8); (0x6EA, 0x6ED); (0x70F, 0x70F); (0x711, 0x711); (0x730, 0x74A);
   (0x7A6, 0x7B0); (0x7EB, 0x7F5); (0x7FA, 0x7FA); (0x7FD, 0x7FD); (0x816, 0x82D); (0x859, 0x85B);
   (0x888, 0x888); (0x890, 0x891); (0x898, 0x89F); (0x8C9, 0x902); (0x93A, 0x93A); (0x93C, 0x93C);
   (0x941, 0x948); (0x94D, 0x94D); (0x951, 0x957); (0x962, 0x963); (0x971, 0x971); (0x981, 0x981);
   (0x9BC, 0x9BC); (0x9C1, 0x9C4); (0x9CD, 0x9CD); (0x9E2, 0x9E3); (0x9FE, 0x9FE); (0xA01, 0xA02);
   (0xA3C, 0xA3C); (0xA41, 0xA42); (0xA47, 0xA48); (0xA4B, 0xA4D); (0xA51, 0xA51); (0xA70, 0xA71);
   (0xA75, 0xA75); (0xA81, 0xA82); (0xABC, 0xABC); (0xAC1, 0xAC5); (0xAC7, 0xAC8); (0xACD, 0xACD);
   (0xAE2, 0xAE3); (0xAFA, 0xAFF); (0xB01, 0xB01); (0xB3C, 0xB3C); (0xB3F, 0xB3F); (0xB41, 0xB44);
   (0xB4D, 0xB4D); (0xB55, 0xB56); (0xB62, 0xB63); (0xB82, 0xB82); (0xBC0, 0xBC0); (0xBCD, 0xBCD);
   (0xC00, 0xC00); (0xC04, 0xC04); (0xC3C, 0xC3C); (0xC3E, 0xC40); (0xC46, 0xC48); (0xC4A, 0xC4D);
   (0xC55, 0xC56); (0xC62, 0xC63); (0xC81, 0xC81); (0xCBC, 0xCBC); (0xCBF, 0xCBF); (0xCC6, 0xCC6);
   (0xCCC, 0xCCD); (0xCE2, 0xCE3); (0xD00, 0xD01); (0xD3B, 0xD3C); (0xD41, 0xD44); (0xD4D, 0xD4D);
   (0xD62, 0xD63); (0xD81, 0xD81); (0xDCA, 0xDCA); (0xDD2, 0xDD4); (0xDD6, 0xDD6); (0xE31, 0xE31);
   (0xE34, 0xE3A); (0xE46, 0xE4E); (0xEB1, 0xEB1); (0xEB4, 0xEBC); (0xEC6, 0xEC6); (0xEC8, 0xECD);
   (0xF18, 0xF19); (0xF35, 0xF35); (0xF37, 0xF37); (0xF39, 0xF39); (0xF71, 0xF7E); (0xF80, 0xF84);
   (0xF86, 0xF87); (0xF8D, 0xF97); (0xF99, 0xFBC); (0xFC6, 0xFC6); (0x102D, 0x1030); (0x1032, 0x1037);
   (0x1039, 0x103A); (0x103D, 0x103E); (0x1058, 0x1059); (0x105E, 0x1060); (0x1071, 0x1074); (0x1082, 0x1082);
   (0x1085, 0x1086); (0x108D, 0x108D); (0x109D, 0x109D); (0x10FC, 0x10FC); (0x135D, 0x135F); (0x1712, 0x1714);
   (0x1732, 0x1733); (0x1752, 0x1753); (0x1772, 0x1773); (0x17B4, 0x17B5); (0x17B7, 0x17BD); (0x17C6, 0x17C6);
   (0x17C9, 0x17D3); (0x17D7, 0x17D7); (0x17DD, 0x17DD); (0x180B, 0x180F); (0x1843, 0x1843); (0x1885, 0x1886);
   (0x18A9, 0x18A9); (0x1920, 0x1922); (0x1927, 0x1928); (0x1932, 0x1932); (0x1939, 0x193B); (0x1A17, 0x1A18);
   (0x1A1B, 0x1A1B); (0x1A56, 0x1A56); (0x1A58, 0x1A5E); (0x1A60, 0x1A60); (0x1A62, 0x1A62); (0x1A65, 0x1A6C);
   (0x1A73, 0x1A7C); (0x1A7F, 0x1A7F); (0x1AA7, 0x1AA7); (0x1AB0, 0x1ACE); (0x1B00, 0x1B03); (0x1B34, 0x1B34);
   (0x1B36, 0x1B3A); (0x1B3C, 0x1B3C); (0x1B42, 0x1B42); (0x1B6B, 0x1B73); (0x1B80, 0x1B81); (0x1BA2, 0x1BA5);
   (0x1BA8, 0x1BA9); (0x1BAB, 0x1BAD); (0x1BE6, 0x1BE6); (0x1BE8, 0x1BE9); (0x1BED, 0x1BED); (0x1BEF, 0x1BF1);
   (0x1C2C, 0x1C33); (0x1C36, 0x1C37); (0x1C78, 0x1C7D); (0x1CD0, 0x1CD2); (0x1CD4, 0x1CE0); (0x1CE2, 0x1CE8);
   (0x1CED, 0x1CED); (0x1CF4, 0x1CF4); (0x1CF8, 0x1CF9); (0x1D2C, 0x1D6A); (0x1D78, 0x1D78); (0x1D9B, 0x1DFF);
   (0x1FBD, 0x1FBD); (0x1FBF, 0x1FC1); (0x1FCD, 0x1FCF); (0x1FDD, 0x1FDF); (0x1FED, 0x1FEF); (0x1FFD, 0x1FFE);
   (0x200B, 0x200F); (0x2018, 0x2019); (0x2024, 0x2024); (0x2027, 0x2027); (0x202A, 0x202E); (0x2060, 0x2064);
   (0x2066, 0x206F); (0x2071, 0x2071); (0x207F, 0x207F); (0x2090, 0x209C); (0x20D0, 0x20F0); (0x2C7C, 0x2C7D);
   (0x2CEF, 0x2CF1); (0x2D6F, 0x2D6F); (0x2D7F, 0x2D7F); (0x2DE0, 0x2DFF); (0x2E2F, 0x2E2F); (0x3005, 0x3005);
   (0x302A, 0x302D); (0x3031, 0x3035); (0x303B, 0x303B); (0x3099, 0x309E); (0x30FC, 0x30FE); (0xA015, 0xA015);
   (0xA4F8, 0xA4FD); (0xA60C, 0xA60C); (0xA66F, 0xA672); (0xA674, 0xA67D); (0xA67F, 0xA67F); (0xA69C, 0xA69F);
   (0xA6F0, 0xA6F1); (0xA700, 0xA721); (0xA770, 0xA770); (0xA788, 0xA78A); (0xA7F2, 0xA7F4); (0xA7F8, 0xA7F9);
   (0xA802, 0xA802); (0xA806, 0xA806); (0xA80B, 0xA80B); (0xA825, 0xA826); (0xA82C, 0xA82C); (0xA8C4, 0xA8C5);
   (0xA8E0, 0xA8F1); (0xA8FF, 0xA8FF); (0xA926, 0xA92D); (0xA947, 0xA951); (0xA980, 0xA982); (0xA9B3, 0xA9B3);
   (0xA9B6, 0xA9B9); (0xA9BC, 0xA9BD); (0xA9CF, 0xA9CF); (0xA9E5, 0xA9E6); (0xAA29, 0xAA2E); (0xAA31, 0xAA32);
   (0xAA35, 0xAA36); (0xAA43, 0xAA43); (0xAA4C, 0xAA4C); (0xAA70, 0xAA70); (0xAA7C, 0xAA7C); (0xAAB0, 0xAAB0);
   (0xAAB2, 0xAAB4); (0xAAB7, 0xAAB8); (0xAABE, 0xAABF); (0xAAC1, 0xAAC1); (0xAADD, 0xAADD); (0xAAEC, 0xAAED);
   (0xAAF3, 0xAAF4); (0xAAF6, 0xAAF6); (0xAB5B, 0xAB5F); (0xAB69, 0xAB6B); (0xABE5, 0xABE5); (0xABE8, 0xABE8);
   (0xABED, 0xABED); (0xFB1E, 0xFB1E); (0xFBB2, 0xFBC2); (0xFE00, 0xFE0F); (0xFE13, 0xFE13); (0xFE20, 0xFE2F);
   (0xFE52, 0xFE52); (0xFE55, 0xFE55); (0xFEFF, 0xFEFF); (0xFF07, 0xFF07); (0xFF0E, 0xFF0E); (0xFF1A, 0xFF1A);
   (0xFF3E, 0xFF3E); (0xFF40, 0xFF40); (0xFF70, 0xFF70); (0xFF9E, 0xFF9F); (0xFFE3, 0xFFE3); (0xFFF9, 0xFFFB);
   (0x101FD, 0x101FD); (0x102E0, 0x102E0); (0x10376, 0x1037A); (0x10780, 0x10785); (0x10787, 0x107B0); (0x107B2, 0x107BA);
   (0x10A01, 0x10A03); (0x10A05, 0x10A06); (0x10A0C, 0x10A0F); (0x10A38, 0x10A3A); (0x10A3F, 0x10A3F); (0x10AE5, 0x10AE6);
   (0x10D24, 0x10D27); (0x10EAB, 0x10EAC); (0x10F46, 0x10F50); (0x10F82, 0x10F85); (0x11001, 0x11001); (0x11038, 0x11046);
   (0x11070, 0x11070); (0x11073, 0x11074); (0x1107F, 0x11081); (0x110B3, 0x110B6); (0x110B9, 0x110BA); (0x110BD, 0x110BD);
   (0x110C2, 0x110C2); (0x110CD, 0x110CD); (0x11100, 0x11102); (0x11127, 0x1112B); (0x1112D, 0x11134); (0x11173, 0x11173);
   (0x11180, 0x11181); (0x111B6, 0x111BE); (0x111C9, 0x111CC); (0x111CF, 0x111CF); (0x1122F, 0x11231); (0x11234, 0x11234);
   (0x11236, 0x11237); (0x1123E, 0x1123E); (0x112DF, 0x112DF); (0x112E3, 0x112EA); (0x11300, 0x11301); (0x1133B, 0x1133C);
   (0x11340, 0x11340); (0x11366, 0x1136C); (0x11370, 0x11374); (0x11438, 0x1143F); (0x11442, 0x11444); (0x11446, 0x11446);
   (0x1145E, 0x1145E); (0x114B3, 0x114B8); (0x114BA, 0x114BA); (0x114BF, 0x114C0); (0x114C2, 0x114C3); (0x115B2, 0x115B5);
   (0x115BC, 0x115BD); (0x115BF, 0x115C0); (0x115DC, 0x115DD); (0x11633, 0x1163A); (0x1163D, 0x1163D); (0x1163F, 0x11640);
   (0x116AB, 0x116AB); (0x116AD, 0x116AD); (0x116B0, 0x116B5); (0x116B7, 0x116B7); (0x1171D, 0x1171F); (0x11722, 0x11725);
   (0x11727, 0x1172B); (0x1182F, 0x11837); (0x11839, 0x1183A); (0x1193B, 0x1193C); (0x1193E, 0x1193E); (0x11943, 0x11943);
   (0x119D4, 0x119D7); (0x119DA, 0x119DB); (0x119E0, 0x119E0); (0x11A01, 0x11A0A); (0x11A33, 0x11A38); (0x11A3B, 0x11A3E);
   (0x11A47, 0x11A47); (0x11A51, 0x11A56); (0x11A59, 0x11A5B); (0x11A8A, 0x11A96); (0x11A98, 0x11A99); (0x11C30, 0x11C36);
   (0x11C38, 0x11C3D); (0x11C3F, 0x11C3F); (0x11C92, 0x11CA7); (0x11CAA, 0x11CB0); (0x11CB2, 0x11CB3); (0x11CB5, 0x11CB6);
   (0x11D31, 0x11D36); (0x11D3A, 0x11D3A); (0x11D3C, 0x11D3D); (0x11D3F, 0x11D45); (0x11D47, 0x11D47); (0x11D90, 0x11D91);
   (0x11D95, 0x11D95); (0x11D97, 0x11D97); (0x11EF3, 0x11EF4); (0x13430, 0x13438); (0x16AF0, 0x16AF4); (0x16B30, 0x16B36);
   (0x16B40, 0x16B43); (0x16F4F, 0x16F4F); (0x16F8F, 0x16F9F); (0x16FE0, 0x16FE1); (0x16FE3, 0x16FE4); (0x1AFF0, 0x1AFF3);
   (0x1AFF5, 0x1AFFB); (0x1AFFD, 0x1AFFE); (0x1BC9D, 0x1BC9E); (0x1BCA0, 0x1BCA3); (0x1CF00, 0x1CF2D); (0x1CF30, 0x1CF46);
   (0x1D167, 0x1D169); (0x1D173, 0x1D182); (0x1D185, 0x1D18B); (0x1D1AA, 0x1D1AD); (0x1D242, 0x1D244); (0x1DA00, 0x1DA36);
   (0x1DA3B, 0x1DA6C); (0x1DA75, 0x1DA75); (0x1DA84, 0x1DA84); (0x1DA9B, 0x1DA9F); (0x1DAA1, 0x1DAAF); (0x1E000, 0x1E006);
   (0x1E008, 0x1E018); (0x1E01B, 0x1E021); (0x1E023, 0x1E024); (0x1E026, 0x1E02A); (0x1E130, 0x1E13D); (0x1E2AE, 0x1E2AE);
   (0x1E2EC, 0x1E2EF); (0x1E8D0, 0x1E8D6); (0x1E944, 0x1E94B); (0x1F3FB, 0x1F3FF); (0xE0001, 0xE0001); (0xE0020, 0xE007F);
   (0xE0100, 0xE01EF)])%N.

(** The property Cased. *)
Definition cased_ranges : list (N * N) :=
  (
  [(0x41, 0x5A); (0x61, 0x7A); (0xAA, 0xAA); (0xB5, 0xB5); (0xBA, 0xBA); (0xC0, 0xD6);
   (0xD8, 0xF6); (0xF8, 0x1BA); (0x1BC, 0x1BF); (0x1C4, 0x293); (0x295, 0x2B8); (0x2C0, 0x2C1);
   (0x2E0, 0x2E4); (0x345, 0x345); (0x370, 0x373); (0x376, 0x377); (0x37A, 0x37D); (0x37F, 0x37F);
   (0x386, 0x386); (0x388, 0x38A); (0x38C, 0x38C); (0x38E, 0x3A1); (0x3A3, 0x3F5); (0x3F7, 0x481);
   (0x48A, 0x52F); (0x531, 0x556); (0x560, 0x588); (0x10A0, 0x10C5); (0x10C7, 0x10C7); (0x10CD, 0x10CD);
   (0x10D0, 0x10FA); (0x10FD, 0x10FF); (0x13A0, 0x13F5); (0x13F8, 0x13FD); (0x1C80, 0x1C88); (0x1C90, 0x1CBA);
   (0x1CBD, 0x1CBF); (0x1D00, 0x1DBF); (0x1E00, 0x1F15); (0x1F18, 0x1F1D); (0x1F20, 0x1F45); (0x1F48, 0x1F4D);
   (0x1F50, 0x1F57); (0x1F59, 0x1F59); (0x1F5B, 0x1F5B); (0x1F5D, 0x1F5D); (0x1F5F, 0x1F7D); (0x1F80, 0x1FB4);
   (0x1FB6, 0x1FBC); (0x1FBE, 0x1FBE); (0x1FC2, 0x1FC4); (0x1FC6, 0x1FCC); (0x1FD0, 0x1FD3); (0x1FD6, 0x1FDB);
   (0x1FE0, 0x1FEC); (0x1FF2, 0x1FF4); (0x1FF6, 0x1FFC); (0x2071, 0x2071); (0x207F, 0x207F); (0x2090, 0x209C);
   (0x2102, 0x2102); (0x2107, 0x2107); (0x210A, 0x2113); (0x2115, 0x2115); (0x2119, 0x211D); (0x2124, 0x2124);
   (0x2126, 0x2126); (0x2128, 0x2128); (0x212A, 0x212D); (0x212F, 0x2134); (0x2139, 0x2139); (0x213C, 0x213F);
   (0x2145, 0x2149); (0x214E, 0x214E); (0x2160, 0x217F); (0x2183, 0x2184); (0x24B6, 0x24E9); (0x2C00, 0x2CE4);
   (0x2CEB, 0x2CEE); (0x2CF2, 0x2CF3); (0x2D00, 0x2D25); (0x2D27, 0x2D27); (0x2D2D, 0x2D2D); (0xA640, 0xA66D);
   (0xA680, 0xA69D); (0xA722, 0xA787); (0xA78B, 0xA78E); (0xA790, 0xA7CA); (0xA7D0, 0xA7D1); (0xA7D3, 0xA7D3);
   (0xA7D5, 0xA7D9); (0xA7F5, 0xA7F6); (0xA7F8, 0xA7FA); (0xAB30, 0xAB5A); (0xAB5C, 0xAB68); (0xAB70, 0xABBF);
   (0xFB00, 0xFB06); (0xFB13, 0xFB17); (0xFF21, 0xFF3A); (0xFF41, 0xFF5A); (0x10400, 0x1044F); (0x104B0, 0x104D3);
   (0x104D8, 0x104FB); (0x10570, 0x1057A); (0x1057C, 0x1058A); (0x1058C, 0x10592); (0x10594, 0x10595); (0x10597, 0x105A1);
   (0x105A3, 0x105B1); (0x105B3, 0x105B9); (0x105BB, 0x105BC); (0x10780, 0x10780); (0x10783, 0x10785); (0x10787, 0x107B0);
   (0x107B2, 0x107BA); (0x10C80, 0x10CB2); (0x10CC0, 0x10CF2); (0x118A0, 0x118DF); (0x16E40, 0x16E7F); (0x1D400, 0x1D454);
   (0x1D456, 0x1D49C); (0x1D49E, 0x1D49F); (0x1D4A2, 0x1D4A2); (0x1D4A5, 0x1D4A6); (0x1D4A9, 0x1D4AC); (0x1D4AE, 0x1D4B9);
   (0x1D4BB, 0x1D4BB); (0x1D4BD, 0x1D4C3); (0x1D4C5, 0x1D505); (0x1D507, 0x1D50A); (0x1D50D, 0x1D514); (0x1D516, 0x1D51C);
   (0x1D51E, 0x1D539); (0x1D53B, 0x1D53E); (0x1D540, 0x1D544); (0x1D546, 0x1D546); (0x1D54A, 0x1D550); (0x1D552, 0x1D6A5);
   (0x1D6A8, 0x1D6C0); (0x1D6C2, 0x1D6DA); (0x1D6DC, 0x1D6FA); (0x1D6FC, 0x1D714); (0x1D716, 0x1D734); (0x1D736, 0x1D74E);
   (0x1D750, 0x1D76E); (0x1D770, 0x1D788); (0x1D78A, 0x1D7A8); (0x1D7AA, 0x1D7C2); (0x1D7C4, 0x1D7CB); (0x1DF00, 0x1DF09);
   (0x1DF0B, 0x1DF1E); (0x1E900, 0x1E943); (0x1F130, 0x1F149); (0x1F150, 0x1F169); (0x1F170, 0x1F189)])%N.

(** The code points for which [str.isalpha] holds (categories Lu, Ll, Lt,
    Lm and Lo). *)
Definition alpha_ranges : list (N * N) :=
  (
  [(0x41, 0x5A); (0x61, 0x7A); (0xAA, 0xAA); (0xB5, 0xB5); (0xBA, 0xBA); (0xC0, 0xD6);
   (0xD8, 0xF6); (0xF8, 0x2C1); (0x2C6, 0x2D1); (0x2E0, 0x2E4); (0x2EC, 0x2EC); (0x2EE, 0x2EE);
   (0x370, 0x374); (0x376, 0x377); (0x37A, 0x37D); (0x37F, 0x37F); (0x386, 0x386); (0x388, 0x38A);
   (0x38C, 0x38C); (0x38E, 0x3A1); (0x3A3, 0x3F5); (0x3F7, 0x481); (0x48A, 0x52F); (0x531, 0x556);
   (0x559, 0x559); (0x560, 0x588); (0x5D0, 0x5EA); (0x5EF, 0x5F2); (0x620, 0x64A); (0x66E, 0x66F);
   (0x671, 0x6D3); (0x6D5, 0x6D5); (0x6E5, 0x6E6); (0x6EE, 0x6EF); (0x6FA, 0x6FC); (0x6FF, 0x6FF);
   (0x710, 0x710); (0x712, 0x72F); (0x74D, 0x7A5); (0x7B1, 0x7B1); (0x7CA, 0x7EA); (0x7F4, 0x7F5);
   (0x7FA, 0x7FA); (0x800, 0x815); (0x81A, 0x81A); (0x824, 0x824); (0x828, 0x828); (0x840, 0x858);
   (0x860, 0x86A); (0x870, 0x887); (0x889, 0x88E); (0x8A0, 0x8C9); (0x904, 0x939); (0x93D, 0x93D);
   (0x950, 0x950); (0x958, 0x961); (0x971, 0x980); (0x985, 0x98C); (0x98F, 0x990); (0x993, 0x9A8);
   (0x9AA, 0x9B0); (0x9B2, 0x9B2); (0x9B6, 0x9B9); (0x9BD, 0x9BD); (0x9CE, 0x9CE); (0x9DC, 0x9DD);
   (0x9DF, 0x9E1); (0x9F0, 0x9F1); (0x9FC, 0x9FC); (0xA05, 0xA0A); (0xA0F, 0xA10); (0xA13, 0xA28);
   (0xA2A, 0xA30); (0xA32, 0xA33); (0xA35, 0xA36); (0xA38, 0xA39); (0xA59, 0xA5C); (0xA5E, 0xA5E);
   (0xA72, 0xA74); (0xA85, 0xA8D); (0xA8F, 0xA91); (0xA93, 0xAA8); (0xAAA, 0xAB0); (0xAB2, 0xAB3);
   (0xAB5, 0xAB9); (0xABD, 0xABD); (0xAD0, 0xAD0); (0xAE0, 0xAE1); (0xAF9, 0xAF9); (0xB05, 0xB0C);
   (0xB0F, 0xB10); (0xB13, 0xB28); (0xB2A, 0xB30); (0xB32, 0xB33); (0xB35, 0xB39); (0xB3D, 0xB3D);
   (0xB5C, 0xB5D); (0xB5F, 0xB61); (0xB71, 0xB71); (0xB83, 0xB83); (0xB85, 0xB8A); (0xB8E, 0xB90);
   (0xB92, 0xB95); (0xB99, 0xB9A); (0xB9C, 0xB9C); (0xB9E, 0xB9F); (0xBA3, 0xBA4); (0xBA8, 0xBAA);
   (0xBAE, 0xBB9); (0xBD0, 0xBD0); (0xC05, 0xC0C); (0xC0E, 0xC10); (0xC12, 0xC28); (0xC2A, 0xC39);
   (0xC3D, 0xC3D); (0xC58, 0xC5A); (0xC5D, 0xC5D); (0xC60, 0xC61); (0xC80, 0xC80); (0xC85, 0xC8C);
   (0xC8E, 0xC90); (0xC92, 0xCA8); (0xCAA, 0xCB3); (0xCB5, 0xCB9); (0xCBD, 0xCBD); (0xCDD, 0xCDE);
   (0xCE0, 0xCE1); (0xCF1, 0xCF2); (0xD04, 0xD0C); (0xD0E, 0xD10); (0xD12, 0xD3A); (0xD3D, 0xD3D);
   (0xD4E, 0xD4E); (0xD54, 0xD56); (0xD5F, 0xD61); (0xD7A, 0xD7F); (0xD85, 0xD96); (0xD9A, 0xDB1);
   (0xDB3, 0xDBB); (0xDBD, 0xDBD); (0xDC0, 0xDC6); (0xE01, 0xE30); (0xE32, 0xE33); (0xE40, 0xE46);
   (0xE81, 0xE82); (0xE84, 0xE84); (0xE86, 0xE8A); (0xE8C, 0xEA3); (0xEA5, 0xEA5); (0xEA7, 0xEB0);
   (0xEB2, 0xEB3); (0xEBD, 0xEBD); (0xEC0, 0xEC4); (0xEC6, 0xEC6); (0xEDC, 0xEDF); (0xF00, 0xF00);
   (0xF40, 0xF47); (0xF49, 0xF6C); (0xF88, 0xF8C); (0x1000, 0x102A); (0x103F, 0x103F); (0x1050, 0x1055);
   (0x105A, 0x105D); (0x1061, 0x1061); (0x1065, 0x1066); (0x106E, 0x1070); (0x1075, 0x1081); (0x108E, 0x108E);
   (0x10A0, 0x10C5); (0x10C7, 0x10C7); (0x10CD, 0x10CD); (0x10D0, 0x10FA); (0x10FC, 0x1248); (0x124A, 0x124D);
   (0x1250, 0x1256); (0x1258, 0x1258); (0x125A, 0x125D); (0x1260, 0x1288); (0x128A, 0x128D); (0x1290, 0x12B0);
   (0x12B2, 0x12B5); (0x12B8, 0x12BE); (0x12C0, 0x12C0); (0x12C2, 0x12C5); (0x12C8, 0x12D6); (0x12D8, 0x1310);
   (0x1312, 0x1315); (0x1318, 0x135A); (0x1380, 0x138F); (0x13A0, 0x13F5); (0x13F8, 0x13FD); (0x1401, 0x166C);
   (0x166F, 0x167F); (0x1681, 0x169A); (0x16A0, 0x16EA); (0x16F1, 0x16F8); (0x1700, 0x1711); (0x171F, 0x1731);
   (0x1740, 0x1751); (0x1760, 0x176C); (0x176E, 0x1770); (0x1780, 0x17B3); (0x17D7, 0x17D7); (0x17DC, 0x17DC);
   (0x1820, 0x1878); (0x1880, 0x1884); (0x1887, 0x18A8); (0x18AA, 0x18AA); (0x18B0, 0x18F5); (0x1900, 0x191E);
   (0x1950, 0x196D); (0x1970, 0x1974); (0x1980, 0x19AB); (0x19B0, 0x19C9); (0x1A00, 0x1A16); (0x1A20, 0x1A54);
   (0x1AA7, 0x1AA7); (0x1B05, 0x1B33); (0x1B45, 0x1B4C); (0x1B83, 0x1BA0); (0x1BAE, 0x1BAF); (0x1BBA, 0x1BE5);
   (0x1C00, 0x1C23); (0x1C4D, 0x1C4F); (0x1C5A, 0x1C7D); (0x1C80, 0x1C88); (0x1C90, 0x1CBA); (0x1CBD, 0x1CBF);
   (0x1CE9, 0x1CEC); (0x1CEE, 0x1CF3); (0x1CF5, 0x1CF6); (0x1CFA, 0x1CFA); (0x1D00, 0x1DBF); (0x1E00, 0x1F15);
   (0x1F18, 0x1F1D); (0x1F20, 0x1F45); (0x1F48, 0x1F4D); (0x1F50, 0x1F57); (0x1F59, 0x1F59); (0x1F5B, 0x1F5B);
   (0x1F5D, 0x1F5D); (0x1F5F, 0x1F7D); (0x1F80, 0x1FB4); (0x1FB6, 0x1FBC); (0x1FBE, 0x1FBE); (0x1FC2, 0x1FC4);
   (0x1FC6, 0x1FCC); (0x1FD0, 0x1FD3); (0x1FD6, 0x1FDB); (0x1FE0, 0x1FEC); (0x1FF2, 0x1FF4); (0x1FF6, 0x1FFC);
   (0x2071, 0x2071); (0x207F, 0x207F); (0x2090, 0x209C); (0x2102, 0x2102); (0x2107, 0x2107); (0x210A, 0x2113);
   (0x2115, 0x2115); (0x2119, 0x211D); (0x2124, 0x2124); (0x2126, 0x2126); (0x2128, 0x2128); (0x212A, 0x212D);
   (0x212F, 0x2139); (0x213C, 0x213F); (0x2145, 0x2149); (0x214E, 0x214E); (0x2183, 0x2184); (0x2C00, 0x2CE4);
   (0x2CEB, 0x2CEE); (0x2CF2, 0x2CF3); (0x2D00, 0x2D25); (0x2D27, 0x2D27); (0x2D2D, 0x2D2D); (0x2D30, 0x2D67);
   (0x2D6F, 0x2D6F); (0x2D80, 0x2D96); (0x2DA0, 0x2DA6); (0x2DA8, 0x2DAE); (0x2DB0, 0x2DB6); (0x2DB8, 0x2DBE);
   (0x2DC0, 0x2DC6); (0x2DC8, 0x2DCE); (0x2DD0, 0x2DD6); (0x2DD8, 0x2DDE); (0x2E2F, 0x2E2F); (0x3005, 0x3006);
   (0x3031, 0x3035); (0x303B, 0x303C); (0x3041, 0x3096); (0x309D, 0x309F); (0x30A1, 0x30FA); (0x30FC, 0x30FF);
   (0x3105, 0x312F); (0x3131, 0x318E); (0x31A0, 0x31BF); (0x31F0, 0x31FF); (0x3400, 0x4DBF); (0x4E00, 0xA48C);
   (0xA4D0, 0xA4FD); (0xA500, 0xA60C); (0xA610, 0xA61F); (0xA62A, 0xA62B); (0xA640, 0xA66E); (0xA67F, 0xA69D);
   (0xA6A0, 0xA6E5); (0xA717, 0xA71F); (0xA722, 0xA788); (0xA78B, 0xA7CA); (0xA7D0, 0xA7D1); (0xA7D3, 0xA7D3);
   (0xA7D5, 0xA7D9); (0xA7F2, 0xA801); (0xA803, 0xA805); (0xA807, 0xA80A); (0xA80C, 0xA822); (0xA840, 0xA873);
   (0xA882, 0xA8B3); (0xA8F2, 0xA8F7); (0xA8FB, 0xA8FB); (0xA8FD, 0xA8FE); (0xA90A, 0xA925); (0xA930, 0xA946);
   (0xA960, 0xA97C); (0xA984, 0xA9B2); (0xA9CF, 0xA9CF); (0xA9E0, 0xA9E4); (0xA9E6, 0xA9EF); (0xA9FA, 0xA9FE);
   (0xAA00, 0xAA28); (0xAA40, 0xAA42); (0xAA44, 0xAA4B); (0xAA60, 0xAA76); (0xAA7A, 0xAA7A); (0xAA7E, 0xAAAF);
   (0xAAB1, 0xAAB1); (0xAAB5, 0xAAB6); (0xAAB9, 0xAABD); (0xAAC0, 0xAAC0); (0xAAC2, 0xAAC2); (0xAADB, 0xAADD);
   (0xAAE0, 0xAAEA); (0xAAF2, 0xAAF4); (0xAB01, 0xAB06); (0xAB09, 0xAB0E); (0xAB11, 0xAB16); (0xAB20, 0xAB26);
   (0xAB28, 0xAB2E); (0xAB30, 0xAB5A); (0xAB5C, 0xAB69); (0xAB70, 0xABE2); (0xAC00, 0xD7A3); (0xD7B0, 0xD7C6);
   (0xD7CB, 0xD7FB); (0xF900, 0xFA6D); (0xFA70, 0xFAD9); (0xFB00, 0xFB06); (0xFB13, 0xFB17); (0xFB1D, 0xFB1D);
   (0xFB1F, 0xFB28); (0xFB2A, 0xFB36); (0xFB38, 0xFB3C); (0xFB3E, 0xFB3E); (0xFB40, 0xFB41); (0xFB43, 0xFB44);
   (0xFB46, 0xFBB1); (0xFBD3, 0xFD3D); (0xFD50, 0xFD8F); (0xFD92, 0xFDC7); (0xFDF0, 0xFDFB); (0xFE70, 0xFE74);
   (0xFE76, 0xFEFC); (0xFF21, 0xFF3A); (0xFF41, 0xFF5A); (0xFF66, 0xFFBE); (0xFFC2, 0xFFC7); (0xFFCA, 0xFFCF);
   (0xFFD2, 0xFFD7); (0xFFDA, 0xFFDC); (0x10000, 0x1000B); (0x1000D, 0x10026); (0x10028, 0x1003A); (0x1003C, 0x1003D);
   (0x1003F, 0x1004D); (0x10050, 0x1005D); (0x10080, 0x100FA); (0x10280, 0x1029C); (0x102A0, 0x102D0); (0x10300, 0x1031F);
   (0x1032D, 0x10340); (0x10342, 0x10349); (0x10350, 0x10375); (0x10380, 0x1039D); (0x103A0, 0x103C3); (0x103C8, 0x103CF);
   (0x10400, 0x1049D); (0x104B0, 0x104D3); (0x104D8, 0x104FB); (0x10500, 0x10527); (0x10530, 0x10563); (0x10570, 0x1057A);
   (0x1057C, 0x1058A); (0x1058C, 0x10592); (0x10594, 0x10595); (0x10597, 0x105A1); (0x105A3, 0x105B1); (0x105B3, 0x105B9);
   (0x105BB, 0x105BC); (0x10600, 0x10736); (0x10740, 0x10755); (0x10760, 0x10767); (0x10780, 0x10785); (0x10787, 0x107B0);
   (0x107B2, 0x107BA); (0x10800, 0x10805); (0x10808, 0x10808); (0x1080A, 0x10835); (0x10837, 0x10838); (0x1083C, 0x1083C);
   (0x1083F, 0x10855); (0x10860, 0x10876); (0x10880, 0x1089E); (0x108E0, 0x108F2); (0x108F4, 0x108F5); (0x10900, 0x10915);
   (0x10920, 0x10939); (0x10980, 0x109B7); (0x109BE, 0x109BF); (0x10A00, 0x10A00); (0x10A10, 0x10A13); (0x10A15, 0x10A17);
   (0x10A19, 0x10A35); (0x10A60, 0x10A7C); (0x10A80, 0x10A9C); (0x10AC0, 0x10AC7); (0x10AC9, 0x10AE4); (0x10B00, 0x10B35);
   (0x10B40, 0x10B55); (0x10B60, 0x10B72); (0x10B80, 0x10B91); (0x10C00, 0x10C48); (0x10C80, 0x10CB2); (0x10CC0, 0x10CF2);
   (0x10D00, 0x10D23); (0x10E80, 0x10EA9); (0x10EB0, 0x10EB1); (0x10F00, 0x10F1C); (0x10F27, 0x10F27); (0x10F30, 0x10F45);
   (0x10F70, 0x10F81); (0x10FB0, 0x10FC4); (0x10FE0, 0x10FF6); (0x11003, 0x11037); (0x11071, 0x11072); (0x11075, 0x11075);
   (0x11083, 0x110AF); (0x110D0, 0x110E8); (0x11103, 0x11126); (0x11144, 0x11144); (0x11147, 0x11147); (0x11150, 0x11172);
   (0x11176, 0x11176); (0x11183, 0x111B2); (0x111C1, 0x111C4); (0x111DA, 0x111DA); (0x111DC, 0x111DC); (0x11200, 0x11211);
   (0x11213, 0x1122B); (0x11280, 0x11286); (0x11288, 0x11288); (0x1128A, 0x1128D); (0x1128F, 0x1129D); (0x1129F, 0x112A8);
   (0x112B0, 0x112DE); (0x11305, 0x1130C); (0x1130F, 0x11310); (0x11313, 0x11328); (0x1132A, 0x11330); (0x11332, 0x11333);
   (0x11335, 0x11339); (0x1133D, 0x1133D); (0x11350, 0x11350); (0x1135D, 0x11361); (0x11400, 0x11434); (0x11447, 0x1144A);
   (0x1145F, 0x11461); (0x11480, 0x114AF); (0x114C4, 0x114C5); (0x114C7, 0x114C7); (0x11580, 0x115AE); (0x115D8, 0x115DB);
   (0x11600, 0x1162F); (0x11644, 0x11644); (0x11680, 0x116AA); (0x116B8, 0x116B8); (0x11700, 0x1171A); (0x11740, 0x11746);
   (0x11800, 0x1182B); (0x118A0, 0x118DF); (0x118FF, 0x11906); (0x11909, 0x11909); (0x1190C, 0x11913); (0x11915, 0x11916);
   (0x11918, 0x1192F); (0x1193F, 0x1193F); (0x11941, 0x11941); (0x119A0, 0x119A7); (0x119AA, 0x119D0); (0x119E1, 0x119E1);
   (0x119E3, 0x119E3); (0x11A00, 0x11A00); (0x11A0B, 0x11A32); (0x11A3A, 0x11A3A); (0x11A50, 0x11A50); (0x11A5C, 0x11A89);
   (0x11A9D, 0x11A9D); (0x11AB0, 0x11AF8); (0x11C00, 0x11C08); (0x11C0A, 0x11C2E); (0x11C40, 0x11C40); (0x11C72, 0x11C8F);
   (0x11D00, 0x11D06); (0x11D08, 0x11D09); (0x11D0B, 0x11D30); (0x11D46, 0x11D46); (0x11D60, 0x11D65); (0x11D67, 0x11D68);
   (0x11D6A, 0x11D89); (0x11D98, 0x11D98); (0x11EE0, 0x11EF2); (0x11FB0, 0x11FB0); (0x12000, 0x12399); (0x12480, 0x12543);
   (0x12F90, 0x12FF0); (0x13000, 0x1342E); (0x14400, 0x14646); (0x16800, 0x16A38); (0x16A40, 0x16A5E); (0x16A70, 0x16ABE);
   (0x16AD0, 0x16AED); (0x16B00, 0x16B2F); (0x16B40, 0x16B43); (0x16B63, 0x16B77); (0x16B7D, 0x16B8F); (0x16E40, 0x16E7F);
   (0x16F00, 0x16F4A); (0x16F50, 0x16F50); (0x16F93, 0x16F9F); (0x16FE0, 0x16FE1); (0x16FE3, 0x16FE3); (0x17000, 0x187F7);
   (0x18800, 0x18CD5); (0x18D00, 0x18D08); (0x1AFF0, 0x1AFF3); (0x1AFF5, 0x1AFFB); (0x1AFFD, 0x1AFFE); (0x1B000, 0x1B122);
   (0x1B150, 0x1B152); (0x1B164, 0x1B167); (0x1B170, 0x1B2FB); (0x1BC00, 0x1BC6A); (0x1BC70, 0x1BC7C); (0x1BC80, 0x1BC88);
   (0x1BC90, 0x1BC99); (0x1D400, 0x1D454); (0x1D456, 0x1D49C); (0x1D49E, 0x1D49F); (0x1D4A2, 0x1D4A2); (0x1D4A5, 0x1D4A6);
   (0x1D4A9, 0x1D4AC); (0x1D4AE, 0x1D4B9); (0x1D4BB, 0x1D4BB); (0x1D4BD, 0x1D4C3); (0x1D4C5, 0x1D505); (0x1D507, 0x1D50A);
   (0x1D50D, 0x1D514); (0x1D516, 0x1D51C); (0x1D51E, 0x1D539); (0x1D53B, 0x1D53E); (0x1D540, 0x1D544); (0x1D546, 0x1D546);
   (0x1D54A, 0x1D550); (0x1D552, 0x1D6A5); (0x1D6A8, 0x1D6C0); (0x1D6C2, 0x1D6DA); (0x1D6DC, 0x1D6FA); (0x1D6FC, 0x1D714);
   (0x1D716, 0x1D734); (0x1D736, 0x1D74E); (0x1D750, 0x1D76E); (0x1D770, 0x1D788); (0x1D78A, 0x1D7A8); (0x1D7AA, 0x1D7C2);
   (0x1D7C4, 0x1D7CB); (0x1DF00, 0x1DF1E); (0x1E100, 0x1E12C); (0x1E137, 0x1E13D); (0x1E14E, 0x1E14E); (0x1E290, 0x1E2AD);
   (0x1E2C0, 0x1E2EB); (0x1E7E0, 0x1E7E6); (0x1E7E8, 0x1E7EB); (0x1E7ED, 0x1E7EE); (0x1E7F0, 0x1E7FE); (0x1E800, 0x1E8C4);
   (0x1E900, 0x1E943); (0x1E94B, 0x1E94B); (0x1EE00, 0x1EE03); (0x1EE05, 0x1EE1F); (0x1EE21, 0x1EE22); (0x1EE24, 0x1EE24);
   (0x1EE27, 0x1EE27); (0x1EE29, 0x1EE32); (0x1EE34, 0x1EE37); (0x1EE39, 0x1EE39); (0x1EE3B, 0x1EE3B); (0x1EE42, 0x1EE42);
   (0x1EE47, 0x1EE47); (0x1EE49, 0x1EE49); (0x1EE4B, 0x1EE4B); (0x1EE4D, 0x1EE4F); (0x1EE51, 0x1EE52); (0x1EE54, 0x1EE54);
   (0x1EE57, 0x1EE57); (0x1EE59, 0x1EE59); (0x1EE5B, 0x1EE5B); (0x1EE5D, 0x1EE5D); (0x1EE5F, 0x1EE5F); (0x1EE61, 0x1EE62);
   (0x1EE64, 0x1EE64); (0x1EE67, 0x1EE6A); (0x1EE6C, 0x1EE72); (0x1EE74, 0x1EE77); (0x1EE79, 0x1EE7C); (0x1EE7E, 0x1EE7E);
   (0x1EE80, 0x1EE89); (0x1EE8B, 0x1EE9B); (0x1EEA1, 0x1EEA3); (0x1EEA5, 0x1EEA9); (0x1EEAB, 0x1EEBB); (0x20000, 0x2A6DF);
   (0x2A700, 0x2B738); (0x2B740, 0x2B81D); (0x2B820, 0x2CEA1); (0x2CEB0, 0x2EBE0); (0x2F800, 0x2FA1D); (0x30000, 0x3134A)])%N.

(** The simple lowercase mapping, as runs [(first, last, step, image of
    first)]: every [step]-th code point from [first] to [last] is moved by
    the same distance as [first]. *)
Definition lower_runs : list (N * N * N * N) :=
  (
  [(0x41, 0x5A, 1, 0x61); (0xC0, 0xD6, 1, 0xE0); (0xD8, 0xDE, 1, 0xF8);
   (0x100, 0x12E, 2, 0x101); (0x132, 0x136, 2, 0x133); (0x139, 0x147, 2, 0x13A);
   (0x14A, 0x176, 2, 0x14B); (0x178, 0x178, 1, 0xFF); (0x179, 0x17D, 2, 0x17A);
   (0x181, 0x181, 1, 0x253); (0x182, 0x184, 2, 0x183); (0x186, 0x186, 1, 0x254);
   (0x187, 0x187, 1, 0x188); (0x189, 0x18A, 1, 0x256); (0x18B, 0x18B, 1, 0x18C);
   (0x18E, 0x18E, 1, 0x1DD); (0x18F, 0x18F, 1, 0x259); (0x190, 0x190, 1, 0x25B);
   (0x191, 0x191, 1, 0x192); (0x193, 0x193, 1, 0x260); (0x194, 0x194, 1, 0x263);
   (0x196, 0x196, 1, 0x269); (0x197, 0x197, 1, 0x268); (0x198, 0x198, 1, 0x199);
   (0x19C, 0x19C, 1, 0x26F); (0x19D, 0x19D, 1, 0x272); (0x19F, 0x19F, 1, 0x275);
   (0x1A0, 0x1A4, 2, 0x1A1); (0x1A6, 0x1A6, 1, 0x280); (0x1A7, 0x1A7, 1, 0x1A8);
   (0x1A9, 0x1A9, 1, 0x283); (0x1AC, 0x1AC, 1, 0x1AD); (0x1AE, 0x1AE, 1, 0x288);
   (0x1AF, 0x1AF, 1, 0x1B0); (0x1B1, 0x1B2, 1, 0x28A); (0x1B3, 0x1B5, 2, 0x1B4);
   (0x1B7, 0x1B7, 1, 0x292); (0x1B8, 0x1B8, 1, 0x1B9); (0x1BC, 0x1BC, 1, 0x1BD);
   (0x1C4, 0x1C4, 1, 0x1C6); (0x1C5, 0x1C5, 1, 0x1C6); (0x1C7, 0x1C7, 1, 0x1C9);
   (0x1C8, 0x1C8, 1, 0x1C9); (0x1CA, 0x1CA, 1, 0x1CC); (0x1CB, 0x1DB, 2, 0x1CC);
   (0x1DE, 0x1EE, 2, 0x1DF); (0x1F1, 0x1F1, 1, 0x1F3); (0x1F2, 0x1F4, 2, 0x1F3);
   (0x1F6, 0x1F6, 1, 0x195); (0x1F7, 0x1F7, 1, 0x1BF); (0x1F8, 0x21E, 2, 0x1F9);
   (0x220, 0x220, 1, 0x19E); (0x222, 0x232, 2, 0x223); (0x23A, 0x23A, 1, 0x2C65);
   (0x23B, 0x23B, 1, 0x23C); (0x23D, 0x23D, 1, 0x19A); (0x23E, 0x23E, 1, 0x2C66);
   (0x241, 0x241, 1, 0x242); (0x243, 0x243, 1, 0x180); (0x244, 0x244, 1, 0x289);
   (0x245, 0x245, 1, 0x28C); (0x246, 0x24E, 2, 0x247); (0x370, 0x372, 2, 0x371);
   (0x376, 0x376, 1, 0x377); (0x37F, 0x37F, 1, 0x3F3); (0x386, 0x386, 1, 0x3AC);
   (0x388, 0x38A, 1, 0x3AD); (0x38C, 0x38C, 1, 0x3CC); (0x38E, 0x38F, 1, 0x3CD);
   (0x391, 0x3A1, 1, 0x3B1); (0x3A3, 0x3AB, 1, 0x3C3); (0x3CF, 0x3CF, 1, 0x3D7);
   (0x3D8, 0x3EE, 2, 0x3D9); (0x3F4, 0x3F4, 1, 0x3B8); (0x3F7, 0x3F7, 1, 0x3F8);
   (0x3F9, 0x3F9, 1, 0x3F2); (0x3FA, 0x3FA, 1, 0x3FB); (0x3FD, 0x3FF, 1, 0x37B);
   (0x400, 0x40F, 1, 0x450); (0x410, 0x42F, 1, 0x430); (0x460, 0x480, 2, 0x461);
   (0x48A, 0x4BE, 2, 0x48B); (0x4C0, 0x4C0, 1, 0x4CF); (0x4C1, 0x4CD, 2, 0x4C2);
   (0x4D0, 0x52E, 2, 0x4D1); (0x531, 0x556, 1, 0x561); (0x10A0, 0x10C5, 1, 0x2D00);
   (0x10C7, 0x10C7, 1, 0x2D27); (0x10CD, 0x10CD, 1, 0x2D2D); (0x13A0, 0x13EF, 1, 0xAB70);
   (0x13F0, 0x13F5, 1, 0x13F8); (0x1C90, 0x1CBA, 1, 0x10D0); (0x1CBD, 0x1CBF, 1, 0x10FD);
   (0x1E00, 0x1E94, 2, 0x1E01); (0x1E9E, 0x1E9E, 1, 0xDF); (0x1EA0, 0x1EFE, 2, 0x1EA1);
   (0x1F08, 0x1F0F, 1, 0x1F00); (0x1F18, 0x1F1D, 1, 0x1F10); (0x1F28, 0x1F2F, 1, 0x1F20);
   (0x1F38, 0x1F3F, 1, 0x1F30); (0x1F48, 0x1F4D, 1, 0x1F40); (0x1F59, 0x1F5F, 2, 0x1F51);
   (0x1F68, 0x1F6F, 1, 0x1F60); (0x1F88, 0x1F8F, 1, 0x1F80); (0x1F98, 0x1F9F, 1, 0x1F90);
   (0x1FA8, 0x1FAF, 1, 0x1FA0); (0x1FB8, 0x1FB9, 1, 0x1FB0); (0x1FBA, 0x1FBB, 1, 0x1F70);
   (0x1FBC, 0x1FBC, 1, 0x1FB3); (0x1FC8, 0x1FCB, 1, 0x1F72); (0x1FCC, 0x1FCC, 1, 0x1FC3);
   (0x1FD8, 0x1FD9, 1, 0x1FD0); (0x1FDA, 0x1FDB, 1, 0x1F76); (0x1FE8, 0x1FE9, 1, 0x1FE0);
   (0x1FEA, 0x1FEB, 1, 0x1F7A); (0x1FEC, 0x1FEC, 1, 0x1FE5); (0x1FF8, 0x1FF9, 1, 0x1F78);
   (0x1FFA, 0x1FFB, 1, 0x1F7C); (0x1FFC, 0x1FFC, 1, 0x1FF3); (0x2126, 0x2126, 1, 0x3C9);
   (0x212A, 0x212A, 1, 0x6B); (0x212B, 0x212B, 1, 0xE5); (0x2132, 0x2132, 1, 0x214E);
   (0x2160, 0x216F, 1, 0x2170); (0x2183, 0x2183, 1, 0x2184); (0x24B6, 0x24CF, 1, 0x24D0);
   (0x2C00, 0x2C2F, 1, 0x2C30); (0x2C60, 0x2C60, 1, 0x2C61); (0x2C62, 0x2C62, 1, 0x26B);
   (0x2C63, 0x2C63, 1, 0x1D7D); (0x2C64, 0x2C64, 1, 0x27D); (0x2C67, 0x2C6B, 2, 0x2C68);
   (0x2C6D, 0x2C6D, 1, 0x251); (0x2C6E, 0x2C6E, 1, 0x271); (0x2C6F, 0x2C6F, 1, 0x250);
   (0x2C70, 0x2C70, 1, 0x252); (0x2C72, 0x2C72, 1, 0x2C73); (0x2C75, 0x2C75, 1, 0x2C76);
   (0x2C7E, 0x2C7F, 1, 0x23F); (0x2C80, 0x2CE2, 2, 0x2C81); (0x2CEB, 0x2CED, 2, 0x2CEC);
   (0x2CF2, 0x2CF2, 1, 0x2CF3); (0xA640, 0xA66C, 2, 0xA641); (0xA680, 0xA69A, 2, 0xA681);
   (0xA722, 0xA72E, 2, 0xA723); (0xA732, 0xA76E, 2, 0xA733); (0xA779, 0xA77B, 2, 0xA77A);
   (0xA77D, 0xA77D, 1, 0x1D79); (0xA77E, 0xA786, 2, 0xA77F); (0xA78B, 0xA78B, 1, 0xA78C);
   (0xA78D, 0xA78D, 1, 0x265); (0xA790, 0xA792, 2, 0xA791); (0xA796, 0xA7A8, 2, 0xA797);
   (0xA7AA, 0xA7AA, 1, 0x266); (0xA7AB, 0xA7AB, 1, 0x25C); (0xA7AC, 0xA7AC, 1, 0x261);
   (0xA7AD, 0xA7AD, 1, 0x26C); (0xA7AE, 0xA7AE, 1, 0x26A); (0xA7B0, 0xA7B0, 1, 0x29E);
   (0xA7B1, 0xA7B1, 1, 0x287); (0xA7B2, 0xA7B2, 1, 0x29D); (0xA7B3, 0xA7B3, 1, 0xAB53);
   (0xA7B4, 0xA7C2, 2, 0xA7B5); (0xA7C4, 0xA7C4, 1, 0xA794); (0xA7C5, 0xA7C5, 1, 0x282);
   (0xA7C6, 0xA7C6, 1, 0x1D8E); (0xA7C7, 0xA7C9, 2, 0xA7C8); (0xA7D0, 0xA7D0, 1, 0xA7D1);
   (0xA7D6, 0xA7D8, 2, 0xA7D7); (0xA7F5, 0xA7F5, 1, 0xA7F6); (0xFF21, 0xFF3A, 1, 0xFF41);
   (0x10400, 0x10427, 1, 0x10428); (0x104B0, 0x104D3, 1, 0x104D8); (0x10570, 0x10594, 2, 0x10597);
   (0x10571, 0x10579, 2, 0x10598); (0x1057D, 0x10589, 2, 0x105A4); (0x1058D, 0x10591, 2, 0x105B4);
   (0x10595, 0x10595, 1, 0x105BC); (0x10C80, 0x10CB2, 1, 0x10CC0); (0x118A0, 0x118BF, 1, 0x118C0);
   (0x16E40, 0x16E5F, 1, 0x16E60); (0x1E900, 0x1E921, 1, 0x1E922)])%N.

Definition case_ignorable (c : N) : bool := in_ranges case_ignorable_ranges c.
Definition cased (c : N) : bool := in_ranges cased_ranges c.

(** [str.isalpha] on one character. *)
Definition isalpha (c : N) : bool := in_ranges alpha_ranges c.

Definition in_run (c : N) (r : N * N * N * N) : bool :=
  let '(first, last, step, _) := r in
  ((first <=? c) && (c <=? last) && ((c - first) mod step =? 0))%N.

(** The simple lowercase mapping of one code point. *)
Definition to_lower (c : N) : N :=
  match List.find (in_run c) lower_runs with
  | Some (first, _, _, image) => (image + (c - first))%N
  | None => c
  end.

(** *** [str.lower] *)

Definition dotted_capital_i : N := 0x130%N.
Definition capital_sigma : N := 0x3A3%N.
Definition small_sigma : N := 0x3C3%N.
Definition final_sigma : N := 0x3C2%N.

(** The full lowercase mapping: one code point, but for U+0130. *)
Definition to_lower_full (c : N) : ustr :=
  if (c =? dotted_capital_i)%N then [0x69; 0x307]%N else [to_lower c].

Fixpoint skip_ignorable (s : ustr) : ustr :=
  match s with
  | [] => []
  | c :: s' => if case_ignorable c then skip_ignorable s' else s
  end.

(** A capital sigma is final when a cased letter stands before it and none
    after it, characters that are case-ignorable apart.  [before] holds the
    characters before the sigma, the nearest first. *)
Definition handle_capital_sigma (before after : ustr) : N :=
  let is_final :=
    match skip_ignorable before with
    | [] => false
    | c :: _ =>
        cased c
        && match skip_ignorable after with
           | [] => true
           | d :: _ => negb (cased d)
           end
    end in
  if is_final then final_sigma else small_sigma.

Fixpoint do_lower (before s : ustr) : ustr :=
  match s with
  | [] => []
  | c :: s' =>
      (if (c =? capital_sigma)%N then [handle_capital_sigma before s']
       else to_lower_full c)
      ++ do_lower (c :: before) s'
  end.

(** [s.lower()] *)
Definition lower (s : ustr) : ustr := do_lower [] s.

(** *** [len], indexing, slicing, [str.find] and [str.rfind] *)

Definition len (s : ustr) : Z := Z.of_nat (List.length s).

Definition getitem (s : ustr) (i : Z) : result N :=
  let j := (if i <? 0 then i + len s else i)%Z in
  if (j <? 0)%Z then Raise IndexError
  else match nth_error s (Z.to_nat j) with
       | Some c => Ok c
       | None => Raise IndexError
       end.

Definition slice_bound (s : ustr) (i : Z) : nat :=
  let j := (if i <? 0 then Z.max 0 (i + len s) else Z.min i (len s))%Z in
  Z.to_nat j.

Definition slice_from (s : ustr) (i : Z) : ustr := skipn (slice_bound s i) s.

Definition slice_to (s : ustr) (i : Z) : ustr := firstn (slice_bound s i) s.

Fixpoint starts_with (p s : ustr) : bool :=
  match p, s with
  | [], _ => true
  | _ :: _, [] => false
  | a :: p', b :: s' => (a =? b)%N && starts_with p' s'
  end.

Fixpoint find_first (sub s : ustr) : option nat :=
  if starts_with sub s then Some 0
  else match s with
       | [] => None
       | _ :: s' => option_map S (find_first sub s')
       end.

Fixpoint find_last (sub s : ustr) : option nat :=
  match s with
  | [] => if starts_with sub [] then Some 0 else None
  | _ :: s' =>
      match find_last sub s' with
      | Some i => Some (S i)
      | None => if starts_with sub s then Some 0 else None
      end
  end.

Definition find (s sub : ustr) : Z := index_or_minus_one (find_first sub s).

Definition rfind (s sub : ustr) : Z := index_or_minus_one (find_last sub s).

(** *** The two cuts *)

Definition _stopstrings_front : list ustr :=
  map of_pystr Scrubber._stopstrings_front.
Definition _stopstrings_body : list ustr :=
  map of_pystr Scrubber._stopstrings_body.

Definition cut_head (text : ustr) (stopstrings : list ustr) : result ustr :=
  start_idx <- py_max
    (map (fun string =>
            rfind (lower text) string
            + len string * Z.b2z (negb (rfind (lower text) string =? -1)))%Z
         stopstrings) ;;
  start_idx <-
    (if (start_idx >? 0)%Z then
       c1 <- getitem text (start_idx + 1) ;;
       if negb (isalpha c1) then
         advance2 <-
           (if negb (len text >=? start_idx + 2)%Z
            then c2 <- getitem text (start_idx + 2) ;; Ok (isalpha c2)
            else Ok false) ;;
         if advance2 then Ok (start_idx + 2)%Z else Ok (start_idx + 1)%Z
       else Ok start_idx
     else Ok start_idx) ;;
  Ok (slice_from text (Z.min (len text) (Z.max start_idx 0))).

Definition cut_tail (text : ustr) (stopstrings : list ustr) : result ustr :=
  end_idx <- py_min
    (map (fun string =>
            find (lower text) string
            + (len text + 1) * Z.b2z (find (lower text) string =? -1))%Z
         stopstrings) ;;
  Ok (slice_to text end_idx).

(** *** Occurrences of a marker *)

(** The index at which [cut_head] starts its boundary cleanup. *)
Definition front_cut_index (text : ustr) (stopstrings : list ustr)
  : result Z :=
  py_max
    (map (fun string =>
            rfind (lower text) string
            + len string * Z.b2z (negb (rfind (lower text) string =? -1)))%Z
         stopstrings).

(** The marker occurs in [text] at index [i], letter case ignored: the
    characters of [text] from [i] on, as many as the marker has, are the
    marker when both are put in lower case. *)
Definition occurs_at (marker text : ustr) (i : nat) : Prop :=
  i + List.length marker <= List.length text
  /\ lower (firstn (List.length marker) (skipn i text)) = lower marker.

Definition first_occurrence (marker text : ustr) (i : nat) : Prop :=
  occurs_at marker text i /\ forall j, j < i -> ~ occurs_at marker text j.

Definition last_occurrence (marker text : ustr) (i : nat) : Prop :=
  occurs_at marker text i /\ forall j, i < j -> ~ occurs_at marker text j.

Definition occurs (marker text : ustr) : Prop :=
  exists i, occurs_at marker text i.

(** No character of the text is U+0130. *)
Definition no_dotted_capital (text : ustr) : bool :=
  forallb (fun c => negb (c =? dotted_capital_i)%N) text.

(** Every character of the text is an ASCII character. *)
Definition ascii_only (text : ustr) : bool :=
  forallb (fun c => (c <? 128)%N) text.

(** A marker of ASCII characters that is its own lower case. *)
Definition plain_marker (m : ustr) : Prop :=
  ascii_only m = true /\ lower m = m.

(** Two characters are the same letter when they are equal or both a
    small sigma, final or not. *)
Definition same_letter (a b : N) : Prop :=
  a = b
  \/ ((a = small_sigma \/ a = final_sigma)
      /\ (b = small_sigma \/ b = final_sigma)).

(** The position the back cut gives a marker. *)
Definition marker_position (text marker : ustr) : nat :=
  match find_first marker (lower text) with
  | Some i => i
  | None => List.length text
  end.

(** What [cut_head] adds up for one marker. *)
Definition marker_end (text marker : ustr) : Z :=
  match find_last marker (lower text) with
  | Some j => Z.of_nat (j + List.length marker)
  | None => (-1)%Z
  end.

(** *** Example texts *)


(** A text with Greek capitals, a capital sigma among them, and the Kelvin
    sign U+212A, whose lower case is the letter k. *)
Definition greek_text : ustr :=
  [0x39F; 0x394; 0x39F; capital_sigma]%N
  ++ of_pystr (str " notes. Ac")
  ++ [0x212A]%N
  ++ of_pystr (str "nowledgements: none.").

(** The front matter of an article with Greek capitals. *)
Definition greek_front : ustr :=
  of_pystr (str "Licensed and Credited. ")
  ++ [0x39F; 0x394; 0x39F; capital_sigma]%N.

End Unicode.
(** ** Facts on characters *)

Module CharFacts.
Import Py Re Spec.

Ltac all_chars c :=
  destruct c as [[|] [|] [|] [|] [|] [|] [|] [|]]; vm_compute; try congruence; auto.

Lemma eqb_eq_char (a b : ascii) : Ascii.eqb a b = true -> a = b.
Proof. apply Ascii.eqb_eq. Qed.

Lemma is_sp_eq c : is_sp c = true -> c = " "%char.
Proof. unfold is_sp. apply eqb_eq_char. Qed.

Lemma digit_not_space c : isspace c = true -> isdigit c = false.
Proof. all_chars c. Qed.

Lemma digit_not_literal (x c : ascii) :
  isdigit x = false -> isdigit c = true -> Ascii.eqb x c = false.
Proof.
  intros Hx Hc. destruct (Ascii.eqb x c) eqn:E; [|reflexivity].
  apply eqb_eq_char in E. congruence.
Qed.

Lemma necessary_or_space_kept c :
  necessary c || is_sp c = true -> is_eos c = false -> normalized_char c = true.
Proof. all_chars c. Qed.

Lemma normalized_necessary_or_space c :
  normalized_char c = true -> necessary c = false -> c = " "%char.
Proof. all_chars c. Qed.

Lemma normalized_eos c :
  normalized_char c = true -> is_eos c = true -> c = "."%char.
Proof. all_chars c. Qed.

Lemma normalized_not_open c :
  normalized_char c = true ->
  Ascii.eqb "[" c = false /\ Ascii.eqb "(" c = false.
Proof. all_chars c. Qed.

Lemma normalized_not_punct c :
  normalized_char c = true ->
  c <> "!"%char /\ c <> "?"%char /\ c <> "("%char /\ c <> ")"%char
  /\ c <> "["%char /\ c <> "]"%char.
Proof. all_chars c; repeat split; congruence. Qed.

End CharFacts.

(** ** Facts on the matcher and on [re.sub] *)

Module ReFacts.
Import Py Re Spec CharFacts.

(** *** Greedy repetition *)

(** When the continuation cannot start on a character of the class, the
    repetition takes the whole run. *)
Lemma star_match_max p k s :
  (forall c s', p c = true -> k (c :: s') = None) ->
  star_match p s k
  = option_map (Nat.add (run p s)) (k (skipn (run p s) s)).
Proof.
  intros Hk. induction s as [|c s IH]; simpl.
  - destruct (k []); reflexivity.
  - destruct (p c) eqn:Hc; simpl.
    + rewrite IH. destruct (k (skipn (run p s) s)) as [n|]; simpl.
      * reflexivity.
      * apply Hk, Hc.
    + destruct (k (c :: s)); reflexivity.
Qed.

Lemma star_match_end p s :
  star_match p s (fun _ => Some 0) = Some (run p s).
Proof.
  induction s as [|c s IH]; simpl; [reflexivity|].
  destruct (p c); [rewrite IH|]; reflexivity.
Qed.

(** A match of the repetition stops somewhere inside the run, where the
    continuation matches. *)
Lemma star_match_some p k s n :
  star_match p s k = Some n ->
  exists j m, j <= run p s /\ k (skipn j s) = Some m.
Proof.
  revert n. induction s as [|c s IH]; simpl; intros n H.
  - exists 0, n. split; [lia | exact H].
  - destruct (p c) eqn:Hc.
    + destruct (star_match p s k) as [n'|] eqn:E.
      * destruct (IH _ eq_refl) as (j & m & Hj & Hm).
        exists (S j), m. split; [lia | exact Hm].
      * exists 0, n. split; [lia | exact H].
    + exists 0, n. split; [lia | exact H].
Qed.

(** *** Matches of the patterns of the scrubber *)

Lemma match_at_chr p s :
  match_at (Chr p) s
  = match s with
    | [] => None
    | c :: _ => if p c then Some 1 else None
    end.
Proof. destruct s as [|c s]; [reflexivity|]. unfold match_at; simpl. destruct (p c); reflexivity. Qed.

Lemma match_at_plus p s :
  match_at (plus p) s
  = match s with
    | [] => None
    | c :: s' => if p c then Some (S (run p s')) else None
    end.
Proof.
  destruct s as [|c s]; [reflexivity|]. unfold match_at, plus; simpl.
  destruct (p c); [|reflexivity]. rewrite star_match_end. reflexivity.
Qed.

Lemma match_at_spaces s :
  match_at spaces_re s
  = match s with
    | a :: b :: s' =>
        if is_sp a && is_sp b then Some (2 + run is_sp s') else None
    | _ => None
    end.
Proof.
  unfold match_at, spaces_re. destruct s as [|a [|b s]]; simpl.
  - reflexivity.
  - destruct (is_sp a); reflexivity.
  - destruct (is_sp a); simpl; [|reflexivity].
    destruct (is_sp b); simpl; [|reflexivity].
    rewrite star_match_end. reflexivity.
Qed.

(** *** [re.sub] where nothing matches *)

Lemma sub_scan_no_match r repl s :
  (forall i, match_at r (skipn i s) = None) ->
  sub_scan r repl 0 s = s.
Proof.
  induction s as [|c s IH]; intros H; simpl.
  - now rewrite (H 0 : match_at r [] = None).
  - rewrite (H 0 : match_at r (c :: s) = None). f_equal.
    apply IH. intros i. apply (H (S i)).
Qed.

(** A pattern that can only start on a character of [first] leaves a text
    without such characters as it is. *)
Lemma sub_first_char r repl (first : ascii -> bool) s :
  match_at r [] = None ->
  (forall c s', first c = false -> match_at r (c :: s') = None) ->
  Forall (fun c => first c = false) s ->
  sub r repl s = s.
Proof.
  intros Hnil Hfirst Hs. apply sub_scan_no_match.
  intros i. destruct (skipn i s) as [|c t] eqn:E; [exact Hnil|].
  apply Hfirst. rewrite Forall_forall in Hs. apply Hs.
  assert (In c (skipn i s)) as Hin by (rewrite E; left; reflexivity).
  revert Hin. clear. revert s.
  induction i as [|i IH]; intros [|y s]; simpl; auto.
Qed.

(** *** [re.sub] of a class and of runs of a class *)

Lemma sub_chr p x s :
  sub (Chr p) [x] s = map (fun c => if p c then x else c) s.
Proof.
  unfold sub. induction s as [|c s IH]; [reflexivity|].
  simpl sub_scan. rewrite match_at_chr. simpl map.
  destruct (p c); simpl; rewrite IH; reflexivity.
Qed.

Lemma sub_scan_plus p x s :
  sub_scan (plus p) [x] (run p s) s = collapse p x true s
  /\ sub_scan (plus p) [x] 0 s = collapse p x false s.
Proof.
  induction s as [|c s [IH1 IH0]]; [split; reflexivity|].
  split.
  - simpl run. simpl collapse. destruct (p c) eqn:Hc.
    + simpl. exact IH1.
    + simpl sub_scan. rewrite match_at_plus, Hc. now rewrite IH0.
  - simpl sub_scan. rewrite match_at_plus. simpl collapse.
    destruct (p c); simpl; [rewrite IH1 | rewrite IH0]; reflexivity.
Qed.

Lemma sub_plus p x s : sub (plus p) [x] s = collapse p x false s.
Proof. apply sub_scan_plus. Qed.

Lemma collapse_not_in_run p x s :
  run p s = 0 -> collapse p x true s = collapse p x false s.
Proof.
  destruct s as [|c s]; simpl; [reflexivity|].
  destruct (p c); [discriminate | reflexivity].
Qed.

Lemma sub_scan_spaces s :
  sub_scan spaces_re [" "%char] (run is_sp s) s = collapse is_sp " " true s
  /\ sub_scan spaces_re [" "%char] 0 s = collapse is_sp " " false s.
Proof.
  induction s as [|c s [IH1 IH0]]; [split; reflexivity|].
  assert (sub_scan spaces_re [" "%char] 0 (c :: s)
          = collapse is_sp " " false (c :: s)) as H0.
  { simpl sub_scan. rewrite match_at_spaces. simpl collapse.
    destruct (is_sp c) eqn:Hc; simpl.
    - destruct s as [|b s]; [now rewrite (is_sp_eq _ Hc)|].
      destruct (is_sp b) eqn:Hb.
      + simpl. f_equal. simpl run in IH1. rewrite Hb in IH1. exact IH1.
      + rewrite (is_sp_eq _ Hc). f_equal. rewrite IH0.
        symmetry. apply collapse_not_in_run. simpl. now rewrite Hb.
    - destruct s as [|b s]; now rewrite IH0. }
  split; [|exact H0].
  simpl run. destruct (is_sp c) eqn:Hc.
  - simpl. rewrite Hc. exact IH1.
  - rewrite H0. simpl. now rewrite Hc.
Qed.

Lemma sub_spaces s :
  sub spaces_re [" "%char] s = collapse is_sp " " false s.
Proof. apply sub_scan_spaces. Qed.

(** *** Collapsing runs *)

Lemma collapse_Forall (Q Q' : ascii -> Prop) p x b s :
  Q' x ->
  (forall c, Q c -> p c = false -> Q' c) ->
  Forall Q s -> Forall Q' (collapse p x b s).
Proof.
  intros Hx Hkeep Hs. revert b.
  induction Hs as [|c s Hc Hs IH]; intros b; simpl; [constructor|].
  destruct (p c) eqn:E.
  - destruct b; [apply IH | constructor; [exact Hx | apply IH]].
  - constructor; [apply Hkeep; assumption | apply IH].
Qed.

Lemma no_adjacent_cons p c s :
  no_adjacent p (c :: s)
  = match s with
    | [] => true
    | d :: _ => negb (p c && p d) && no_adjacent p s
    end.
Proof. reflexivity. Qed.

Lemma no_adjacent_cons_out p c s :
  p c = false -> no_adjacent p (c :: s) = no_adjacent p s.
Proof.
  intros Hc. rewrite no_adjacent_cons. destruct s as [|d s]; [reflexivity|].
  now rewrite Hc.
Qed.

(** After collapsing, no two neighbours are in the class. *)
Lemma collapse_no_adjacent p x s :
  no_adjacent p (collapse p x false s) = true
  /\ no_adjacent p (x :: collapse p x true s) = true.
Proof.
  induction s as [|c s [IH0 IH1]]; [split; reflexivity|].
  assert (p c = false -> no_adjacent p (c :: collapse p x false s) = true) as Hout.
  { intros Hc. now rewrite no_adjacent_cons_out. }
  split; simpl collapse; destruct (p c) eqn:Hc; auto.
  rewrite no_adjacent_cons, Hc, andb_false_r. simpl. auto.
Qed.

(** The first character of the result is [x] or the first character of
    the text. *)
Lemma collapse_head p x s d t :
  collapse p x false s = d :: t -> d = x \/ exists s', s = d :: s'.
Proof.
  destruct s as [|c s]; simpl; [discriminate|].
  destruct (p c); intros H; injection H as <- _; eauto.
Qed.

(** Collapsing the runs of one class into a character outside another
    class brings no two characters of that class together. *)
Lemma collapse_keeps_no_adjacent q p x b s :
  q x = false ->
  no_adjacent q s = true ->
  no_adjacent q (collapse p x b s) = true.
Proof.
  intros Hx. revert b. induction s as [|c s IH]; intros b Hs; [reflexivity|].
  assert (no_adjacent q s = true) as Hs'.
  { rewrite no_adjacent_cons in Hs. destruct s; [reflexivity|].
    now apply andb_prop in Hs. }
  simpl collapse. destruct (p c) eqn:Hc.
  - destruct b; [now apply IH|].
    rewrite no_adjacent_cons_out by exact Hx. now apply IH.
  - rewrite no_adjacent_cons.
    destruct (collapse p x false s) as [|d t] eqn:E; [reflexivity|].
    rewrite <- E, IH by exact Hs'. rewrite andb_true_r.
    destruct (collapse_head _ _ _ E) as [-> | [s' ->]].
    + now rewrite Hx, andb_false_r.
    + rewrite no_adjacent_cons in Hs. now apply andb_prop in Hs.
Qed.

(** A text without neighbours in the class, whose characters of the class
    are all [x], is left as it is. *)
Lemma collapse_id p x s :
  no_adjacent p s = true ->
  Forall (fun c => p c = true -> c = x) s ->
  collapse p x false s = s.
Proof.
  induction s as [|c s IH]; intros Hadj Hx; [reflexivity|].
  inversion Hx as [|? ? Hc Hs]; subst.
  assert (no_adjacent p s = true) as Hadj'.
  { rewrite no_adjacent_cons in Hadj. destruct s; [reflexivity|].
    now apply andb_prop in Hadj. }
  simpl. destruct (p c) eqn:E.
  - rewrite (Hc eq_refl). f_equal.
    rewrite collapse_not_in_run; [now apply IH|].
    rewrite no_adjacent_cons in Hadj. destruct s as [|d s]; [reflexivity|].
    simpl. rewrite E in Hadj. simpl in Hadj.
    destruct (p d); [discriminate | reflexivity].
  - f_equal. now apply IH.
Qed.

End ReFacts.

(** ** Normalization *)

Module NormalizeFacts.
Import Py Re Scrubber Spec CharFacts ReFacts.

(** The three last passes of [normalize], as functions on the text. *)
Lemma normalize_passes t :
  normalize t
  = collapse is_sp " " false
      (collapse is_eos "." false
         (map (fun c => if negb (necessary c) then " "%char else c)
              (remove_refs (remove_citing t)))).
Proof.
  unfold normalize.
  change (str " ") with [" "%char]. change (str ".") with ["."%char].
  rewrite sub_spaces. unfold eos_re. rewrite sub_plus.
  unfold unnecessary_re. rewrite sub_chr. reflexivity.
Qed.

Lemma normalize_chars t :
  Forall (fun c => normalized_char c = true) (normalize t).
Proof.
  rewrite normalize_passes.
  apply collapse_Forall with (Q := fun c => normalized_char c = true);
    [reflexivity | auto |].
  apply collapse_Forall with (Q := fun c => necessary c || is_sp c = true);
    [reflexivity | apply necessary_or_space_kept |].
  apply Forall_forall. intros c Hc. apply in_map_iff in Hc.
  destruct Hc as (d & <- & _).
  destruct (necessary d) eqn:E; simpl; [now rewrite E | reflexivity].
Qed.

Lemma normalize_no_adjacent_eos t :
  no_adjacent is_eos (normalize t) = true.
Proof.
  rewrite normalize_passes.
  apply collapse_keeps_no_adjacent; [reflexivity|].
  apply collapse_no_adjacent.
Qed.

Lemma normalize_no_adjacent_spaces t :
  no_adjacent is_sp (normalize t) = true.
Proof. rewrite normalize_passes. apply collapse_no_adjacent. Qed.

Lemma remove_citing_no_opening s :
  Forall (fun c => Ascii.eqb "[" c || Ascii.eqb "(" c = false) s ->
  remove_citing s = s.
Proof.
  apply sub_first_char; [reflexivity|].
  intros c s' Hc. apply orb_false_elim in Hc. destruct Hc as [H1 H2].
  unfold match_at, citing_re, lit. cbn [match_k]. now rewrite H1, H2.
Qed.

Lemma remove_refs_no_opening s :
  Forall (fun c => Ascii.eqb "(" c = false) s ->
  remove_refs s = s.
Proof.
  apply sub_first_char; [reflexivity|].
  intros c s' Hc. unfold match_at, refs_re, lit. cbn [match_k]. now rewrite Hc.
Qed.

(** A text of normalized characters without two periods or two spaces in
    a row is a fixed point of [normalize]. *)
Lemma normalize_fixed s :
  Forall (fun c => normalized_char c = true) s ->
  no_adjacent is_eos s = true ->
  no_adjacent is_sp s = true ->
  normalize s = s.
Proof.
  intros Hchars Heos Hsp. rewrite normalize_passes.
  rewrite remove_citing_no_opening, remove_refs_no_opening.
  - assert (map (fun c => if negb (necessary c) then " "%char else c) s = s)
      as ->.
    { rewrite <- (map_id s) at 2. apply map_ext_in. intros c Hc.
      rewrite Forall_forall in Hchars.
      destruct (necessary c) eqn:E; simpl; [reflexivity|].
      symmetry. apply normalized_necessary_or_space; auto. }
    rewrite (collapse_id is_eos); [apply collapse_id | exact Heos |].
    + exact Hsp.
    + apply Forall_forall. intros c _. apply is_sp_eq.
    + revert Hchars. apply Forall_impl. intros c. apply normalized_eos.
  - revert Hchars. apply Forall_impl. intros c H.
    now apply normalized_not_open in H.
  - revert Hchars. apply Forall_impl. intros c H.
    apply normalized_not_open in H. destruct H as [-> ->]. reflexivity.
Qed.

(** C6: normalization is idempotent: for every text [t],
    [normalize (normalize t)] equals [normalize t]. *)
Theorem normalize_idempotent (t : pystr) :
  normalize (normalize t) = normalize t.
Proof.
  apply normalize_fixed.
  - apply normalize_chars.
  - apply normalize_no_adjacent_eos.
  - apply normalize_no_adjacent_spaces.
Qed.

(** C10: every character of the output of [normalize] is an ASCII letter,
    an ASCII digit, a comma, a period, a hyphen, a newline or a space; no
    exclamation mark, question mark, parenthesis or bracket survives. *)
Theorem normalize_alphabet (t : pystr) :
  Forall (fun c =>
            (is_lower_ascii c || is_upper_ascii c || isdigit c = true
             \/ In c [","; "."; "-"; nl; " "]%char)
            /\ ~ In c ["!"; "?"; "("; ")"; "["; "]"]%char)
         (normalize t).
Proof.
  pose proof (normalize_chars t) as H. revert H. apply Forall_impl.
  intros c H. split.
  - revert H. unfold normalized_char, one_of. simpl.
    rewrite !orb_true_iff, !Ascii.eqb_eq. unfold nl.
    intuition (subst; auto 10; discriminate).
  - apply normalized_not_punct in H. simpl. intuition congruence.
Qed.

End NormalizeFacts.

(** ** Citation markers and references *)

Module PatternFacts.
Import Py Re Scrubber Spec CharFacts ReFacts.

Lemma nth_error_head_skipn (s : pystr) n :
  nth_error s n = hd_error (skipn n s).
Proof.
  revert s. induction n as [|n IH]; intros [|c s]; simpl; auto.
Qed.

(** A match of [o \d+ c] starts on a run of digits between [o] and [c]. *)
Lemma group_match o c s k n :
  isdigit c = false ->
  match_k (Seq (lit o) (Seq (plus isdigit) (lit c))) s k = Some n ->
  digit_group_at o c s = true.
Proof.
  intros Hc. unfold lit, plus. cbn [match_k].
  destruct s as [|x s1]; [discriminate|].
  destruct (Ascii.eqb o x) eqn:Ho; [|discriminate].
  apply eqb_eq_char in Ho. subst x.
  destruct s1 as [|d s2]; [discriminate|].
  destruct (isdigit d) eqn:Hd; [|discriminate].
  intros H. rewrite star_match_max in H.
  - unfold digit_group_at. rewrite Ascii.eqb_refl. simpl run. rewrite Hd.
    simpl. rewrite nth_error_head_skipn.
    destruct (skipn (run isdigit s2) s2) as [|y t]; [discriminate|].
    simpl in H |- *. rewrite Ascii.eqb_sym.
    destruct (Ascii.eqb c y); [reflexivity | discriminate].
  - intros c0 s' H0. now rewrite (digit_not_literal _ _ Hc H0).
Qed.

Lemma match_k_alt a b s k :
  match_k (Alt a b) s k
  = match match_k a s k with
    | Some n => Some n
    | None => match_k b s k
    end.
Proof. reflexivity. Qed.

Lemma citing_match s n :
  match_at citing_re s = Some n ->
  digit_group_at "[" "]" s = true \/ digit_group_at "(" ")" s = true.
Proof.
  unfold match_at, citing_re. rewrite match_k_alt.
  destruct (match_k (Seq (lit "[") (Seq (plus isdigit) (lit "]"))) s
              (fun _ => Some 0)) eqn:E.
  - intros _. left. now apply group_match in E.
  - intros H. right. now apply group_match in H.
Qed.

Lemma has_digit_group_skipn o c s i :
  has_digit_group o c s = false -> digit_group_at o c (skipn i s) = false.
Proof.
  revert s. induction i as [|i IH]; intros [|x s] H; simpl in *;
    try reflexivity.
  - now apply orb_false_elim in H.
  - apply orb_false_elim in H. destruct H as [_ H].
    now apply IH.
Qed.

Lemma remove_citing_identity s :
  has_digit_group "[" "]" s = false ->
  has_digit_group "(" ")" s = false ->
  remove_citing s = s.
Proof.
  intros Hb Hp. apply sub_scan_no_match. intros i.
  destruct (match_at citing_re (skipn i s)) as [n|] eqn:E; [|reflexivity].
  apply citing_match in E.
  rewrite (has_digit_group_skipn _ _ _ i Hb) in E.
  rewrite (has_digit_group_skipn _ _ _ i Hp) in E.
  destruct E; discriminate.
Qed.

(** *** References *)

Lemma option_map_some {A B} (f : A -> B) o b :
  option_map f o = Some b -> exists a, o = Some a.
Proof. destruct o as [a|]; [eauto | discriminate]. Qed.

(** What a match of one character of a class tells. *)
Lemma chr_some (p : ascii -> bool) (k : pystr -> option nat) s n :
  match s with
  | [] => None
  | c :: s' => if p c then option_map S (k s') else None
  end = Some n ->
  exists c s' m, s = c :: s' /\ p c = true /\ k s' = Some m.
Proof.
  destruct s as [|c s']; [discriminate|].
  destruct (p c) eqn:Hc; [|discriminate].
  intros H. apply option_map_some in H. destruct H as [m H].
  exists c, s', m. auto.
Qed.


Lemma run_dot_cons c s j :
  S j <= run dot (c :: s) -> Ascii.eqb c nl = false /\ j <= run dot s.
Proof.
  cbn [run]. unfold dot at 1.
  destruct (Ascii.eqb c nl); cbn [negb]; intros H; [lia | split; [reflexivity | lia]].
Qed.

Lemma closes_inside j s t :
  j <= run dot s -> skipn j s = ")"%char :: t -> closes s = true.
Proof.
  revert s. induction j as [|j IH]; intros s Hj E.
  - simpl in E. subst s. reflexivity.
  - destruct s as [|c s]; [discriminate|].
    apply run_dot_cons in Hj. destruct Hj as [Hc Hj].
    cbn [closes]. rewrite Hc.
    destruct (Ascii.eqb c ")"); [reflexivity|].
    now apply IH.
Qed.

Lemma comma_inside j s t :
  j <= run dot s -> skipn j s = ","%char :: t -> year_then_close t = true ->
  comma_year_close s = true.
Proof.
  revert s. induction j as [|j IH]; intros s Hj E Ht.
  - simpl in E. subst s. cbn [comma_year_close]. now rewrite Ht.
  - destruct s as [|c s]; [discriminate|].
    apply run_dot_cons in Hj. destruct Hj as [Hc Hj].
    cbn [comma_year_close]. rewrite Hc, (IH s); [|exact Hj | exact E | exact Ht].
    now rewrite orb_true_r.
Qed.

(** A match of the pattern of references starts on a parenthetical run
    with a comma, a year and a closing parenthesis. *)
Lemma refs_match s n :
  match_at refs_re s = Some n -> reference_at s = true.
Proof.
  unfold match_at, refs_re, lit. cbn [match_k]. intros H.
  apply chr_some in H. destruct H as (x & s1 & m & -> & Hx & H).
  apply eqb_eq_char in Hx. subst x. cbn [reference_at].
  rewrite Ascii.eqb_refl. cbn [andb].
  apply star_match_some in H. destruct H as (j & m1 & Hj & H).
  apply chr_some in H. destruct H as (y & t1 & m2 & Ej & Hy & H).
  apply eqb_eq_char in Hy. subst y.
  apply comma_inside with (j := j) (t := t1); [exact Hj | exact Ej |].
  rewrite star_match_max in H.
  - apply option_map_some in H. destruct H as (m3 & H).
    apply chr_some in H. destruct H as (d1 & r1 & n1 & E1 & Hd1 & H).
    apply chr_some in H. destruct H as (d2 & r2 & n2 & -> & Hd2 & H).
    apply chr_some in H. destruct H as (d3 & r3 & n3 & -> & Hd3 & H).
    apply chr_some in H. destruct H as (d4 & rest & n4 & -> & Hd4 & H).
    apply star_match_some in H. destruct H as (j' & m4 & Hj' & H).
    apply chr_some in H. destruct H as (z & t2 & n5 & Ez & Hz & _).
    apply eqb_eq_char in Hz. subst z.
    unfold year_then_close. rewrite E1, Hd1, Hd2, Hd3, Hd4. cbn [andb].
    apply closes_inside with (j := j') (t := t2); [exact Hj' | exact Ez].
  - intros c s' Hc. now rewrite (digit_not_space _ Hc).
Qed.

Lemma has_reference_skipn s i :
  has_reference s = false -> reference_at (skipn i s) = false.
Proof.
  revert s. induction i as [|i IH]; intros [|x s] H; simpl in *;
    try reflexivity.
  - now apply orb_false_elim in H.
  - apply orb_false_elim in H. destruct H as [_ H].
    now apply IH.
Qed.

Lemma remove_refs_identity s :
  has_reference s = false -> remove_refs s = s.
Proof.
  intros H. apply sub_scan_no_match. intros i.
  destruct (match_at refs_re (skipn i s)) as [n|] eqn:E; [|reflexivity].
  apply refs_match in E. now rewrite (has_reference_skipn _ i H) in E.
Qed.

(** C9, amended: on a text without a bracketed and without a
    parenthesized run of digits [remove_citing] returns the text
    unchanged; [remove_refs] returns it unchanged when, besides, no
    parenthetical run of the text holds a comma followed by a four-digit
    year before a closing parenthesis. *)
Theorem strip_identity (text : pystr) :
  has_digit_group "[" "]" text = false ->
  has_digit_group "(" ")" text = false ->
  remove_citing text = text
  /\ (has_reference text = false -> remove_refs text = text).
Proof.
  intros Hb Hp. split.
  - now apply remove_citing_identity.
  - apply remove_refs_identity.
Qed.

Lemma strip_identity_witness :
  let text := str "Growth (see Fig. 2a) of [ab] cells, in 2019." in
  has_digit_group "[" "]" text = false
  /\ has_digit_group "(" ")" text = false
  /\ remove_citing text = text
  /\ (has_reference text = false -> remove_refs text = text).
Proof.
  cbv zeta. split; [reflexivity|]. split; [reflexivity|].
  exact (strip_identity (str "Growth (see Fig. 2a) of [ab] cells, in 2019.")
           eq_refl eq_refl).
Defined.

(** C9 fails as stated: a reference holds no bracketed and no
    parenthesized run of digits, and [remove_refs] replaces it. *)
Lemma reference_without_digit_group :
  let text := str "(Smith, 2019)" in
  has_digit_group "[" "]" text = false
  /\ has_digit_group "(" ")" text = false
  /\ remove_refs text = str " "
  /\ remove_refs text <> text.
Proof.
  cbv zeta. split; [reflexivity|]. split; [reflexivity|].
  split; [reflexivity|]. vm_compute. discriminate.
Qed.

End PatternFacts.

(** ** Searching a marker *)

Module FindFacts.
Import Py Re Scrubber Spec.

Lemma starts_with_firstn (m s : pystr) :
  starts_with m s = true <-> firstn (List.length m) s = m.
Proof.
  revert s. induction m as [|a m IH]; intros s; simpl.
  - split; reflexivity.
  - destruct s as [|b s]; simpl.
    + split; discriminate.
    + rewrite andb_true_iff, Ascii.eqb_eq, IH. split.
      * intros [-> ->]. reflexivity.
      * intros H. injection H as -> H. auto.
Qed.

Lemma lower_length (t : pystr) : List.length (lower t) = List.length t.
Proof. apply length_map. Qed.

Lemma lower_window n i (t : pystr) :
  lower (firstn n (skipn i t)) = firstn n (skipn i (lower t)).
Proof. unfold lower. now rewrite skipn_map, firstn_map. Qed.

(** An occurrence of a lowercase marker, in terms of the lowered text. *)
Lemma occurs_at_lowered (m t : pystr) i :
  lower m = m ->
  occurs_at m t i
  <-> i <= List.length t /\ starts_with m (skipn i (lower t)) = true.
Proof.
  intros Hm. unfold occurs_at. rewrite lower_window, Hm, starts_with_firstn.
  split; intros [Hi H]; (split; [|exact H]); [lia|].
  apply (f_equal (@List.length ascii)) in H.
  rewrite length_firstn, length_skipn, lower_length in H. lia.
Qed.

Lemma find_first_some sub (s : pystr) i :
  find_first sub s = Some i ->
  i <= List.length s
  /\ starts_with sub (skipn i s) = true
  /\ forall j, j < i -> starts_with sub (skipn j s) = false.
Proof.
  revert i. induction s as [|c s IH]; intros i; cbn [find_first].
  - destruct (starts_with sub []) eqn:E; [|discriminate].
    intros H. injection H as <-. repeat split; auto. intros j Hj. lia.
  - destruct (starts_with sub (c :: s)) eqn:E.
    + intros H. injection H as <-. repeat split; auto; [simpl; lia|].
      intros j Hj. lia.
    + destruct (find_first sub s) as [i'|]; [|discriminate].
      intros H. injection H as <-.
      destruct (IH _ eq_refl) as (Hi & Hs & Hmin).
      repeat split; [simpl; lia | exact Hs |].
      intros [|j] Hj; [exact E | apply Hmin; lia].
Qed.

Lemma find_first_none sub (s : pystr) :
  find_first sub s = None -> forall j, starts_with sub (skipn j s) = false.
Proof.
  induction s as [|c s IH]; cbn [find_first].
  - destruct (starts_with sub []) eqn:E; [discriminate|].
    intros _ [|j]; exact E.
  - destruct (starts_with sub (c :: s)) eqn:E; [discriminate|].
    destruct (find_first sub s) as [i'|]; [discriminate|].
    intros _ [|j]; [exact E | apply IH; reflexivity].
Qed.

Lemma marker_position_value (text marker : pystr) :
  (find (lower text) marker
   + (len text + 1) * Z.b2z (find (lower text) marker =? -1))%Z
  = Z.of_nat (marker_position text marker).
Proof.
  unfold find, marker_position, len.
  destruct (find_first marker (lower text)) as [i|]; cbn [index_or_minus_one].
  - replace (Z.of_nat i =? -1)%Z with false by (symmetry; apply Z.eqb_neq; lia).
    cbn [Z.b2z]. lia.
  - rewrite Z.eqb_refl. cbn [Z.b2z]. lia.
Qed.

Lemma marker_position_bound (text marker : pystr) :
  marker_position text marker <= List.length text.
Proof.
  unfold marker_position.
  destruct (find_first marker (lower text)) as [i|] eqn:E; [|lia].
  apply find_first_some in E. rewrite lower_length in E. lia.
Qed.

Lemma marker_position_first (text marker : pystr) i :
  lower marker = marker ->
  occurs_at marker text i ->
  first_occurrence marker text (marker_position text marker).
Proof.
  intros Hm Hocc. unfold marker_position.
  apply (occurs_at_lowered _ _ Hm) in Hocc. destruct Hocc as [_ Hocc].
  destruct (find_first marker (lower text)) as [i0|] eqn:E.
  - apply find_first_some in E. destruct E as (Hi & Hs & Hmin).
    rewrite lower_length in Hi. split.
    + apply (occurs_at_lowered _ _ Hm). auto.
    + intros j Hj Hocc'. apply (occurs_at_lowered _ _ Hm) in Hocc'.
      rewrite (Hmin j Hj) in Hocc'. destruct Hocc'. discriminate.
  - rewrite (find_first_none _ _ E) in Hocc. discriminate.
Qed.

Lemma marker_position_absent (text marker : pystr) :
  lower marker = marker ->
  ~ occurs marker text ->
  marker_position text marker = List.length text.
Proof.
  intros Hm Hno. unfold marker_position.
  destruct (find_first marker (lower text)) as [i0|] eqn:E; [|reflexivity].
  exfalso. apply Hno. exists i0. apply (occurs_at_lowered _ _ Hm).
  apply find_first_some in E. rewrite lower_length in E. tauto.
Qed.

Lemma marker_position_le (text marker : pystr) i :
  lower marker = marker ->
  occurs_at marker text i ->
  marker_position text marker <= i.
Proof.
  intros Hm Hocc.
  destruct (marker_position_first Hm Hocc) as [_ Hmin].
  destruct (le_lt_dec (marker_position text marker) i) as [H|H]; [exact H|].
  destruct (Hmin i H Hocc).
Qed.

(** *** The minimum of a list *)

Lemma fold_min_spec (l : list Z) (x : Z) :
  In (fold_left Z.min l x) (x :: l)
  /\ forall y, In y (x :: l) -> (fold_left Z.min l x <= y)%Z.
Proof.
  revert x. induction l as [|a l IH]; intros x; simpl.
  - split; [auto|]. intros y [<-|[]]. lia.
  - destruct (IH (Z.min x a)) as [Hin Hle]. split.
    + destruct Hin as [Hin|Hin]; [|auto].
      rewrite <- Hin. destruct (Z.min_spec x a) as [[_ ->]|[_ ->]]; auto.
    + intros y Hy.
      assert (fold_left Z.min l (Z.min x a) <= Z.min x a)%Z as H0
          by (apply Hle; left; reflexivity).
      destruct Hy as [<-|[<-|Hy]]; [lia | lia |].
      apply Hle. right. exact Hy.
Qed.

Lemma slice_to_inside (text : pystr) k :
  k <= List.length text -> slice_to text (Z.of_nat k) = firstn k text.
Proof.
  intros Hk. unfold slice_to, slice_bound, len.
  replace (Z.of_nat k <? 0)%Z with false by (symmetry; apply Z.ltb_ge; lia).
  rewrite Z.min_l by lia. now rewrite Nat2Z.id.
Qed.

(** The back cut is at the least marker position. *)
Lemma cut_tail_position (text : pystr) (stopstrings : list pystr) :
  stopstrings <> [] ->
  exists k,
    cut_tail text stopstrings = Ok (firstn k text)
    /\ In k (map (marker_position text) stopstrings)
    /\ forall m, In m stopstrings -> k <= marker_position text m.
Proof.
  intros Hne. unfold cut_tail.
  rewrite (map_ext _ (fun m => Z.of_nat (marker_position text m)))
    by (intros m; apply marker_position_value).
  destruct stopstrings as [|m0 ms]; [contradiction|].
  cbn [map py_min bind].
  destruct (fold_min_spec (map (fun m => Z.of_nat (marker_position text m)) ms)
              (Z.of_nat (marker_position text m0))) as [Hin Hle].
  change (Z.of_nat (marker_position text m0)
          :: map (fun m => Z.of_nat (marker_position text m)) ms)
    with (map (fun m => Z.of_nat (marker_position text m)) (m0 :: ms))
    in Hin, Hle.
  apply in_map_iff in Hin. destruct Hin as (m & Hm & Hin).
  exists (marker_position text m). rewrite <- Hm. split; [|split].
  - rewrite slice_to_inside; [reflexivity | apply marker_position_bound].
  - apply (in_map (marker_position text) (m0 :: ms) m). exact Hin.
  - intros m' Hm'. apply Nat2Z.inj_le. rewrite Hm. apply Hle.
    apply (in_map (fun m => Z.of_nat (marker_position text m))). exact Hm'.
Qed.

(** The back cut for lowercase markers, in the words of the
    specification. *)
Lemma cut_tail_general (text : pystr) (stopstrings : list pystr) :
  stopstrings <> [] ->
  Forall (fun m => lower m = m) stopstrings ->
  exists k,
    cut_tail text stopstrings = Ok (firstn k text)
    /\ (forall m i, In m stopstrings -> occurs_at m text i -> k <= i)
    /\ ((exists m, In m stopstrings /\ first_occurrence m text k)
        \/ ((forall m, In m stopstrings -> ~ occurs m text)
            /\ k = List.length text
            /\ cut_tail text stopstrings = Ok text)).
Proof.
  intros Hne Hlow. rewrite Forall_forall in Hlow.
  destruct (cut_tail_position text Hne) as (k & Hcut & Hin & Hmin).
  exists k. split; [exact Hcut|]. split.
  - intros m i Hm Hocc. specialize (Hmin m Hm).
    pose proof (marker_position_le (Hlow m Hm) Hocc). lia.
  - apply in_map_iff in Hin. destruct Hin as (m & Hk & Hm).
    destruct (find_first m (lower text)) as [i0|] eqn:E.
    + left. exists m. split; [exact Hm|]. rewrite <- Hk.
      apply marker_position_first with (i := i0); [now apply Hlow|].
      apply occurs_at_lowered; [now apply Hlow|].
      apply find_first_some in E. rewrite lower_length in E. tauto.
    + assert (k = List.length text) as Hlen
          by (rewrite <- Hk; unfold marker_position; now rewrite E).
      destruct (existsb (fun m' => match find_first m' (lower text) with
                                   | Some _ => true
                                   | None => false
                                   end) stopstrings) eqn:Ex.
      * left. apply existsb_exists in Ex. destruct Ex as (m' & Hm' & Ex).
        destruct (find_first m' (lower text)) as [i1|] eqn:E1; [|discriminate].
        exists m'. split; [exact Hm'|].
        assert (occurs_at m' text i1) as Hocc.
        { apply occurs_at_lowered; [now apply Hlow|].
          apply find_first_some in E1. rewrite lower_length in E1. tauto. }
        pose proof (marker_position_first (Hlow m' Hm') Hocc) as Hfirst.
        pose proof (Hmin m' Hm') as H1.
        pose proof (marker_position_bound text m') as H2.
        replace k with (marker_position text m') by lia. exact Hfirst.
      * right. split; [|split; [exact Hlen|]].
        -- intros m' Hm' [i Hocc].
           apply (occurs_at_lowered _ _ (Hlow m' Hm')) in Hocc.
           destruct Hocc as [_ Hocc].
           destruct (find_first m' (lower text)) as [i1|] eqn:E1.
           ++ assert (existsb (fun m' => match find_first m' (lower text) with
                                         | Some _ => true
                                         | None => false
                                         end) stopstrings = true) as Ht.
              { apply existsb_exists. exists m'. now rewrite E1. }
              congruence.
           ++ rewrite (find_first_none _ _ E1) in Hocc. discriminate.
        -- rewrite Hcut, Hlen. now rewrite firstn_all.
Qed.

(** The back cut of a text of code points below 256, with the configured
    body stopstrings: the prefix of the text that ends at the least start
    of a first occurrence (letter case ignored) among the markers that
    occur, and the whole text when no marker occurs. *)
Lemma cut_tail_spec (text : pystr) :
  exists k,
    cut_tail text _stopstrings_body = Ok (firstn k text)
    /\ (forall m i, In m _stopstrings_body -> occurs_at m text i -> k <= i)
    /\ ((exists m, In m _stopstrings_body /\ first_occurrence m text k)
        \/ ((forall m, In m _stopstrings_body -> ~ occurs m text)
            /\ k = List.length text
            /\ cut_tail text _stopstrings_body = Ok text)).
Proof.
  apply cut_tail_general; [discriminate|].
  repeat constructor.
Qed.

End FindFacts.

(** ** Splitting a document and scrubbing it *)

Module ScrubFacts.
Import Py Re Scrubber Spec FindFacts.

(** [str.split] gives one section more than [str.count] counts
    separators. *)
Lemma split_scan_length sep skip cur (s : pystr) :
  List.length (split_scan sep skip cur s) = S (count_scan sep skip s).
Proof.
  revert skip cur. induction s as [|c s IH]; intros skip cur; [reflexivity|].
  cbn [split_scan count_scan]. destruct skip as [|n]; [|apply IH].
  destruct (starts_with sep (c :: s)); [cbn [List.length]; f_equal|]; apply IH.
Qed.

Lemma preprocess_front (text : pystr) :
  preprocess text (str "front")
  = (processed_text <- cut_head text _stopstrings_front ;;
     Ok (normalize processed_text)).
Proof. reflexivity. Qed.

Lemma preprocess_body (text : pystr) :
  preprocess text (str "body")
  = (processed_text <- cut_tail text _stopstrings_body ;;
     Ok (normalize processed_text)).
Proof. reflexivity. Qed.

Lemma front_body_sections (text : pystr) :
  front_body text
  = match sections text with
    | _ :: front :: body :: _ => (front, body)
    | _ => ([], text)
    end.
Proof.
  unfold front_body, sections, split, _separator. cbn [str list_ascii_of_string bind].
  destruct (split_scan _ 0 [] text) as [|p0 [|p1 [|p2 rest]]]; reflexivity.
Qed.

(** C5, amended: the front/body structure is recognized exactly when the
    separator occurs at least twice, that is when the split yields at
    least three sections; then front and body are sections 1 and 2.  With
    fewer than two separators front is empty and body is the whole
    text. *)
Theorem front_body_spec (text : pystr) :
  List.length (sections text) = S (count text _separator)
  /\ front_body text
     = if 2 <=? count text _separator
       then (nth 1 (sections text) [], nth 2 (sections text) [])
       else ([], text).
Proof.
  pose proof (split_scan_length _separator 0 [] text) as Hlen.
  fold (sections text) in Hlen. fold (count text _separator) in Hlen.
  split; [exact Hlen|]. rewrite front_body_sections.
  destruct (sections text) as [|p0 [|p1 [|p2 rest]]]; cbn [List.length] in Hlen.
  - discriminate.
  - injection Hlen as <-. reflexivity.
  - injection Hlen as <-. reflexivity.
  - injection Hlen as <-. reflexivity.
Qed.

(** C5 fails as stated: a document with two separators has fewer than
    three of them, and yet its sections 1 and 2 are taken as front and
    body. *)
Lemma two_separators_are_enough :
  let document := str "a====b====c" in
  count document _separator = 2
  /\ front_body document = (str "b", str "c")
  /\ front_body document <> ([], document).
Proof.
  cbv zeta. split; [reflexivity|]. split; [reflexivity|].
  vm_compute. discriminate.
Qed.

(** C2, amended: when the split yields fewer than three sections, front is
    empty and body is the whole text; the body still goes through the
    back cut on the body stopstrings, and the output is one newline
    followed by the normalized result of that cut.  When no body
    stopstring occurs in the text, the output is one newline followed by
    the normalized text. *)
Theorem scrub_without_structure (text : pystr) :
  List.length (sections text) < 3 ->
  front_body text = ([], text)
  /\ exists body,
       cut_tail text _stopstrings_body = Ok body
       /\ scrub_text text = Ok (nl :: normalize body)
       /\ ((forall m, In m _stopstrings_body -> ~ occurs m text) ->
           body = text /\ scrub_text text = Ok (nl :: normalize text)).
Proof.
  intros Hlen.
  assert (front_body text = ([], text)) as Hfb.
  { rewrite front_body_sections.
    destruct (sections text) as [|p0 [|p1 [|p2 rest]]]; try reflexivity.
    cbn [List.length] in Hlen. lia. }
  split; [exact Hfb|].
  destruct (cut_tail_spec text) as (k & Hcut & _ & Hk).
  exists (firstn k text). split; [exact Hcut|].
  assert (scrub_text text = Ok (nl :: normalize (firstn k text))) as Hscrub.
  { unfold scrub_text. rewrite Hfb, preprocess_body, Hcut. reflexivity. }
  split; [exact Hscrub|].
  intros Hno. destruct Hk as [(m & Hm & Hocc & _) | (_ & -> & _)].
  - exfalso. apply (Hno m Hm). now exists k.
  - rewrite firstn_all in Hscrub |- *. auto.
Qed.

Lemma scrub_without_structure_witness :
  let document := str "No structure. Thanks!" in
  List.length (sections document) < 3
  /\ front_body document = ([], document)
  /\ exists body,
       cut_tail document _stopstrings_body = Ok body
       /\ scrub_text document = Ok (nl :: normalize body)
       /\ ((forall m, In m _stopstrings_body -> ~ occurs m document) ->
           body = document
           /\ scrub_text document = Ok (nl :: normalize document)).
Proof.
  cbv zeta.
  assert (List.length (sections (str "No structure. Thanks!")) < 3) as H
      by (vm_compute; lia).
  split; [exact H | exact (scrub_without_structure _ H)].
Defined.

(** C2 fails as stated: the body of a document without structure is cut
    at a body stopstring before it is normalized. *)
Lemma fallback_body_is_cut :
  let document := str "Intro. Acknowledgements: thanks." in
  List.length (sections document) < 3
  /\ scrub_text document = Ok (nl :: str "Intro. ")
  /\ scrub_text document <> Ok (nl :: normalize document).
Proof.
  cbv zeta. split; [vm_compute; lia|]. split; [reflexivity|].
  vm_compute. discriminate.
Qed.

(** C1 fails on the code: when the cut index is positive and at or beyond
    [len(text) - 1], the boundary cleanup of [cut_head] reads
    [text[start_idx + 1]] past the end of the text and [cut_head] raises
    [IndexError] instead of returning a result. *)
Theorem cut_head_reads_past_end (text : pystr) (stopstrings : list pystr)
  (start_idx : Z) :
  front_cut_index text stopstrings = Ok start_idx ->
  (0 < start_idx)%Z ->
  (len text - 1 <= start_idx)%Z ->
  cut_head text stopstrings = Raise IndexError.
Proof.
  unfold front_cut_index, cut_head. intros -> Hpos Hend. cbn [bind].
  replace (start_idx >? 0)%Z with true by (symmetry; apply Z.gtb_lt; lia).
  unfold getitem at 1.
  replace (start_idx + 1 <? 0)%Z with false by (symmetry; apply Z.ltb_ge; lia).
  replace (start_idx + 1 <? 0)%Z with false by (symmetry; apply Z.ltb_ge; lia).
  assert (nth_error text (Z.to_nat (start_idx + 1)) = None) as ->.
  { apply nth_error_None. unfold len in Hend. lia. }
  reflexivity.
Qed.

Lemma cut_head_reads_past_end_witness :
  front_cut_index (str "cited") _stopstrings_front = Ok 5%Z
  /\ (0 < 5)%Z
  /\ (len (str "cited") - 1 <= 5)%Z
  /\ cut_head (str "cited") _stopstrings_front = Raise IndexError.
Proof.
  assert (front_cut_index (str "cited") _stopstrings_front = Ok 5%Z) as H1
      by reflexivity.
  assert (0 < 5)%Z as H2 by lia.
  assert (len (str "cited") - 1 <= 5)%Z as H3 by (vm_compute; discriminate).
  split; [exact H1|]. split; [exact H2|]. split; [exact H3|].
  exact (cut_head_reads_past_end _ _ H1 H2 H3).
Defined.

(** A document whose front section ends on a stopstring cannot be
    scrubbed. *)
Lemma scrub_raises_on_front_ending_in_marker :
  scrub_text (str "====Licensed and credited====Body.====") = Raise IndexError.
Proof. reflexivity. Qed.

(** C3, amended: on the example document the front is cut at the last
    front stopstring and keeps a segment that ends with the title and the
    newline before the separator, with at most one character of the
    boundary before the title; the body is cut at its stopstring, keeps
    its section label, and its citation and reference leave one space
    before the period. *)
Theorem example_document_output :
  front_body example_document = (example_front, example_body)
  /\ cut_tail example_body _stopstrings_body
     = Ok (str " body" ++ [nl] ++ str "Results [1] show growth (Doe, 2021). ")
  /\ normalize (str " body" ++ [nl]
                ++ str "Results [1] show growth (Doe, 2021). ")
     = str " body" ++ [nl] ++ str "Results show growth . "
  /\ exists lead,
       List.length lead <= 1
       /\ cut_head example_front _stopstrings_front
          = Ok (lead ++ str "Title Here." ++ [nl])
       /\ scrub_text example_document
          = Ok (lead ++ str "Title Here." ++ [nl] ++ [nl]
                ++ str " body" ++ [nl] ++ str "Results show growth . ").
Proof.
  split; [reflexivity|]. split; [reflexivity|]. split; [reflexivity|].
  exists [nl]. split; [simpl; lia|]. split; reflexivity.
Qed.

(** C3 fails as stated: the output on the example document is not
    ["Title Here.\nResults show growth."]. *)
Lemma example_document_differs :
  scrub_text example_document
  = Ok ([nl] ++ str "Title Here." ++ [nl] ++ [nl]
        ++ str " body" ++ [nl] ++ str "Results show growth . ")
  /\ scrub_text example_document
     <> Ok (str "Title Here." ++ [nl] ++ str "Results show growth.").
Proof. split; [reflexivity | vm_compute; discriminate]. Qed.

End ScrubFacts.

(** ** The batch driver *)

Module BatchFacts.
Import Py Re Scrubber Batch Spec ScrubFacts.

Section WithOS.

Context {World : Type} {os : OS World}.

(** Two loops over the same list that keep a relation between their
    states, leave the same file system and raise together. *)
Lemma for_each_related {A S1 S2} (R : S1 -> S2 -> Prop)
  (f : A -> S1 -> io World S1) (g : A -> S2 -> io World S2) (xs : list A) :
  (forall x s1 s2 w, R s1 s2 ->
     match g x s2 w with
     | (Ok s2', w') => exists s1', f x s1 w = (Ok s1', w') /\ R s1' s2'
     | (Raise e, w') => f x s1 w = (Raise e, w')
     end) ->
  forall s1 s2 w, R s1 s2 ->
    match for_each xs g s2 w with
    | (Ok s2', w') => exists s1', for_each xs f s1 w = (Ok s1', w') /\ R s1' s2'
    | (Raise e, w') => for_each xs f s1 w = (Raise e, w')
    end.
Proof.
  intros Hstep. induction xs as [|x xs IH]; intros s1 s2 w HR.
  - simpl. unfold ret. eauto.
  - cbn [for_each]. unfold iobind.
    specialize (Hstep x s1 s2 w HR).
    destruct (g x s2 w) as [[s2'|e] w'].
    + destruct Hstep as (s1' & -> & HR'). apply IH, HR'.
    + now rewrite Hstep.
Qed.

Lemma counts_print l t seen : counts t seen -> counts (print l t) seen.
Proof. exact (fun H => H). Qed.

Lemma counts_scrubbed t seen :
  counts t seen -> counts (scrubbed t) (seen ++ [true]).
Proof.
  intros [H1 H2]. split; rewrite count_occ_app; simpl; lia.
Qed.

Lemma counts_failed t seen :
  counts t seen -> counts (failed t) (seen ++ [false]).
Proof.
  intros [H1 H2]. split; rewrite count_occ_app; simpl; lia.
Qed.

(** The [try] block turns the outcome of the scrub into a counter. *)
Lemma try_scrub_outcome path output_path t seen w :
  counts t seen ->
  exists b t' w',
    attempt (call path (Some output_path)) w = (Ok b, w')
    /\ try_scrub path output_path t w = (Ok t', w')
    /\ counts t' (seen ++ [b]).
Proof.
  intros HR. unfold try_scrub, try_catch, attempt, iobind.
  destruct (call path (Some output_path) w) as [[[]|e] w'].
  - exists true. eexists. exists w'. split; [reflexivity|].
    split; [reflexivity|]. now apply counts_scrubbed, counts_print.
  - exists false. eexists. exists w'. split; [reflexivity|].
    split; [reflexivity|]. now apply counts_failed, counts_print.
Qed.

Lemma scrub_entry_outcome output_path folder filename t seen w :
  counts t seen ->
  match entry_outcome output_path folder filename seen w with
  | (Ok seen', w') =>
      exists t', scrub_entry output_path folder filename t w = (Ok t', w')
                 /\ counts t' seen'
  | (Raise e, w') =>
      scrub_entry output_path folder filename t w = (Raise e, w')
  end.
Proof.
  intros HR. unfold entry_outcome, scrub_entry, iobind, query.
  destruct (os_path_isfile (os_path_join folder filename) w).
  - destruct (try_scrub_outcome (os_path_join folder filename) output_path w HR)
      as (b & t' & w' & -> & -> & HR').
    unfold ret. eauto.
  - unfold ret. eauto.
Qed.

Lemma scrub_folder_outcome output_path folder t seen w :
  counts t seen ->
  match folder_outcomes output_path folder seen w with
  | (Ok seen', w') =>
      exists t', scrub_folder output_path folder t w = (Ok t', w')
                 /\ counts t' seen'
  | (Raise e, w') => scrub_folder output_path folder t w = (Raise e, w')
  end.
Proof.
  intros HR. unfold folder_outcomes, scrub_folder, iobind, query_result.
  destruct (os_listdir folder w) as [filenames|e]; [|reflexivity].
  apply for_each_related with (R := counts).
  - intros x s1 s2 w0. apply scrub_entry_outcome.
  - now apply counts_print.
Qed.

(** C8: the batch driver isolates failures per file.  Whatever the
    outcomes of the scrubs of a run are, the run ends without raising and
    reports as success count the number of scrubs that returned and as
    failure count the number of scrubs that raised; a run with two scrubs
    that return and one that raises reports 2 and 1. *)
Theorem scrub_pmc_isolates_failures (pmc_folder : pystr) (w w' : World)
  (outcomes : list bool) :
  corpus_outcomes pmc_folder w = (Ok outcomes, w') ->
  exists t lines,
    scrub_pmc pmc_folder w = (Ok t, w')
    /\ nScrubbed t = count_occ bool_dec outcomes true
    /\ nFailed t = count_occ bool_dec outcomes false
    /\ printed t = lines ++ [LogScrubbed (nScrubbed t); LogFailed (nFailed t)]
    /\ (count_occ bool_dec outcomes true = 2 ->
        count_occ bool_dec outcomes false = 1 ->
        nScrubbed t = 2 /\ nFailed t = 1).
Proof.
  unfold corpus_outcomes, scrub_pmc, iobind, query_result, lift.
  destruct (os_listdir pmc_folder w) as [names|e]; [|discriminate].
  destruct (split pmc_folder os_sep) as [parts|e]; [|discriminate].
  destruct (last_item parts) as [base|e]; [|discriminate].
  set (output_path := os_path_join _ _).
  set (t0 := print LogHeader _).
  pose proof (for_each_related counts
                (scrub_folder output_path) (folder_outcomes output_path)
                (map (os_path_join pmc_folder) names)
                (fun x s1 s2 w0 => @scrub_folder_outcome output_path x s1 s2 w0)
                t0 [] w (conj eq_refl eq_refl)) as H.
  intros E. rewrite E in H. destruct H as (t & -> & Hs & Hf).
  unfold ret. eexists. exists (printed t ++ [LogFooter; LogCompleted]).
  split; [reflexivity|].
  cbn [nScrubbed nFailed printed print].
  split; [exact Hs|]. split; [exact Hf|]. split.
  - rewrite <- 4 app_assoc. reflexivity.
  - intros H2 H1. rewrite Hs, Hf. auto.
Qed.

(** The entries of a subfolder never make the loop raise. *)
Lemma scrub_entry_returns output_path folder filename t w :
  exists t' w', scrub_entry output_path folder filename t w = (Ok t', w').
Proof.
  unfold scrub_entry, try_scrub, try_catch, iobind, query, ret.
  destruct (os_path_isfile (os_path_join folder filename) w);
    [|do 2 eexists; reflexivity].
  destruct (call (os_path_join folder filename) (Some output_path) w)
    as [[[]|e] w']; do 2 eexists; reflexivity.
Qed.

Lemma scrub_entries_return output_path folder filenames t w :
  exists t' w',
    for_each filenames (scrub_entry output_path folder) t w = (Ok t', w').
Proof.
  revert t w. induction filenames as [|x xs IH]; intros t w.
  - unfold for_each, ret. do 2 eexists; reflexivity.
  - cbn [for_each]. unfold iobind.
    destruct (scrub_entry_returns output_path folder x t w) as (t1 & w1 & ->).
    apply IH.
Qed.

(** What [scrub_pmc] raises was raised by the listing of a directory. *)
Lemma scrub_folders_raise output_path folders t w e w' :
  for_each folders (scrub_folder output_path) t w = (Raise e, w') ->
  exists folder, os_listdir folder w' = Raise e.
Proof.
  revert t w. induction folders as [|x xs IH]; intros t w; [discriminate|].
  cbn [for_each]. unfold iobind at 1.
  destruct (scrub_folder output_path x t w) as [[t1|e1] w1] eqn:E.
  - apply IH.
  - intros H. injection H as -> ->. exists x.
    revert E. unfold scrub_folder, iobind, query_result.
    destruct (os_listdir x w) as [filenames|e0] eqn:El.
    + destruct (scrub_entries_return output_path x filenames
                  (print (LogStarted x) t) w) as (t2 & w2 & ->).
      discriminate.
    + intros H. injection H as -> ->. exact El.
Qed.

Lemma split_os_sep_last (path : pystr) :
  exists parts base,
    split path os_sep = Ok parts /\ last_item parts = Ok base.
Proof.
  exists (split_scan os_sep 0 [] path).
  pose proof (split_scan_length os_sep 0 [] path) as Hlen.
  unfold last_item. rewrite <- length_rev in Hlen.
  destruct (rev (split_scan os_sep 0 [] path)) as [|x xs]; [discriminate|].
  exists x. split; reflexivity.
Qed.

Lemma scrub_pmc_raises pmc_folder w e w' :
  scrub_pmc pmc_folder w = (Raise e, w') ->
  exists folder, os_listdir folder w' = Raise e.
Proof.
  unfold scrub_pmc, iobind, query_result, lift.
  destruct (os_listdir pmc_folder w) as [names|e0] eqn:El.
  - destruct (split_os_sep_last pmc_folder) as (parts & base & -> & ->).
    destruct (for_each _ _ _ w) as [[t1|e1] w1] eqn:E; [discriminate|].
    intros H. injection H as -> ->. eapply scrub_folders_raise, E.
  - intros H. injection H as -> ->. eauto.
Qed.

(** C4, amended: in a batch run the output directory is created inside
    the scrub of each article, so an error of [os.mkdir] is caught by the
    handler of that article: the article is reported and counted as
    failed and the loop goes on; the batch driver itself raises only what
    the listing of a directory raised. *)
Theorem mkdir_error_is_a_file_failure
  (pmc_folder output_path folder filename : pystr) (t : tally)
  (w w' : World) (e : exn) :
  os_path_isfile (os_path_join folder filename) w = true ->
  os_path_exists output_path w = false ->
  os_mkdir output_path w = (Raise e, w') ->
  scrub_entry output_path folder filename t w
  = (Ok (failed (print (LogError (os_path_join folder filename) e) t)), w')
  /\ forall w0 e0 w1,
       scrub_pmc pmc_folder w0 = (Raise e0, w1) ->
       exists dir, os_listdir dir w1 = Raise e0.
Proof.
  intros Hfile Hexists Hmkdir. split.
  - unfold scrub_entry, iobind, query. rewrite Hfile.
    unfold try_scrub, try_catch, iobind, call, iobind, ret, query.
    rewrite Hexists. cbn [negb]. rewrite Hmkdir. reflexivity.
  - intros w0 e0 w1. apply scrub_pmc_raises.
Qed.

End WithOS.

Lemma scrub_pmc_isolates_failures_witness :
  let w' := snd (corpus_outcomes (str "/data/pmc") example_corpus) in
  corpus_outcomes (str "/data/pmc") example_corpus
  = (Ok [true; false; true], w')
  /\ exists t,
       scrub_pmc (str "/data/pmc") example_corpus = (Ok t, w')
       /\ nScrubbed t = 2 /\ nFailed t = 1.
Proof.
  cbv zeta.
  assert (corpus_outcomes (str "/data/pmc") example_corpus
          = (Ok [true; false; true],
             snd (corpus_outcomes (str "/data/pmc") example_corpus))) as H
      by (vm_compute; reflexivity).
  split; [exact H|].
  destruct (scrub_pmc_isolates_failures _ _ H) as (t & lines & Hrun & _ & _ & _ & Hc).
  exists t. split; [exact Hrun|]. apply Hc; reflexivity.
Defined.

Lemma mkdir_error_is_a_file_failure_witness :
  let path := os_path_join (str "/ro/pmc/a") (str "1.txt") in
  let t := {| nScrubbed := 0; nFailed := 0; printed := [] |} in
  os_path_isfile path readonly_corpus = true
  /\ os_path_exists (str "/ro/pmc_preprocessed") readonly_corpus = false
  /\ os_mkdir (str "/ro/pmc_preprocessed") readonly_corpus
     = (Raise PermissionError, readonly_corpus)
  /\ scrub_entry (str "/ro/pmc_preprocessed") (str "/ro/pmc/a") (str "1.txt")
       t readonly_corpus
     = (Ok (failed (print (LogError path PermissionError) t)), readonly_corpus).
Proof.
  cbv zeta.
  assert (os_path_isfile (os_path_join (str "/ro/pmc/a") (str "1.txt"))
            readonly_corpus = true) as H1 by reflexivity.
  assert (os_path_exists (str "/ro/pmc_preprocessed") readonly_corpus = false)
    as H2 by reflexivity.
  assert (os_mkdir (str "/ro/pmc_preprocessed") readonly_corpus
          = (Raise PermissionError, readonly_corpus)) as H3 by reflexivity.
  split; [exact H1|]. split; [exact H2|]. split; [exact H3|].
  exact (proj1 (@mkdir_error_is_a_file_failure memfs memfs_os
                  (str "/ro/pmc") (str "/ro/pmc_preprocessed")
                  (str "/ro/pmc/a") (str "1.txt")
                  {| nScrubbed := 0; nFailed := 0; printed := [] |}
                  readonly_corpus readonly_corpus PermissionError
                  H1 H2 H3)).
Defined.

(** C4 fails as stated: when the output directory cannot be created, the
    batch run does not raise; the error is caught for the article and
    counted as its failure. *)
Lemma mkdir_error_does_not_propagate :
  os_mkdir (str "/ro/pmc_preprocessed") readonly_corpus
  = (Raise PermissionError, readonly_corpus)
  /\ scrub_pmc (str "/ro/pmc") readonly_corpus
     = (Ok {| nScrubbed := 0;
              nFailed := 1;
              printed :=
                [ LogHeader;
                  LogStarted (str "/ro/pmc/a");
                  LogError (str "/ro/pmc/a/1.txt") PermissionError;
                  LogFooter; LogCompleted; LogScrubbed 0; LogFailed 1 ] |},
        readonly_corpus)
  /\ forall e w, scrub_pmc (str "/ro/pmc") readonly_corpus <> (Raise e, w).
Proof.
  split; [reflexivity|].
  assert (scrub_pmc (str "/ro/pmc") readonly_corpus
     = (Ok {| nScrubbed := 0;
              nFailed := 1;
              printed :=
                [ LogHeader;
                  LogStarted (str "/ro/pmc/a");
                  LogError (str "/ro/pmc/a/1.txt") PermissionError;
                  LogFooter; LogCompleted; LogScrubbed 0; LogFailed 1 ] |},
        readonly_corpus)) as H by (vm_compute; reflexivity).
  split; [exact H|]. intros e w. rewrite H. discriminate.
Qed.

End BatchFacts.

(** ** The front cut *)

Module CutFacts.
Import Py Re Scrubber Spec SpecMore FindFacts.

Lemma find_last_some sub (s : pystr) i :
  find_last sub s = Some i ->
  i <= List.length s
  /\ starts_with sub (skipn i s) = true
  /\ forall j, i < j -> j <= List.length s ->
       starts_with sub (skipn j s) = false.
Proof.
  revert i. induction s as [|c s IH]; intros i; cbn [find_last].
  - destruct (starts_with sub []) eqn:E; [|discriminate].
    intros H. injection H as <-. split; [simpl; lia|]. split; [exact E|].
    intros j Hj Hj'. simpl in Hj'. lia.
  - destruct (find_last sub s) as [i'|] eqn:El.
    + intros H. injection H as <-.
      destruct (IH _ eq_refl) as (Hi & Hs & Hmax).
      split; [simpl; lia|]. split; [exact Hs|].
      intros [|j] Hj Hj'; [lia|]. apply Hmax; simpl in Hj'; lia.
    + destruct (starts_with sub (c :: s)) eqn:E; [|discriminate].
      intros H. injection H as <-. split; [simpl; lia|]. split; [exact E|].
      intros [|j] Hj Hj'; [lia|]. cbn [skipn].
      clear -El. revert j. induction s as [|d s IH]; intros j.
      * cbn [find_last] in El. destruct (starts_with sub []) eqn:E;
          [discriminate|]. now destruct j.
      * cbn [find_last] in El.
        destruct (find_last sub s) as [i'|]; [discriminate|].
        destruct (starts_with sub (d :: s)) eqn:E; [discriminate|].
        destruct j as [|j]; [exact E | apply IH; reflexivity].
Qed.

Lemma find_last_none sub (s : pystr) :
  find_last sub s = None -> forall j, starts_with sub (skipn j s) = false.
Proof.
  induction s as [|c s IH]; cbn [find_last].
  - destruct (starts_with sub []) eqn:E; [discriminate|].
    intros _ [|j]; exact E.
  - destruct (find_last sub s) as [i'|]; [discriminate|].
    destruct (starts_with sub (c :: s)) eqn:E; [discriminate|].
    intros _ [|j]; [exact E | apply IH; reflexivity].
Qed.

Lemma marker_end_value (text marker : pystr) :
  (rfind (lower text) marker
   + len marker * Z.b2z (negb (rfind (lower text) marker =? -1)))%Z
  = marker_end text marker.
Proof.
  unfold rfind, marker_end, len.
  destruct (find_last marker (lower text)) as [j|]; cbn [index_or_minus_one].
  - replace (Z.of_nat j =? -1)%Z with false by (symmetry; apply Z.eqb_neq; lia).
    cbn [negb Z.b2z]. lia.
  - rewrite Z.eqb_refl. cbn [negb Z.b2z]. lia.
Qed.

Lemma front_cut_index_ends (text : pystr) (stopstrings : list pystr) :
  front_cut_index text stopstrings
  = py_max (map (marker_end text) stopstrings).
Proof.
  unfold front_cut_index. f_equal. apply map_ext. intros m.
  apply marker_end_value.
Qed.

Lemma marker_end_last (text marker : pystr) j :
  lower marker = marker ->
  find_last marker (lower text) = Some j ->
  last_occurrence marker text j.
Proof.
  intros Hm E. apply find_last_some in E. destruct E as (Hj & Hs & Hmax).
  rewrite lower_length in Hj, Hmax. split.
  - apply (occurs_at_lowered _ _ Hm). auto.
  - intros j' Hlt Hocc. apply (occurs_at_lowered _ _ Hm) in Hocc.
    destruct Hocc as [Hle Hocc]. rewrite (Hmax j' Hlt Hle) in Hocc.
    discriminate.
Qed.

Lemma marker_end_ge (text marker : pystr) j :
  lower marker = marker ->
  occurs_at marker text j ->
  (Z.of_nat (j + List.length marker) <= marker_end text marker)%Z.
Proof.
  intros Hm Hocc. unfold marker_end.
  pose proof Hocc as Hocc'. apply (occurs_at_lowered _ _ Hm) in Hocc'.
  destruct Hocc' as [Hle Hs].
  destruct (find_last marker (lower text)) as [j0|] eqn:E.
  - destruct (marker_end_last _ Hm E) as [_ Hmax].
    destruct (le_lt_dec j j0) as [H|H]; [lia|].
    destruct (Hmax j H Hocc).
  - rewrite (find_last_none _ _ E) in Hs. discriminate.
Qed.

Lemma marker_end_absent (text marker : pystr) :
  lower marker = marker ->
  ~ occurs marker text ->
  marker_end text marker = (-1)%Z.
Proof.
  intros Hm Hno. unfold marker_end.
  destruct (find_last marker (lower text)) as [j|] eqn:E; [|reflexivity].
  exfalso. apply Hno. exists j. apply (marker_end_last _ Hm E).
Qed.

Lemma fold_max_spec (l : list Z) (x : Z) :
  In (fold_left Z.max l x) (x :: l)
  /\ forall y, In y (x :: l) -> (y <= fold_left Z.max l x)%Z.
Proof.
  revert x. induction l as [|a l IH]; intros x; simpl.
  - split; [auto|]. intros y [<-|[]]. lia.
  - destruct (IH (Z.max x a)) as [Hin Hle]. split.
    + destruct Hin as [Hin|Hin]; [|auto].
      rewrite <- Hin. destruct (Z.max_spec x a) as [[_ ->]|[_ ->]]; auto.
    + intros y Hy.
      assert (Z.max x a <= fold_left Z.max l (Z.max x a))%Z as H0
          by (apply Hle; left; reflexivity).
      destruct Hy as [<-|[<-|Hy]]; [lia | lia |].
      apply Hle. right. exact Hy.
Qed.

(** The cut index of the front cut is the greatest marker end. *)
Lemma front_cut_index_max (text : pystr) (stopstrings : list pystr) :
  stopstrings <> [] ->
  exists m,
    In m stopstrings
    /\ front_cut_index text stopstrings = Ok (marker_end text m)
    /\ forall m', In m' stopstrings ->
         (marker_end text m' <= marker_end text m)%Z.
Proof.
  intros Hne. rewrite front_cut_index_ends.
  destruct stopstrings as [|m0 ms]; [contradiction|].
  cbn [map py_max].
  destruct (fold_max_spec (map (marker_end text) ms) (marker_end text m0))
    as [Hin Hle].
  change (marker_end text m0 :: map (marker_end text) ms)
    with (map (marker_end text) (m0 :: ms)) in Hin, Hle.
  apply in_map_iff in Hin. destruct Hin as (m & Hm & Hin).
  exists m. split; [exact Hin|]. split; [now rewrite Hm|].
  intros m' Hm'. rewrite Hm. apply Hle.
  apply (in_map (marker_end text) (m0 :: ms) m'). exact Hm'.
Qed.

(** The cut index of the front cut, in terms of occurrences. *)
Lemma front_cut_index_occurrences (text : pystr) (stopstrings : list pystr) :
  stopstrings <> [] ->
  Forall (fun m => lower m = m) stopstrings ->
  exists i,
    front_cut_index text stopstrings = Ok i
    /\ (forall m j, In m stopstrings -> occurs_at m text j ->
          (Z.of_nat (j + List.length m) <= i)%Z)
    /\ ((exists m j, In m stopstrings /\ last_occurrence m text j
                     /\ i = Z.of_nat (j + List.length m))
        \/ (i = (-1)%Z /\ forall m, In m stopstrings -> ~ occurs m text)).
Proof.
  intros Hne Hlow. rewrite Forall_forall in Hlow.
  destruct (front_cut_index_max text Hne) as (m & Hm & Hi & Hmax).
  exists (marker_end text m). split; [exact Hi|]. split.
  - intros m' j Hm' Hocc.
    pose proof (marker_end_ge (Hlow m' Hm') Hocc). specialize (Hmax m' Hm').
    lia.
  - assert (marker_end text m
            = match find_last m (lower text) with
              | Some j => Z.of_nat (j + List.length m)
              | None => (-1)%Z
              end) as Hend by reflexivity.
    destruct (find_last m (lower text)) as [j|] eqn:E.
    + left. exists m, j. split; [exact Hm|]. split; [|exact Hend].
      apply marker_end_last; auto.
    + right. split; [exact Hend|]. intros m' Hm' [j Hocc].
      pose proof (marker_end_ge (Hlow m' Hm') Hocc) as H1.
      specialize (Hmax m' Hm'). lia.
Qed.

(** *** How [cut_head] ends *)

Lemma getitem_inside (text : pystr) (i : Z) :
  (0 <= i < len text)%Z ->
  getitem text i = Ok (nth (Z.to_nat i) text " "%char).
Proof.
  intros Hi. unfold getitem.
  replace (i <? 0)%Z with false by (symmetry; apply Z.ltb_ge; lia).
  replace (i <? 0)%Z with false by (symmetry; apply Z.ltb_ge; lia).
  destruct (nth_error text (Z.to_nat i)) as [c|] eqn:E.
  - now rewrite (nth_error_nth _ _ _ E).
  - apply nth_error_None in E. unfold len in Hi. lia.
Qed.

Lemma getitem_outside (text : pystr) (i : Z) :
  (len text <= i)%Z -> getitem text i = Raise IndexError.
Proof.
  intros Hi. unfold getitem. unfold len in Hi.
  replace (i <? 0)%Z with false by (symmetry; apply Z.ltb_ge; lia).
  replace (i <? 0)%Z with false by (symmetry; apply Z.ltb_ge; lia).
  assert (nth_error text (Z.to_nat i) = None) as ->
      by (apply nth_error_None; lia).
  reflexivity.
Qed.

Lemma slice_from_inside (text : pystr) (k : Z) :
  (0 <= k <= len text)%Z ->
  slice_from text (Z.min (len text) (Z.max k 0)) = skipn (Z.to_nat k) text.
Proof.
  intros Hk. unfold slice_from, slice_bound.
  rewrite Z.max_l, Z.min_r by lia.
  replace (k <? 0)%Z with false by (symmetry; apply Z.ltb_ge; lia).
  now rewrite Z.min_l by lia.
Qed.

(** The three ways [cut_head] ends, by its cut index. *)
Lemma cut_head_cases (text : pystr) (stopstrings : list pystr) (i : Z) :
  front_cut_index text stopstrings = Ok i ->
  cut_head text stopstrings
  = if (i <=? 0)%Z then Ok text
    else if (len text <=? i + 1)%Z then Raise IndexError
    else Ok (skipn (Z.to_nat
                      (if isalpha (nth (Z.to_nat (i + 1)) text " "%char)
                       then i else i + 1)%Z)
                   text).
Proof.
  unfold front_cut_index, cut_head. intros ->. cbn [bind].
  assert (0 <= len text)%Z as Hlen by (unfold len; lia).
  destruct (Z.leb_spec i 0) as [Hi|Hi].
  - replace (i >? 0)%Z with false by (rewrite Z.gtb_ltb; symmetry; apply Z.ltb_ge; lia).
    cbn [bind]. unfold slice_from, slice_bound.
    rewrite Z.max_r, Z.min_r by lia. cbn [Z.ltb Z.compare].
    now rewrite Z.min_l by lia.
  - replace (i >? 0)%Z with true by (symmetry; apply Z.gtb_lt; lia).
    destruct (Z.leb_spec (len text) (i + 1)) as [He|He].
    + now rewrite getitem_outside.
    + rewrite getitem_inside by lia. cbn [bind].
      replace (len text >=? i + 2)%Z with true
        by (symmetry; apply Z.geb_le; lia).
      destruct (isalpha (nth (Z.to_nat (i + 1)) text " "%char));
        cbn [negb bind]; now rewrite slice_from_inside by lia.
Qed.

(** X2: when two characters or more follow the cut index, [cut_head]
    returns the text from the cut index on if the character one past the
    cut index is a letter, and from one character further otherwise; it
    never drops two characters. *)
Theorem cut_head_away_from_end (text : pystr) (stopstrings : list pystr)
  (i : Z) :
  front_cut_index text stopstrings = Ok i ->
  (0 < i)%Z ->
  (i + 1 < len text)%Z ->
  cut_head text stopstrings
  = Ok (skipn (Z.to_nat
                 (if isalpha (nth (Z.to_nat (i + 1)) text " "%char)
                  then i else i + 1)%Z)
              text).
Proof.
  intros Hi Hpos Hend. rewrite (cut_head_cases _ _ Hi).
  replace (i <=? 0)%Z with false by (symmetry; apply Z.leb_gt; lia).
  replace (len text <=? i + 1)%Z with false by (symmetry; apply Z.leb_gt; lia).
  reflexivity.
Qed.

Lemma cut_head_away_from_end_witness :
  let text := str "Licensed and credited. Title" in
  front_cut_index text _stopstrings_front = Ok 21%Z
  /\ (0 < 21)%Z
  /\ (21 + 1 < len text)%Z
  /\ cut_head text _stopstrings_front
     = Ok (skipn (Z.to_nat
                    (if isalpha (nth (Z.to_nat (21 + 1)) text " "%char)
                     then 21 else 21 + 1)%Z)
                 text).
Proof.
  cbv zeta.
  assert (front_cut_index (str "Licensed and credited. Title")
            _stopstrings_front = Ok 21%Z) as H1 by reflexivity.
  assert (0 < 21)%Z as H2 by lia.
  assert (21 + 1 < len (str "Licensed and credited. Title"))%Z as H3
      by (vm_compute; reflexivity).
  split; [exact H1|]. split; [exact H2|]. split; [exact H3|].
  exact (cut_head_away_from_end _ _ H1 H2 H3).
Defined.

Lemma cut_head_without_marker (text : pystr) (stopstrings : list pystr) :
  stopstrings <> [] ->
  Forall (fun m => lower m = m) stopstrings ->
  (forall m, In m stopstrings -> ~ occurs m text) ->
  cut_head text stopstrings = Ok text.
Proof.
  intros Hne Hlow Hno.
  destruct (front_cut_index_max text Hne) as (m & Hm & Hi & _).
  rewrite Forall_forall in Hlow.
  rewrite (marker_end_absent (Hlow m Hm) (Hno m Hm)) in Hi.
  now rewrite (cut_head_cases _ _ Hi).
Qed.

(** X3: when no front stopstring occurs in the text (letter case
    ignored), [cut_head] returns the text unchanged. *)
Theorem cut_head_no_marker (text : pystr) :
  (forall m, In m _stopstrings_front -> ~ occurs m text) ->
  cut_head text _stopstrings_front = Ok text.
Proof.
  apply cut_head_without_marker; [discriminate | repeat constructor].
Qed.

(** A search that finds no marker shows that none occurs. *)
Lemma no_marker_by_search (text : pystr) (stopstrings : list pystr) :
  Forall (fun m => lower m = m) stopstrings ->
  forallb (fun m => match find_first m (lower text) with
                    | Some _ => false
                    | None => true
                    end) stopstrings = true ->
  forall m, In m stopstrings -> ~ occurs m text.
Proof.
  intros Hlow Hall m Hm [j Hocc].
  rewrite Forall_forall in Hlow. rewrite forallb_forall in Hall.
  specialize (Hall m Hm).
  apply (occurs_at_lowered _ _ (Hlow m Hm)) in Hocc. destruct Hocc as [_ Hs].
  destruct (find_first m (lower text)) as [j0|] eqn:E; [discriminate|].
  rewrite (find_first_none _ _ E) in Hs. discriminate.
Qed.

Lemma cut_head_no_marker_witness :
  (forall m, In m _stopstrings_front -> ~ occurs m (str "Title Here."))
  /\ cut_head (str "Title Here.") _stopstrings_front = Ok (str "Title Here.").
Proof.
  assert (forall m, In m _stopstrings_front -> ~ occurs m (str "Title Here."))
    as H.
  { apply no_marker_by_search; [repeat constructor | reflexivity]. }
  split; [exact H | exact (cut_head_no_marker H)].
Defined.

(** *** Occurrences inside a cut *)

Lemma occurs_at_suffix (m t : pystr) k j :
  k <= List.length t ->
  occurs_at m (skipn k t) j -> occurs_at m t (k + j).
Proof.
  intros Hk [Hlen Hwin]. rewrite length_skipn in Hlen.
  rewrite skipn_skipn in Hwin. split; [lia|].
  now rewrite (Nat.add_comm k j).
Qed.

Lemma window_of_prefix (t : pystr) n j k :
  j + n <= k ->
  firstn n (skipn j (firstn k t)) = firstn n (skipn j t).
Proof.
  intros H. rewrite skipn_firstn_comm, firstn_firstn.
  now rewrite Nat.min_l by lia.
Qed.

Lemma occurs_at_prefix (m t : pystr) k j :
  occurs_at m (firstn k t) j -> occurs_at m t j /\ j + List.length m <= k.
Proof.
  intros [Hlen Hwin]. rewrite length_firstn in Hlen.
  rewrite window_of_prefix in Hwin by lia.
  split; [split; [lia | exact Hwin] | lia].
Qed.

(** The markers of the scrubber are not empty. *)
Lemma front_markers_not_empty m :
  In m _stopstrings_front -> 0 < List.length m.
Proof.
  intros H. repeat (destruct H as [<-|H]; [simpl; lia|]). destruct H.
Qed.

Lemma body_markers_not_empty m :
  In m _stopstrings_body -> 0 < List.length m.
Proof.
  intros H. repeat (destruct H as [<-|H]; [simpl; lia|]). destruct H.
Qed.

Lemma front_markers_lowercase :
  Forall (fun m => lower m = m) _stopstrings_front.
Proof. repeat constructor. Qed.

Lemma body_markers_lowercase :
  Forall (fun m => lower m = m) _stopstrings_body.
Proof. repeat constructor. Qed.

Lemma cut_head_clears_markers (text out : pystr) :
  cut_head text _stopstrings_front = Ok out ->
  forall m, In m _stopstrings_front -> ~ occurs m out.
Proof.
  intros Hcut.
  destruct (@front_cut_index_occurrences text _stopstrings_front)
    as (i & Hi & Hmax & Hcase);
    [discriminate | apply front_markers_lowercase |].
  rewrite (cut_head_cases _ _ Hi) in Hcut.
  destruct (Z.leb_spec i 0) as [Hle|Hpos].
  - injection Hcut as <-.
    destruct Hcase as [(m & j & Hm & _ & ->) | [_ Hno]]; [|exact Hno].
    pose proof (@front_markers_not_empty _ Hm). lia.
  - destruct (Z.leb_spec (len text) (i + 1)) as [He|He]; [discriminate|].
    injection Hcut as <-. intros m Hm [j Hocc].
    set (k := Z.to_nat _) in Hocc.
    assert (Z.to_nat i <= k /\ k <= List.length text) as [Hk1 Hk2].
    { unfold k, len in *.
      destruct (isalpha (nth (Z.to_nat (i + 1)) text " "%char)); lia. }
    apply occurs_at_suffix in Hocc; [|exact Hk2].
    pose proof (Hmax m _ Hm Hocc).
    pose proof (@front_markers_not_empty _ Hm). lia.
Qed.

(** X4: what [cut_head] returns holds no front stopstring any more
    (letter case ignored), so cutting it again changes nothing. *)
Theorem cut_head_idempotent (text out : pystr) :
  cut_head text _stopstrings_front = Ok out ->
  (forall m, In m _stopstrings_front -> ~ occurs m out)
  /\ cut_head out _stopstrings_front = Ok out.
Proof.
  intros Hcut. pose proof (@cut_head_clears_markers _ _ Hcut) as Hno.
  split; [exact Hno|].
  apply cut_head_without_marker;
    [discriminate | apply front_markers_lowercase | exact Hno].
Qed.

Lemma cut_head_idempotent_witness :
  let text := str "Licensed and credited. Title" in
  let out := str " Title" in
  cut_head text _stopstrings_front = Ok out
  /\ (forall m, In m _stopstrings_front -> ~ occurs m out)
  /\ cut_head out _stopstrings_front = Ok out.
Proof.
  cbv zeta.
  assert (cut_head (str "Licensed and credited. Title") _stopstrings_front
          = Ok (str " Title")) as H by reflexivity.
  split; [exact H | exact (@cut_head_idempotent _ _ H)].
Defined.

End CutFacts.

(** ** Preprocessing and scrubbing a document *)

Module ScrubMore.
Import Py Re Scrubber Spec SpecMore CharFacts NormalizeFacts FindFacts
  ScrubFacts CutFacts.

Lemma text_eqb_eq (a b : pystr) : text_eqb a b = true <-> a = b.
Proof.
  revert b. induction a as [|x a IH]; intros [|y b]; simpl;
    try (split; [discriminate | intros H; discriminate H]).
  - split; reflexivity.
  - rewrite andb_true_iff, Ascii.eqb_eq, IH. split.
    + intros [-> ->]. reflexivity.
    + intros H. injection H as -> ->. auto.
Qed.

Lemma text_eqb_neq (a b : pystr) : a <> b -> text_eqb a b = false.
Proof.
  intros H. destruct (text_eqb a b) eqn:E; [|reflexivity].
  apply text_eqb_eq in E. contradiction.
Qed.

(** [cut_head] on the front stopstrings returns or raises [IndexError]. *)
Lemma cut_head_front_outcome (text : pystr) :
  (exists out, cut_head text _stopstrings_front = Ok out)
  \/ cut_head text _stopstrings_front = Raise IndexError.
Proof.
  destruct (@front_cut_index_max text _stopstrings_front)
    as (m & _ & Hi & _); [discriminate|].
  rewrite (cut_head_cases _ _ Hi).
  destruct (marker_end text m <=? 0)%Z; [eauto|].
  destruct (len text <=? marker_end text m + 1)%Z; eauto.
Qed.

Lemma cut_tail_body_returns (text : pystr) :
  exists out, cut_tail text _stopstrings_body = Ok out.
Proof.
  destruct (@cut_tail_position text _stopstrings_body) as (k & H & _);
    [discriminate | eauto].
Qed.

(** X6: [preprocess] raises [AssertionError] exactly when the mode is
    neither ['front'] nor ['body'], whatever the text is. *)
Theorem preprocess_mode_contract (text mode : pystr) :
  preprocess text mode = Raise AssertionError
  <-> mode <> str "front" /\ mode <> str "body".
Proof.
  split.
  - intros H. split; intros ->.
    + rewrite preprocess_front in H.
      destruct (cut_head_front_outcome text) as [[out E]|E];
        rewrite E in H; discriminate.
    + rewrite preprocess_body in H.
      destruct (cut_tail_body_returns text) as [out E].
      rewrite E in H. discriminate.
  - intros [Hf Hb]. unfold preprocess. cbn [existsb].
    now rewrite (text_eqb_neq Hf), (text_eqb_neq Hb).
Qed.

(** X7: [scrub_text] raises nothing but [IndexError], and it raises
    exactly when the cut index of the front section is positive and at
    most one character is left after it. *)
Theorem scrub_text_failure (text : pystr) (e : exn) :
  scrub_text text = Raise e
  <-> e = IndexError
      /\ exists i,
           front_cut_index (fst (front_body text)) _stopstrings_front = Ok i
           /\ (0 < i)%Z
           /\ (len (fst (front_body text)) <= i + 1)%Z.
Proof.
  unfold scrub_text. destruct (front_body text) as [front body].
  cbn [fst]. rewrite preprocess_front, preprocess_body.
  destruct (@front_cut_index_max front _stopstrings_front)
    as (m & _ & Hi & _); [discriminate|].
  destruct (cut_tail_body_returns body) as [out Hout].
  rewrite (cut_head_cases _ _ Hi), Hout, Hi.
  destruct (Z.leb_spec (marker_end front m) 0) as [H0|H0];
    [|destruct (Z.leb_spec (len front) (marker_end front m + 1)) as [H1|H1]];
    cbn [bind].
  - split; [discriminate|]. intros (_ & i & E & Hpos & _).
    injection E as <-. lia.
  - split.
    + intros H. injection H as <-. split; [reflexivity|].
      exists (marker_end front m). auto.
    + intros [-> _]. reflexivity.
  - split; [discriminate|]. intros (_ & i & E & _ & Hend).
    injection E as <-. lia.
Qed.

(** X8: whatever [scrub_text] returns consists of normalized characters:
    ASCII letters and digits, commas, periods, hyphens, newlines and
    spaces. *)
Theorem scrub_text_alphabet (text out : pystr) :
  scrub_text text = Ok out ->
  Forall (fun c => normalized_char c = true) out.
Proof.
  unfold scrub_text. destruct (front_body text) as [front body].
  rewrite preprocess_front, preprocess_body.
  destruct (cut_head front _stopstrings_front) as [f|]; [|discriminate].
  destruct (cut_tail body _stopstrings_body) as [b|]; [|discriminate].
  cbn [bind]. intros H. injection H as <-.
  apply Forall_app. split; [apply normalize_chars|].
  constructor; [reflexivity | apply normalize_chars].
Qed.

Lemma scrub_text_alphabet_witness :
  let text := str "x====Title (1)!====Body [2] text?====refs" in
  let out := str "Title ." ++ [nl] ++ str "Body text." in
  scrub_text text = Ok out
  /\ Forall (fun c => normalized_char c = true) out.
Proof.
  cbv zeta.
  assert (scrub_text (str "x====Title (1)!====Body [2] text?====refs")
          = Ok (str "Title ." ++ [nl] ++ str "Body text.")) as H
      by reflexivity.
  split; [exact H | exact (@scrub_text_alphabet _ _ H)].
Defined.

(** X9: the output of [scrub_text] depends on sections 1 and 2 only: what
    stands before the first separator and what follows the third never
    reaches the output. *)
Theorem scrub_text_sections (text1 text2 : pystr) (s1 s2 front body : pystr)
  (rest1 rest2 : list pystr) :
  sections text1 = s1 :: front :: body :: rest1 ->
  sections text2 = s2 :: front :: body :: rest2 ->
  scrub_text text1 = scrub_text text2.
Proof.
  intros H1 H2. unfold scrub_text.
  now rewrite !front_body_sections, H1, H2.
Qed.

Lemma scrub_text_sections_witness :
  let text1 := str "head====Title.====Body.====refs one====more" in
  let text2 := str "====Title.====Body." in
  sections text1
  = str "head" :: str "Title." :: str "Body." :: [str "refs one"; str "more"]
  /\ sections text2 = [] :: str "Title." :: str "Body." :: []
  /\ scrub_text text1 = scrub_text text2.
Proof.
  cbv zeta.
  assert (sections (str "head====Title.====Body.====refs one====more")
          = str "head" :: str "Title." :: str "Body."
            :: [str "refs one"; str "more"]) as H1 by reflexivity.
  assert (sections (str "====Title.====Body.")
          = [] :: str "Title." :: str "Body." :: []) as H2 by reflexivity.
  split; [exact H1|]. split; [exact H2|].
  exact (@scrub_text_sections _ _ _ _ _ _ _ _ H1 H2).
Defined.

(** *** Splitting and joining *)

Lemma starts_with_app (p s : pystr) :
  starts_with p s = true -> s = p ++ skipn (List.length p) s.
Proof.
  intros H. apply starts_with_firstn in H.
  rewrite <- H at 1. symmetry. apply firstn_skipn.
Qed.

Lemma split_scan_skip sep n cur (s : pystr) :
  n <= List.length s ->
  split_scan sep n cur s = split_scan sep 0 cur (skipn n s).
Proof.
  revert s. induction n as [|n IH]; intros s Hn; [reflexivity|].
  destruct s as [|c s]; [simpl in Hn; lia|].
  cbn [split_scan skipn]. apply IH. simpl in Hn. lia.
Qed.

Lemma join_cons sep (p : pystr) (ps : list pystr) :
  ps <> [] -> join sep (p :: ps) = p ++ sep ++ join sep ps.
Proof. destruct ps; [contradiction | reflexivity]. Qed.

Lemma split_scan_not_nil sep n cur (s : pystr) :
  split_scan sep n cur s <> [].
Proof.
  intros H. apply (f_equal (@List.length _)) in H.
  rewrite split_scan_length in H. discriminate.
Qed.

(** The sections that [str.split] makes, joined by the separator, are the
    text. *)
Lemma join_split_scan (sep : pystr) :
  sep <> [] ->
  forall n (s cur : pystr),
    List.length s <= n ->
    join sep (split_scan sep 0 cur s) = rev cur ++ s.
Proof.
  intros Hsep. induction n as [|n IH]; intros s cur Hn.
  - destruct s; [|simpl in Hn; lia]. simpl. now rewrite app_nil_r.
  - destruct s as [|c s]; [simpl; now rewrite app_nil_r|].
    cbn [split_scan]. destruct (starts_with sep (c :: s)) eqn:E.
    + apply starts_with_app in E.
      destruct sep as [|a sep']; [contradiction|].
      cbn [List.length skipn app] in E. injection E as <- E.
      cbn [List.length].
      replace (S (List.length sep') - 1) with (List.length sep') by lia.
      assert (List.length sep' <= List.length s) as Hle.
      { rewrite E, length_app. lia. }
      rewrite split_scan_skip by exact Hle.
      rewrite join_cons by apply split_scan_not_nil.
      rewrite IH by (rewrite length_skipn; simpl in Hn; lia).
      cbn [rev app]. now rewrite <- E.
    + rewrite IH by (simpl in Hn; lia). cbn [rev].
      now rewrite <- app_assoc.
Qed.

(** The sections of a document, joined by the separator, give the
    document back. *)
Lemma sections_join (text : pystr) :
  join _separator (sections text) = text.
Proof.
  unfold sections.
  apply (@join_split_scan _separator) with (n := List.length text) (cur := []);
    [discriminate | lia].
Qed.

End ScrubMore.

(** ** More on [re.sub] and on normalization *)

Module ReMore.
Import Py Re Scrubber Spec CharFacts ReFacts NormalizeFacts PatternFacts.

(** *** Lengths of matches *)

(** A match is not longer than the text, when that holds of what the
    continuation matches. *)
Lemma star_match_bound p k s n :
  (forall s' m, k s' = Some m -> m <= List.length s') ->
  star_match p s k = Some n -> n <= List.length s.
Proof.
  intros Hk. revert n. induction s as [|c s IH]; simpl; intros n H.
  - apply (Hk [] n H).
  - destruct (p c); [|apply (Hk (c :: s) n H)].
    destruct (star_match p s k) as [n'|].
    + injection H as <-. specialize (IH _ eq_refl). lia.
    + apply (Hk (c :: s) n H).
Qed.

Lemma match_k_bound r : forall s k n,
  (forall s' m, k s' = Some m -> m <= List.length s') ->
  match_k r s k = Some n -> n <= List.length s.
Proof.
  induction r as [p | a IHa b IHb | a IHa b IHb | p]; intros s k n Hk;
    cbn [match_k].
  - destruct s as [|c s]; [discriminate|].
    destruct (p c); [|discriminate].
    destruct (k s) as [m|] eqn:E; [|discriminate].
    intros H. injection H as <-. specialize (Hk _ _ E). simpl. lia.
  - apply IHa. intros s' m. apply IHb, Hk.
  - destruct (match_k a s k) as [n'|] eqn:E.
    + intros H. injection H as <-. apply (IHa _ _ _ Hk E).
    + apply IHb, Hk.
  - apply star_match_bound, Hk.
Qed.

Lemma match_at_bound r s n : match_at r s = Some n -> n <= List.length s.
Proof.
  apply match_k_bound. intros s' m H. injection H as <-. lia.
Qed.

Lemma star_match_some_len p k s n :
  star_match p s k = Some n ->
  exists j m, j <= run p s /\ k (skipn j s) = Some m /\ n = j + m.
Proof.
  revert n. induction s as [|c s IH]; simpl; intros n H.
  - exists 0, n. auto.
  - destruct (p c) eqn:Hc.
    + destruct (star_match p s k) as [n'|] eqn:E.
      * destruct (IH _ eq_refl) as (j & m & Hj & Hm & ->).
        injection H as <-. exists (S j), m. split; [lia|]. auto.
      * exists 0, n. split; [lia|]. auto.
    + exists 0, n. split; [lia|]. auto.
Qed.

(** The repetition matches as soon as the continuation matches somewhere
    inside the run. *)
Lemma star_match_complete p k s j :
  j <= run p s -> k (skipn j s) <> None -> star_match p s k <> None.
Proof.
  revert j. induction s as [|c s IH]; intros j Hj Hk.
  - destruct j; exact Hk.
  - cbn [star_match]. cbn [run] in Hj. destruct (p c).
    + destruct j as [|j].
      * destruct (star_match p s k); [discriminate | exact Hk].
      * specialize (IH j). cbn [skipn] in Hk.
        destruct (star_match p s k); [discriminate|].
        exfalso. apply IH; [lia | exact Hk | reflexivity].
    + assert (j = 0) as -> by lia. exact Hk.
Qed.

Lemma chr_some_len (p : ascii -> bool) (k : pystr -> option nat) s n :
  match s with
  | [] => None
  | c :: s' => if p c then option_map S (k s') else None
  end = Some n ->
  exists c s' m, s = c :: s' /\ p c = true /\ k s' = Some m /\ n = S m.
Proof.
  destruct s as [|c s']; [discriminate|].
  destruct (p c) eqn:Hc; [|discriminate].
  destruct (k s') as [m|] eqn:E; [|discriminate].
  intros H. injection H as <-. exists c, s', m. auto.
Qed.

(** *** The length of the result of [re.sub] *)

(** Replacing matches that are not empty by one character at most does
    not lengthen the text. *)
Lemma sub_scan_length r repl :
  List.length repl <= 1 ->
  match_at r [] = None ->
  (forall s, match_at r s <> Some 0) ->
  forall s skip, List.length (sub_scan r repl skip s) <= List.length s.
Proof.
  intros Hrepl Hnil Hzero. induction s as [|c s IH]; intros skip.
  - simpl. now rewrite Hnil.
  - cbn [sub_scan]. destruct skip as [|n].
    + destruct (match_at r (c :: s)) as [[|n]|] eqn:E.
      * destruct (Hzero _ E).
      * rewrite length_app. specialize (IH n). simpl. lia.
      * specialize (IH 0). simpl. lia.
    + specialize (IH n). simpl. lia.
Qed.

Lemma sub_scan_skip_length r repl :
  List.length repl <= 1 ->
  match_at r [] = None ->
  (forall s, match_at r s <> Some 0) ->
  forall s skip, skip <= List.length s ->
    List.length (sub_scan r repl skip s) + skip <= List.length s.
Proof.
  intros Hrepl Hnil Hzero. induction s as [|c s IH]; intros skip Hskip.
  - simpl in Hskip. assert (skip = 0) as -> by lia. simpl.
    rewrite Hnil. simpl. lia.
  - destruct skip as [|n].
    + pose proof (@sub_scan_length r repl Hrepl Hnil Hzero (c :: s) 0). lia.
    + cbn [sub_scan]. simpl in Hskip. specialize (IH n). simpl. lia.
Qed.

(** Where a match of two characters or more is replaced by one character
    at most, the text gets shorter. *)
Lemma sub_scan_shrinks r repl :
  List.length repl <= 1 ->
  match_at r [] = None ->
  (forall s n, match_at r s = Some n -> 2 <= n) ->
  forall s i, match_at r (skipn i s) <> None ->
    List.length (sub r repl s) < List.length s.
Proof.
  intros Hrepl Hnil Hmin.
  assert (forall s, match_at r s <> Some 0) as Hzero.
  { intros s H. apply Hmin in H. lia. }
  unfold sub. induction s as [|c s IH]; intros i Hi.
  - exfalso. apply Hi. destruct i; exact Hnil.
  - cbn [sub_scan]. destruct (match_at r (c :: s)) as [[|n]|] eqn:E.
    + destruct (Hzero _ E).
    + pose proof (Hmin _ _ E). pose proof (@match_at_bound _ _ _ E) as Hb.
      simpl in Hb. rewrite length_app.
      pose proof (@sub_scan_skip_length r repl Hrepl Hnil Hzero s n). simpl. lia.
    + destruct i as [|i]; [simpl in Hi; congruence|].
      specialize (IH i Hi). simpl. lia.
Qed.

Lemma chr_not_zero (p : ascii -> bool) (k : pystr -> option nat) s :
  match s with
  | [] => None
  | c :: s' => if p c then option_map S (k s') else None
  end <> Some 0.
Proof.
  destruct s as [|c s']; [discriminate|].
  destruct (p c); [|discriminate]. destruct (k s'); discriminate.
Qed.

Lemma citing_not_empty s : match_at citing_re s <> Some 0.
Proof.
  unfold match_at, citing_re, lit. rewrite match_k_alt. cbn [match_k].
  match goal with
  | |- match ?x with _ => _ end <> _ => destruct x as [n|] eqn:E
  end.
  - rewrite <- E. apply chr_not_zero.
  - apply chr_not_zero.
Qed.

Lemma refs_not_empty s : match_at refs_re s <> Some 0.
Proof. unfold match_at, refs_re, lit. cbn [match_k]. apply chr_not_zero. Qed.

Lemma unnecessary_not_empty s : match_at unnecessary_re s <> Some 0.
Proof. unfold match_at, unnecessary_re. cbn [match_k]. apply chr_not_zero. Qed.

Lemma eos_not_empty s : match_at eos_re s <> Some 0.
Proof. unfold match_at, eos_re, plus. cbn [match_k]. apply chr_not_zero. Qed.

Lemma spaces_not_empty s : match_at spaces_re s <> Some 0.
Proof. unfold match_at, spaces_re. cbn [match_k]. apply chr_not_zero. Qed.

(** X10: none of the passes of [normalize] lengthens the text: the
    normalized text, the text without citations and the text without
    references are at most as long as the text. *)
Theorem normalize_length (text : pystr) :
  List.length (normalize text) <= List.length text
  /\ List.length (remove_citing text) <= List.length text
  /\ List.length (remove_refs text) <= List.length text.
Proof.
  assert (forall t, List.length (remove_citing t) <= List.length t) as H1.
  { intros t. apply sub_scan_length;
      [simpl; lia | reflexivity | apply citing_not_empty]. }
  assert (forall t, List.length (remove_refs t) <= List.length t) as H2.
  { intros t. apply sub_scan_length;
      [simpl; lia | reflexivity | apply refs_not_empty]. }
  split; [|split; [apply H1 | apply H2]].
  unfold normalize.
  etransitivity; [apply sub_scan_length;
    [simpl; lia | reflexivity | apply spaces_not_empty]|].
  etransitivity; [apply sub_scan_length;
    [simpl; lia | reflexivity | apply eos_not_empty]|].
  etransitivity; [apply sub_scan_length;
    [simpl; lia | reflexivity | apply unnecessary_not_empty]|].
  etransitivity; [apply H2 | apply H1].
Qed.

End ReMore.

(** ** Fixed points of the passes *)

Module PassFacts.
Import Py Re Scrubber Spec CharFacts ReFacts NormalizeFacts PatternFacts
  ReMore.

(** X11: the texts that [normalize] leaves unchanged are exactly the texts
    of normalized characters without two periods in a row and without two
    spaces in a row. *)
Theorem normalize_fixed_points (text : pystr) :
  normalize text = text
  <-> Forall (fun c => normalized_char c = true) text
      /\ no_adjacent is_eos text = true
      /\ no_adjacent is_sp text = true.
Proof.
  split.
  - intros H. rewrite <- H. split; [apply normalize_chars|].
    split; [apply normalize_no_adjacent_eos | apply normalize_no_adjacent_spaces].
  - intros (Hc & He & Hs). now apply normalize_fixed.
Qed.

Lemma no_adjacent_inside p (pre post : pystr) a b :
  no_adjacent p (pre ++ a :: b :: post) = true -> p a && p b = false.
Proof.
  induction pre as [|c pre IH]; intros H.
  - cbn [app] in H. rewrite no_adjacent_cons in H. apply andb_prop in H.
    destruct H as [H _]. now apply negb_true_iff in H.
  - apply IH. change ((c :: pre) ++ a :: b :: post)
      with (c :: (pre ++ a :: b :: post)) in H.
    rewrite no_adjacent_cons in H.
    destruct (pre ++ a :: b :: post) eqn:E; [reflexivity|].
    now apply andb_prop in H.
Qed.

(** X12: a normalized text holds neither two spaces in a row nor two
    periods in a row. *)
Theorem normalize_no_runs (text pre post : pystr) :
  normalize text <> pre ++ str "  " ++ post
  /\ normalize text <> pre ++ str ".." ++ post.
Proof.
  split; intros H.
  - pose proof (normalize_no_adjacent_spaces text) as Hs. rewrite H in Hs.
    apply no_adjacent_inside in Hs. discriminate.
  - pose proof (normalize_no_adjacent_eos text) as He. rewrite H in He.
    apply no_adjacent_inside in He. discriminate.
Qed.

(** *** Citations *)

(** The match of [o \d+ c] at the start of a text. *)
Lemma group_match_exact o c s :
  isdigit c = false ->
  match_k (Seq (lit o) (Seq (plus isdigit) (lit c))) s (fun _ => Some 0)
  = if digit_group_at o c s
    then Some (run isdigit (tl s) + 2)
    else None.
Proof.
  intros Hc. unfold lit, plus, digit_group_at. cbn [match_k].
  destruct s as [|x s1]; [reflexivity|]. cbn [tl].
  rewrite (Ascii.eqb_sym x o).
  destruct (Ascii.eqb o x); [|reflexivity]. cbn [andb].
  destruct s1 as [|d s2]; [reflexivity|]. cbn [run].
  destruct (isdigit d) eqn:Hd; [|reflexivity].
  rewrite star_match_max
    by (intros c0 s' H0; now rewrite (digit_not_literal _ _ Hc H0)).
  cbn [Nat.leb nth_error andb]. rewrite nth_error_head_skipn.
  destruct (skipn (run isdigit s2) s2) as [|y t]; [reflexivity|].
  cbn [hd_error option_map]. rewrite (Ascii.eqb_sym y c).
  destruct (Ascii.eqb c y); cbn [option_map]; [|reflexivity].
  f_equal. lia.
Qed.

Lemma citing_match_exact s :
  match_at citing_re s
  = if digit_group_at "[" "]" s || digit_group_at "(" ")" s
    then Some (run isdigit (tl s) + 2)
    else None.
Proof.
  unfold match_at, citing_re. rewrite match_k_alt.
  rewrite !group_match_exact by reflexivity.
  destruct (digit_group_at "[" "]" s); reflexivity.
Qed.

Lemma has_digit_group_somewhere o c s :
  has_digit_group o c s = true ->
  exists i, digit_group_at o c (skipn i s) = true.
Proof.
  induction s as [|x s IH]; cbn [has_digit_group]; intros H.
  - rewrite orb_false_r in H. now exists 0.
  - apply orb_prop in H. destruct H as [H|H]; [now exists 0|].
    destruct (IH H) as [i Hi]. now exists (S i).
Qed.

Lemma remove_citing_shrinks s i :
  digit_group_at "[" "]" (skipn i s) || digit_group_at "(" ")" (skipn i s)
  = true ->
  List.length (remove_citing s) < List.length s.
Proof.
  intros H. apply sub_scan_shrinks with (i := i).
  - simpl. lia.
  - reflexivity.
  - intros t n. rewrite citing_match_exact.
    destruct (digit_group_at "[" "]" t || digit_group_at "(" ")" t);
      [|discriminate].
    intros E. injection E as E. lia.
  - rewrite citing_match_exact, H. discriminate.
Qed.

(** X13: [remove_citing] leaves a text unchanged exactly when the text
    holds no bracketed and no parenthesized run of digits; otherwise the
    result is shorter than the text. *)
Theorem remove_citing_fixed_points (text : pystr) :
  (remove_citing text = text
   <-> has_digit_group "[" "]" text = false
       /\ has_digit_group "(" ")" text = false)
  /\ (remove_citing text = text
      \/ List.length (remove_citing text) < List.length text).
Proof.
  assert (has_digit_group "[" "]" text = true
          \/ has_digit_group "(" ")" text = true ->
          List.length (remove_citing text) < List.length text) as Hshrink.
  { intros [H|H]; apply has_digit_group_somewhere in H; destruct H as [i H];
      apply remove_citing_shrinks with (i := i); rewrite H;
      [reflexivity | apply orb_true_r]. }
  split; [split|].
  - intros Hid.
    destruct (has_digit_group "[" "]" text) eqn:Hb;
      [|destruct (has_digit_group "(" ")" text) eqn:Hp; [|auto]].
    + assert (List.length (remove_citing text) < List.length text)
        by (apply Hshrink; auto).
      rewrite Hid in *. lia.
    + assert (List.length (remove_citing text) < List.length text)
        by (apply Hshrink; auto).
      rewrite Hid in *. lia.
  - intros [Hb Hp]. now apply remove_citing_identity.
  - destruct (has_digit_group "[" "]" text) eqn:Hb;
      [right; apply Hshrink; auto|].
    destruct (has_digit_group "(" ")" text) eqn:Hp;
      [right; apply Hshrink; auto|].
    left. now apply remove_citing_identity.
Qed.

(** *** References *)

Lemma closes_somewhere s :
  closes s = true ->
  exists j t, j <= run dot s /\ skipn j s = ")"%char :: t.
Proof.
  induction s as [|c s IH]; cbn [closes]; [discriminate|].
  destruct (Ascii.eqb c ")") eqn:E.
  - apply eqb_eq_char in E. subst c. intros _. exists 0, s. split; [lia|].
    reflexivity.
  - destruct (Ascii.eqb c nl) eqn:En; [discriminate|]. intros H.
    destruct (IH H) as (j & t & Hj & Ht). exists (S j), t.
    split; [|exact Ht]. cbn [run]. unfold dot at 1. rewrite En. simpl. lia.
Qed.

Lemma comma_somewhere s :
  comma_year_close s = true ->
  exists j t, j <= run dot s /\ skipn j s = ","%char :: t
              /\ year_then_close t = true.
Proof.
  induction s as [|c s IH]; cbn [comma_year_close]; [discriminate|].
  intros H. apply orb_prop in H. destruct H as [H|H].
  - apply andb_prop in H. destruct H as [Hc Ht].
    apply eqb_eq_char in Hc. subst c. exists 0, s. split; [lia|]. auto.
  - apply andb_prop in H. destruct H as [Hn H].
    destruct (IH H) as (j & t & Hj & Ht & Hy). exists (S j), t.
    split; [|auto]. cbn [run]. unfold dot at 1.
    destruct (Ascii.eqb c nl); [discriminate|]. simpl. lia.
Qed.

(** A parenthetical run with a comma, a year and a closing parenthesis is
    matched by the pattern of references. *)
Lemma refs_match_complete s :
  reference_at s = true -> match_at refs_re s <> None.
Proof.
  destruct s as [|x s1]; [discriminate|]. cbn [reference_at].
  intros H. apply andb_prop in H. destruct H as [Hx H].
  apply eqb_eq_char in Hx. subst x.
  apply comma_somewhere in H. destruct H as (j & t1 & Hj & Ej & Hy).
  unfold match_at, refs_re, lit. cbn [match_k]. rewrite Ascii.eqb_refl.
  match goal with
  | |- option_map S ?x <> None =>
      assert (x <> None) as Hx; [|destruct x; [discriminate | congruence]]
  end.
  apply star_match_complete with (j := j); [exact Hj|].
  rewrite Ej, Ascii.eqb_refl.
  match goal with
  | |- option_map S ?x <> None =>
      assert (x <> None) as Hx; [|destruct x; [discriminate | congruence]]
  end.
  rewrite star_match_max
    by (intros c s' Hc; now rewrite (digit_not_space _ Hc)).
  unfold year_then_close in Hy.
  destruct (skipn (run isspace t1) t1) as [|d1 [|d2 [|d3 [|d4 rest]]]];
    try discriminate.
  apply andb_prop in Hy. destruct Hy as [Hy Hclose].
  apply andb_prop in Hy. destruct Hy as [Hy Hd4].
  apply andb_prop in Hy. destruct Hy as [Hy Hd3].
  apply andb_prop in Hy. destruct Hy as [Hd1 Hd2].
  rewrite Hd1, Hd2, Hd3, Hd4.
  apply closes_somewhere in Hclose. destruct Hclose as (j' & t2 & Hj' & Ej').
  pose proof (@star_match_complete dot
                (fun s' => match s' with
                           | [] => None
                           | c :: s'0 =>
                               if Ascii.eqb ")" c
                               then option_map S (Some 0)
                               else None
                           end) rest j' Hj') as Hstar.
  rewrite Ej', Ascii.eqb_refl in Hstar.
  destruct (star_match dot rest _) as [n|];
    [discriminate | exfalso; apply Hstar; [discriminate | reflexivity]].
Qed.

Lemma refs_match_min s n : match_at refs_re s = Some n -> 2 <= n.
Proof.
  unfold match_at, refs_re, lit. cbn [match_k]. intros H.
  apply chr_some_len in H. destruct H as (x & s1 & m & -> & _ & H & ->).
  apply star_match_some_len in H. destruct H as (j & m1 & _ & H & ->).
  apply chr_some_len in H. destruct H as (y & t1 & m2 & _ & _ & _ & ->).
  lia.
Qed.

Lemma has_reference_somewhere s :
  has_reference s = true -> exists i, reference_at (skipn i s) = true.
Proof.
  induction s as [|x s IH]; cbn [has_reference]; intros H.
  - rewrite orb_false_r in H. now exists 0.
  - apply orb_prop in H. destruct H as [H|H]; [now exists 0|].
    destruct (IH H) as [i Hi]. now exists (S i).
Qed.

(** X14: [remove_refs] leaves a text unchanged exactly when no
    parenthetical run of the text holds a comma followed by a four-digit
    year before a closing parenthesis on the line; otherwise the result is
    shorter than the text. *)
Theorem remove_refs_fixed_points (text : pystr) :
  (remove_refs text = text <-> has_reference text = false)
  /\ (remove_refs text = text
      \/ List.length (remove_refs text) < List.length text).
Proof.
  assert (has_reference text = true ->
          List.length (remove_refs text) < List.length text) as Hshrink.
  { intros H. apply has_reference_somewhere in H. destruct H as [i H].
    apply sub_scan_shrinks with (i := i);
      [simpl; lia | reflexivity | apply refs_match_min |].
    now apply refs_match_complete. }
  split; [split|].
  - intros Hid. destruct (has_reference text) eqn:E; [|reflexivity].
    specialize (Hshrink eq_refl). rewrite Hid in Hshrink. lia.
  - apply remove_refs_identity.
  - destruct (has_reference text) eqn:E; [right; now apply Hshrink|].
    left. now apply remove_refs_identity.
Qed.

End PassFacts.

(** ** Paths, and what the scrub of an article does to the file system *)

Module BatchMore.
Import Py Re Scrubber Batch Spec SpecMore ScrubFacts ScrubMore BatchFacts.

(** *** Components of a path *)

Lemma split_char_step (a c : ascii) (s cur : pystr) :
  split_scan [a] 0 cur (c :: s)
  = if Ascii.eqb a c
    then rev cur :: split_scan [a] 0 [] s
    else split_scan [a] 0 (c :: cur) s.
Proof.
  cbn [split_scan starts_with]. rewrite andb_true_r. reflexivity.
Qed.

Lemma split_char_plain (a : ascii) (name cur : pystr) :
  Forall (fun c => Ascii.eqb a c = false) name ->
  split_scan [a] 0 cur name = [rev cur ++ name].
Proof.
  intros H. revert cur.
  induction H as [|c name Hc _ IH]; intros cur.
  - simpl. now rewrite app_nil_r.
  - rewrite split_char_step, Hc, IH. cbn [rev]. now rewrite <- app_assoc.
Qed.

Lemma split_char_app (a : ascii) (s t cur : pystr) :
  split_scan [a] 0 cur (s ++ a :: t)
  = split_scan [a] 0 cur s ++ split_scan [a] 0 [] t.
Proof.
  revert cur. induction s as [|c s IH]; intros cur.
  - cbn [app]. rewrite split_char_step, Ascii.eqb_refl. reflexivity.
  - cbn [app]. rewrite !split_char_step.
    destruct (Ascii.eqb a c); rewrite IH; reflexivity.
Qed.

Lemma components_app (root name : pystr) :
  no_sep name ->
  components (root ++ os_sep ++ name) = components root ++ [name].
Proof.
  intros H. unfold components, os_sep. cbn [str list_ascii_of_string app].
  rewrite split_char_app, (@split_char_plain _ _ [] H). reflexivity.
Qed.

Lemma components_join (path : pystr) :
  join os_sep (components path) = path.
Proof.
  unfold components.
  apply (@join_split_scan os_sep) with (n := List.length path) (cur := []);
    [discriminate | lia].
Qed.

Lemma drop_last_app {A} (l tail : list A) :
  drop_last (List.length tail) (l ++ tail) = l.
Proof.
  unfold drop_last. rewrite length_app.
  replace (List.length l + List.length tail - List.length tail)
    with (List.length l + 0) by lia.
  rewrite firstn_app_2. simpl. apply app_nil_r.
Qed.

Lemma drop_last_one {A} (l : list A) (x : A) : drop_last 1 (l ++ [x]) = l.
Proof. apply (drop_last_app l [x]). Qed.

Lemma drop_last_two {A} (l : list A) (x y : A) :
  drop_last 2 (l ++ [x] ++ [y]) = l.
Proof. apply (drop_last_app l ([x] ++ [y])). Qed.

Lemma split_os_sep (path : pystr) :
  split path os_sep = Ok (components path).
Proof. reflexivity. Qed.

Lemma last_item_basename (path : pystr) :
  last_item (components path) = Ok (basename path).
Proof.
  unfold last_item, basename.
  pose proof (split_scan_length os_sep 0 [] path) as Hlen.
  fold (components path) in Hlen. rewrite <- length_rev in Hlen.
  destruct (rev (components path)); [discriminate | reflexivity].
Qed.

Lemma basename_app (root name : pystr) :
  no_sep name -> basename (root ++ os_sep ++ name) = name.
Proof.
  intros H. unfold basename. rewrite (@components_app _ _ H), rev_app_distr.
  reflexivity.
Qed.

Lemma default_output_dir_nested (root folder file : pystr) :
  no_sep folder -> no_sep file ->
  default_output_dir (root ++ os_sep ++ folder ++ os_sep ++ file)
  = os_path_join root _output_folder.
Proof.
  intros Hfolder Hfile. unfold default_output_dir.
  replace (root ++ os_sep ++ folder ++ os_sep ++ file)
    with ((root ++ os_sep ++ folder) ++ os_sep ++ file)
    by (now rewrite <- !app_assoc).
  rewrite (@components_app _ _ Hfile), (@components_app _ _ Hfolder).
  rewrite <- app_assoc.
  now rewrite drop_last_two, components_join.
Qed.

Lemma default_output_dir_short (path : pystr) :
  List.length (components path) <= 2 ->
  default_output_dir path = _output_folder.
Proof.
  intros H. unfold default_output_dir, drop_last.
  replace (List.length (components path) - 2) with 0 by lia.
  reflexivity.
Qed.

Lemma corpus_output_path_nested (parent name : pystr) :
  no_sep name ->
  corpus_output_path (parent ++ os_sep ++ name)
  = os_path_join parent (name ++ str "_" ++ _output_folder).
Proof.
  intros Hname. unfold corpus_output_path.
  rewrite (@basename_app _ _ Hname), (@components_app _ _ Hname).
  now rewrite drop_last_one, components_join.
Qed.

Lemma corpus_output_path_trailing (folder : pystr) :
  corpus_output_path (folder ++ os_sep)
  = os_path_join folder (str "_" ++ _output_folder).
Proof.
  unfold corpus_output_path.
  replace (folder ++ os_sep) with (folder ++ os_sep ++ [])
    by (now rewrite app_nil_r).
  assert (no_sep []) as Hnil by constructor.
  rewrite (@basename_app _ _ Hnil), (@components_app _ _ Hnil).
  now rewrite drop_last_one, components_join.
Qed.

Section WithOS.

Context {World : Type} {os : OS World}.

Lemma call_default (path : pystr) (w : World) :
  call path None w = call path (Some (default_output_dir path)) w.
Proof. reflexivity. Qed.

Lemma call_steps (path output_dir : pystr) (w : World) :
  call path (Some output_dir) w
  = match prepare output_dir path w with
    | (Raise e, w1) => (Raise e, w1)
    | (Ok text, w1) =>
        match scrub_text text with
        | Raise e => (Raise e, w1)
        | Ok preprocessed_text =>
            write_file (os_path_join output_dir (basename path))
              preprocessed_text w1
        end
    end.
Proof.
  unfold call, prepare, iobind, ret, lift, query.
  rewrite split_os_sep, last_item_basename.
  destruct (os_path_exists output_dir w); cbn [negb].
  - destruct (read_file path w) as [[text|e] w1]; [|reflexivity].
    destruct (scrub_text text); reflexivity.
  - destruct (os_mkdir output_dir w) as [[[]|e] w0]; [|reflexivity].
    destruct (read_file path w0) as [[text|e] w1]; [|reflexivity].
    destruct (scrub_text text); reflexivity.
Qed.

(** X17: [__call__] writes nothing unless the article was read and
    preprocessed: when the reading or the preprocessing raises,
    [__call__] raises the same exception and leaves the file system as
    the reading left it. *)
Theorem call_fails_before_writing (path output_dir : pystr) (w w1 : World)
  (r : result pystr) (e : exn) :
  prepare output_dir path w = (r, w1) ->
  (text <- r ;; scrub_text text) = Raise e ->
  call path (Some output_dir) w = (Raise e, w1).
Proof.
  intros Hprep Hfail. rewrite call_steps, Hprep.
  destruct r as [text|e']; cbn [bind] in Hfail.
  - now rewrite Hfail.
  - now injection Hfail as ->.
Qed.

(** X18: when the article is read and preprocessed, [__call__] writes the
    preprocessed text to the file of the same name in the output
    directory, and nothing else after the reading. *)
Theorem call_writes_same_name (dir file output_dir text out : pystr)
  (w w1 : World) :
  no_sep file ->
  prepare output_dir (dir ++ os_sep ++ file) w = (Ok text, w1) ->
  scrub_text text = Ok out ->
  call (dir ++ os_sep ++ file) (Some output_dir) w
  = write_file (os_path_join output_dir file) out w1.
Proof.
  intros Hfile Hprep Hout.
  now rewrite call_steps, Hprep, Hout, (@basename_app _ _ Hfile).
Qed.

(** X15: when no output directory is given, [__call__] on the article
    [root/folder/file] does what it does with the output directory
    [os.path.join(root, 'preprocessed')]; on a path of fewer than three
    components it does what it does with the relative directory
    ['preprocessed']. *)
Theorem call_default_directory (root folder file path : pystr) (w : World) :
  (no_sep folder -> no_sep file ->
   call (root ++ os_sep ++ folder ++ os_sep ++ file) None w
   = call (root ++ os_sep ++ folder ++ os_sep ++ file)
       (Some (os_path_join root _output_folder)) w)
  /\ (List.length (components path) <= 2 ->
      call path None w = call path (Some _output_folder) w).
Proof.
  split.
  - intros Hfolder Hfile.
    now rewrite call_default, (default_output_dir_nested root Hfolder Hfile).
  - intros H. now rewrite call_default, (default_output_dir_short _ H).
Qed.

Lemma for_each_app {A S} (xs ys : list A) (body : A -> S -> io World S)
  (s : S) (w : World) :
  for_each (xs ++ ys) body s w
  = match for_each xs body s w with
    | (Ok s', w') => for_each ys body s' w'
    | (Raise e, w') => (Raise e, w')
    end.
Proof.
  revert s w. induction xs as [|x xs IH]; intros s w; [reflexivity|].
  cbn [app for_each]. unfold iobind.
  destruct (body x s w) as [[s'|e] w']; [apply IH | reflexivity].
Qed.

Lemma scrub_pmc_into_corpus (pmc_folder : pystr) (w : World) :
  scrub_pmc pmc_folder w
  = scrub_pmc_into (corpus_output_path pmc_folder) pmc_folder w.
Proof.
  unfold scrub_pmc, scrub_pmc_into, iobind, lift, query_result.
  destruct (os_listdir pmc_folder w) as [names|e]; [|reflexivity].
  rewrite split_os_sep, last_item_basename. reflexivity.
Qed.

(** X19: the batch run is not isolated from the listing of a subfolder:
    when the listing of an entry of the corpus folder raises (a regular
    file among the subfolders, say), [scrub_pmc] raises that exception as
    soon as it reaches the entry; the entries after it are not visited and
    no summary is printed. *)
Theorem listing_error_aborts (pmc_folder : pystr) (before after : list pystr)
  (entry : pystr) (t : tally) (w w1 : World) (e : exn) :
  os_listdir pmc_folder w = Ok (before ++ entry :: after) ->
  for_each (map (os_path_join pmc_folder) before)
    (scrub_folder (corpus_output_path pmc_folder))
    (print LogHeader {| nScrubbed := 0; nFailed := 0; printed := [] |}) w
  = (Ok t, w1) ->
  os_listdir (os_path_join pmc_folder entry) w1 = Raise e ->
  scrub_pmc pmc_folder w = (Raise e, w1).
Proof.
  intros Hlist Hbefore Hentry.
  rewrite scrub_pmc_into_corpus.
  unfold scrub_pmc_into, iobind, query_result. rewrite Hlist.
  rewrite map_app, for_each_app, Hbefore.
  cbn [map for_each]. unfold iobind, scrub_folder, iobind, query_result.
  now rewrite Hentry.
Qed.

(** X16: [scrub_pmc] on the corpus folder [parent/name] is the batch run
    into the output directory
    [os.path.join(parent, name + '_preprocessed')], beside the corpus
    folder; on a corpus folder written with a trailing separator,
    [folder/], it is the batch run into [folder/_preprocessed], inside the
    corpus folder. *)
Theorem scrub_pmc_output_directory (parent name folder : pystr) (w : World) :
  (no_sep name ->
   scrub_pmc (parent ++ os_sep ++ name) w
   = scrub_pmc_into
       (os_path_join parent (name ++ str "_" ++ _output_folder))
       (parent ++ os_sep ++ name) w)
  /\ scrub_pmc (folder ++ os_sep) w
     = scrub_pmc_into (os_path_join folder (str "_" ++ _output_folder))
         (folder ++ os_sep) w.
Proof.
  split.
  - intros Hname.
    now rewrite scrub_pmc_into_corpus, (corpus_output_path_nested parent Hname).
  - now rewrite scrub_pmc_into_corpus, corpus_output_path_trailing.
Qed.

End WithOS.

Lemma call_fails_before_writing_witness :
  let path := str "/data/pmc/a/1.txt" in
  let output_dir := str "/data/pmc_preprocessed" in
  let text := str "====Licensed and credited.====Body.====refs" in
  let w1 := unscrubbable_corpus ++ [(output_dir, Dir true)] in
  prepare output_dir path unscrubbable_corpus = (Ok text, w1)
  /\ (text <- Ok text ;; scrub_text text) = Raise IndexError
  /\ call path (Some output_dir) unscrubbable_corpus = (Raise IndexError, w1).
Proof.
  cbv zeta.
  assert (prepare (str "/data/pmc_preprocessed") (str "/data/pmc/a/1.txt")
            unscrubbable_corpus
          = (Ok (str "====Licensed and credited.====Body.====refs"),
             unscrubbable_corpus
             ++ [(str "/data/pmc_preprocessed", Dir true)])) as H1
      by reflexivity.
  assert ((text <- Ok (str "====Licensed and credited.====Body.====refs") ;;
           scrub_text text) = Raise IndexError) as H2 by reflexivity.
  split; [exact H1|]. split; [exact H2|].
  exact (@call_fails_before_writing memfs memfs_os _ _ _ _ _ _ H1 H2).
Defined.

Lemma call_writes_same_name_witness :
  let dir := str "/data/pmc/a" in
  let file := str "1.txt" in
  let output_dir := str "/data/pmc_preprocessed" in
  let text := str "x====Title.====Body [1] text!====refs" in
  let out := str "Title." ++ [nl] ++ str "Body text." in
  let w1 := example_corpus ++ [(output_dir, Dir true)] in
  no_sep file
  /\ prepare output_dir (dir ++ os_sep ++ file) example_corpus = (Ok text, w1)
  /\ scrub_text text = Ok out
  /\ call (dir ++ os_sep ++ file) (Some output_dir) example_corpus
     = write_file (os_path_join output_dir file) out w1.
Proof.
  cbv zeta.
  assert (no_sep (str "1.txt")) as H0 by (repeat constructor).
  assert (prepare (str "/data/pmc_preprocessed")
            (str "/data/pmc/a" ++ os_sep ++ str "1.txt") example_corpus
          = (Ok (str "x====Title.====Body [1] text!====refs"),
             example_corpus ++ [(str "/data/pmc_preprocessed", Dir true)]))
    as H1 by reflexivity.
  assert (scrub_text (str "x====Title.====Body [1] text!====refs")
          = Ok (str "Title." ++ [nl] ++ str "Body text.")) as H2
      by reflexivity.
  split; [exact H0|]. split; [exact H1|]. split; [exact H2|].
  exact (@call_writes_same_name memfs memfs_os _ _ _ _ _ _ _ H0 H1 H2).
Defined.

Lemma call_default_directory_witness :
  let root := str "/data/pmc" in
  let folder := str "a" in
  let file := str "1.txt" in
  let path := str "a/1.txt" in
  no_sep folder /\ no_sep file
  /\ call (root ++ os_sep ++ folder ++ os_sep ++ file) None example_corpus
     = call (root ++ os_sep ++ folder ++ os_sep ++ file)
         (Some (os_path_join root _output_folder)) example_corpus
  /\ List.length (components path) <= 2
  /\ call path None example_corpus
     = call path (Some _output_folder) example_corpus.
Proof.
  cbv zeta.
  assert (no_sep (str "a")) as H1 by (repeat constructor).
  assert (no_sep (str "1.txt")) as H2 by (repeat constructor).
  assert (List.length (components (str "a/1.txt")) <= 2) as H3
      by (vm_compute; lia).
  destruct (@call_default_directory memfs memfs_os (str "/data/pmc") (str "a")
              (str "1.txt") (str "a/1.txt") example_corpus) as [Ha Hb].
  split; [exact H1|]. split; [exact H2|]. split; [exact (Ha H1 H2)|].
  split; [exact H3 | exact (Hb H3)].
Defined.

Lemma scrub_pmc_output_directory_witness :
  no_sep (str "pmc")
  /\ scrub_pmc (str "/data" ++ os_sep ++ str "pmc") example_corpus
     = scrub_pmc_into
         (os_path_join (str "/data") (str "pmc" ++ str "_" ++ _output_folder))
         (str "/data" ++ os_sep ++ str "pmc") example_corpus.
Proof.
  assert (no_sep (str "pmc")) as H by (repeat constructor).
  split; [exact H|].
  exact (proj1 (@scrub_pmc_output_directory memfs memfs_os (str "/data")
                  (str "pmc") [] example_corpus) H).
Defined.

Lemma listing_error_aborts_witness :
  let pmc_folder := str "/data/pmc" in
  let t := {| nScrubbed := 1;
              nFailed := 0;
              printed := [ LogHeader;
                           LogStarted (str "/data/pmc/a");
                           LogSuccess (str "/data/pmc/a/1.txt") ] |} in
  let w1 :=
    snd (for_each (map (os_path_join pmc_folder) [str "a"])
           (scrub_folder (corpus_output_path pmc_folder))
           (print LogHeader {| nScrubbed := 0; nFailed := 0; printed := [] |})
           stray_corpus) in
  os_listdir pmc_folder stray_corpus
  = Ok ([str "a"] ++ str "README" :: [str "b"])
  /\ for_each (map (os_path_join pmc_folder) [str "a"])
       (scrub_folder (corpus_output_path pmc_folder))
       (print LogHeader {| nScrubbed := 0; nFailed := 0; printed := [] |})
       stray_corpus
     = (Ok t, w1)
  /\ os_listdir (os_path_join pmc_folder (str "README")) w1
     = Raise NotADirectoryError
  /\ scrub_pmc pmc_folder stray_corpus = (Raise NotADirectoryError, w1).
Proof.
  cbv zeta.
  set (w1 := snd _).
  assert (os_listdir (str "/data/pmc") stray_corpus
          = Ok ([str "a"] ++ str "README" :: [str "b"])) as H1
      by reflexivity.
  assert (for_each (map (os_path_join (str "/data/pmc")) [str "a"])
            (scrub_folder (corpus_output_path (str "/data/pmc")))
            (print LogHeader
               {| nScrubbed := 0; nFailed := 0; printed := [] |})
            stray_corpus
          = (Ok {| nScrubbed := 1;
                   nFailed := 0;
                   printed := [ LogHeader;
                                LogStarted (str "/data/pmc/a");
                                LogSuccess (str "/data/pmc/a/1.txt") ] |},
             w1)) as H2 by (vm_compute; reflexivity).
  assert (os_listdir (os_path_join (str "/data/pmc") (str "README")) w1
          = Raise NotADirectoryError) as H3 by (vm_compute; reflexivity).
  split; [exact H1|]. split; [exact H2|]. split; [exact H3|].
  exact (@listing_error_aborts memfs memfs_os _ _ _ _ _ _ _ _ H1 H2 H3).
Defined.

End BatchMore.

(** ** What a match replaces *)

Module SpanFacts.
Import Py Re Scrubber Spec SpecMore CharFacts ReFacts NormalizeFacts
  PatternFacts ReMore PassFacts.

(** *** The scan around a match *)

Lemma sub_scan_prefix r repl (first : ascii -> bool) (pre s : pystr) :
  (forall c s', first c = false -> match_at r (c :: s') = None) ->
  Forall (fun c => first c = false) pre ->
  sub_scan r repl 0 (pre ++ s) = pre ++ sub_scan r repl 0 s.
Proof.
  intros Hfirst Hpre. induction Hpre as [|c pre Hc _ IH]; [reflexivity|].
  cbn [app sub_scan]. rewrite (Hfirst c (pre ++ s) Hc). now rewrite IH.
Qed.

Lemma sub_scan_skip r repl n (s : pystr) :
  n <= List.length s ->
  sub_scan r repl n s = sub_scan r repl 0 (skipn n s).
Proof.
  revert s. induction n as [|n IH]; intros s Hn; [reflexivity|].
  destruct s as [|c s]; [simpl in Hn; lia|].
  cbn [sub_scan skipn]. apply IH. simpl in Hn. lia.
Qed.

(** One match at the start of [s], after a prefix where no match can
    start: the match is replaced and the scan goes on behind it. *)
Lemma sub_one_match r repl (first : ascii -> bool) (pre s : pystr) n :
  (forall c s', first c = false -> match_at r (c :: s') = None) ->
  Forall (fun c => first c = false) pre ->
  match_at r s = Some (S n) ->
  sub r repl (pre ++ s) = pre ++ repl ++ sub r repl (skipn (S n) s).
Proof.
  intros Hfirst Hpre Hmatch. unfold sub.
  rewrite (@sub_scan_prefix r repl first pre s Hfirst Hpre). f_equal.
  pose proof (@match_at_bound _ _ _ Hmatch) as Hb.
  destruct s as [|c s]; [simpl in Hb; lia|].
  cbn [sub_scan]. rewrite Hmatch. f_equal.
  cbn [skipn]. apply sub_scan_skip. simpl in Hb. lia.
Qed.

(** *** Citations *)

Lemma run_digits (digits rest : pystr) (c : ascii) :
  Forall (fun d => isdigit d = true) digits ->
  isdigit c = false ->
  run isdigit (digits ++ c :: rest) = List.length digits.
Proof.
  intros Hd Hc. induction Hd as [|d digits Hd _ IH]; simpl.
  - now rewrite Hc.
  - now rewrite Hd, IH.
Qed.

Lemma digit_group_at_shape (o c : ascii) (digits rest : pystr) :
  digits <> [] ->
  Forall (fun d => isdigit d = true) digits ->
  isdigit c = false ->
  digit_group_at o c (o :: digits ++ c :: rest) = true.
Proof.
  intros Hne Hd Hc. unfold digit_group_at.
  rewrite Ascii.eqb_refl, (@run_digits digits rest c Hd Hc).
  rewrite nth_error_app2, Nat.sub_diag by lia. cbn [nth_error].
  rewrite Ascii.eqb_refl. destruct digits; [contradiction | reflexivity].
Qed.

Lemma citation_replaced (o c : ascii) (pre digits post : pystr) :
  (o = "["%char /\ c = "]"%char) \/ (o = "("%char /\ c = ")"%char) ->
  Forall (fun x => Ascii.eqb "[" x || Ascii.eqb "(" x = false) pre ->
  digits <> [] ->
  Forall (fun d => isdigit d = true) digits ->
  remove_citing (pre ++ o :: digits ++ c :: post)
  = pre ++ " "%char :: remove_citing post.
Proof.
  intros Hoc Hpre Hne Hd.
  assert (isdigit c = false) as Hc by (destruct Hoc as [[_ ->]|[_ ->]]; reflexivity).
  assert (match_at citing_re (o :: digits ++ c :: post)
          = Some (S (S (List.length digits)))) as Hmatch.
  { rewrite citing_match_exact. cbn [tl].
    rewrite (@run_digits digits post c Hd Hc).
    pose proof (@digit_group_at_shape o c digits post Hne Hd Hc) as Hg.
    destruct Hoc as [[-> ->]|[-> ->]]; rewrite Hg; rewrite ?orb_true_r;
      cbn [orb]; f_equal; lia. }
  unfold remove_citing.
  rewrite (@sub_one_match citing_re (str " ")
             (fun x => Ascii.eqb "[" x || Ascii.eqb "(" x) pre
             (o :: digits ++ c :: post) (S (List.length digits)));
    [| | exact Hpre | exact Hmatch].
  - assert (skipn (S (S (List.length digits))) (o :: digits ++ c :: post)
            = post) as ->.
    { rewrite skipn_cons, skipn_app, skipn_all2 by lia.
      replace (S (List.length digits) - List.length digits) with 1 by lia.
      reflexivity. }
    reflexivity.
  - intros x s' Hx. apply orb_false_elim in Hx. destruct Hx as [H1 H2].
    unfold match_at, citing_re, lit. cbn [match_k]. now rewrite H1, H2.
Qed.

(** X20: a bracketed or parenthesized run of digits, after a text in which
    no bracket and no parenthesis opens, is replaced by exactly one space,
    and the scan goes on behind it. *)
Theorem remove_citing_replaces_marker (pre digits post : pystr) :
  Forall (fun x => Ascii.eqb "[" x || Ascii.eqb "(" x = false) pre ->
  digits <> [] ->
  Forall (fun d => isdigit d = true) digits ->
  remove_citing (pre ++ str "[" ++ digits ++ str "]" ++ post)
  = pre ++ str " " ++ remove_citing post
  /\ remove_citing (pre ++ str "(" ++ digits ++ str ")" ++ post)
     = pre ++ str " " ++ remove_citing post.
Proof.
  intros Hpre Hne Hd. split.
  - apply (@citation_replaced "[" "]"); auto.
  - apply (@citation_replaced "(" ")"); auto.
Qed.

Lemma remove_citing_replaces_marker_witness :
  let pre := str "Results " in
  let digits := str "12" in
  let post := str " show (3) growth" in
  Forall (fun x => Ascii.eqb "[" x || Ascii.eqb "(" x = false) pre
  /\ digits <> []
  /\ Forall (fun d => isdigit d = true) digits
  /\ remove_citing (pre ++ str "[" ++ digits ++ str "]" ++ post)
     = pre ++ str " " ++ remove_citing post
  /\ remove_citing (pre ++ str "(" ++ digits ++ str ")" ++ post)
     = pre ++ str " " ++ remove_citing post.
Proof.
  cbv zeta.
  assert (Forall (fun x => Ascii.eqb "[" x || Ascii.eqb "(" x = false)
            (str "Results ")) as H1 by (repeat constructor).
  assert (str "12" <> []) as H2 by discriminate.
  assert (Forall (fun d => isdigit d = true) (str "12")) as H3
      by (repeat constructor).
  split; [exact H1|]. split; [exact H2|]. split; [exact H3|].
  exact (@remove_citing_replaces_marker _ _ (str " show (3) growth") H1 H2 H3).
Defined.

(** *** References *)

Lemma refs_re_parts : refs_re = Seq (lit "(") inside_re.
Proof. reflexivity. Qed.

Lemma run_app_all p (x y : pystr) :
  Forall (fun c => p c = true) x ->
  run p (x ++ y) = List.length x + run p y.
Proof.
  intros H. induction H as [|c x Hc _ IH]; [reflexivity|].
  cbn [app run List.length]. now rewrite Hc, IH.
Qed.

Lemma run_app_stop p (x r : pystr) c :
  p c = false -> run p (x ++ c :: r) = run p x.
Proof.
  intros Hc. induction x as [|a x IH]; simpl; [now rewrite Hc|].
  destruct (p a); [now rewrite IH | reflexivity].
Qed.

Lemma run_le_length p (x : pystr) : run p x <= List.length x.
Proof.
  induction x as [|a x IH]; simpl; [lia|]. destruct (p a); lia.
Qed.

Lemma Forall_skipn {A} (P : A -> Prop) n (l : list A) :
  Forall P l -> Forall P (skipn n l).
Proof.
  intros H. revert n. induction H as [|a l Ha Hl IH]; intros [|n];
    cbn [skipn]; [constructor | constructor | now constructor | apply IH].
Qed.

Lemma skipn_app_inside {A} n (x y : list A) :
  n <= List.length x -> skipn n (x ++ y) = skipn n x ++ y.
Proof.
  intros H. rewrite skipn_app.
  replace (n - List.length x) with 0 by lia. reflexivity.
Qed.

Lemma skipn_app_beyond {A} n (x y : list A) :
  List.length x <= n -> skipn n (x ++ y) = skipn (n - List.length x) y.
Proof.
  intros H. rewrite skipn_app, skipn_all2 by lia. reflexivity.
Qed.

(** On a line without closing parenthesis the end of the pattern does not
    match. *)
Lemma close_fails (post : pystr) :
  line_free post = true ->
  match_k close_re post (fun _ => Some 0) = None.
Proof.
  unfold close_re, lit. cbn [match_k].
  induction post as [|c post IH]; cbn [line_free star_match]; [reflexivity|].
  unfold dot at 1. rewrite (Ascii.eqb_sym ")" c).
  destruct (Ascii.eqb c nl) eqn:En.
  - intros _. cbn [negb]. apply eqb_eq_char in En. subst c. reflexivity.
  - intros H. apply andb_prop in H. destruct H as [H Hpost].
    apply andb_prop in H. destruct H as [Hc _].
    apply negb_true_iff in Hc. cbn [negb]. rewrite (IH Hpost), Hc.
    reflexivity.
Qed.

(** The end of the pattern goes to the last closing parenthesis of the
    line. *)
Lemma close_match (x post : pystr) :
  Forall (fun c => dot c = true) x ->
  line_free post = true ->
  match_k close_re (x ++ ")"%char :: post) (fun _ => Some 0)
  = Some (List.length x + 1).
Proof.
  intros Hx Hpost. pose proof (close_fails post Hpost) as Hfail.
  unfold close_re, lit in *. cbn [match_k] in *.
  induction Hx as [|c x Hc _ IH]; cbn [app star_match List.length].
  - change (dot ")") with true. cbv iota. rewrite Hfail.
    now rewrite Ascii.eqb_refl.
  - now rewrite Hc, IH.
Qed.

Lemma year_match (x post : pystr) m :
  Forall (fun c => dot c = true) x ->
  line_free post = true ->
  match_k year_re (x ++ ")"%char :: post) (fun _ => Some 0) = Some m ->
  m = List.length x + 1.
Proof.
  intros Hx Hpost. unfold year_re. cbn [match_k]. intros H.
  apply chr_some_len in H. destruct H as (d1 & r1 & m1 & E1 & Hd1 & H & ->).
  destruct x as [|a1 x]; cbn [app] in E1; injection E1 as <- <-;
    [discriminate Hd1|].
  apply chr_some_len in H. destruct H as (d2 & r2 & m2 & E2 & Hd2 & H & ->).
  destruct x as [|a2 x]; cbn [app] in E2; injection E2 as <- <-;
    [discriminate Hd2|].
  apply chr_some_len in H. destruct H as (d3 & r3 & m3 & E3 & Hd3 & H & ->).
  destruct x as [|a3 x]; cbn [app] in E3; injection E3 as <- <-;
    [discriminate Hd3|].
  apply chr_some_len in H. destruct H as (d4 & r4 & m4 & E4 & Hd4 & H & ->).
  destruct x as [|a4 x]; cbn [app] in E4; injection E4 as <- <-;
    [discriminate Hd4|].
  rewrite close_match in H; [|exact (@Forall_skipn _ _ 4 _ Hx) | exact Hpost].
  injection H as <-. simpl. lia.
Qed.

Lemma space_year_match (x post : pystr) m :
  Forall (fun c => dot c = true) x ->
  line_free post = true ->
  match_k space_year_re (x ++ ")"%char :: post) (fun _ => Some 0) = Some m ->
  m = List.length x + 1.
Proof.
  intros Hx Hpost. unfold space_year_re. cbn [match_k].
  rewrite star_match_max.
  - rewrite run_app_stop by reflexivity.
    pose proof (run_le_length isspace x) as Hrun.
    rewrite skipn_app_inside by exact Hrun.
    destruct (match_k year_re _ _) as [m'|] eqn:E; [|discriminate].
    apply year_match in E; [|now apply Forall_skipn | exact Hpost].
    intros H. injection H as <-. rewrite E, length_skipn. lia.
  - intros c s' Hc. unfold year_re. cbn [match_k].
    now rewrite (digit_not_space _ Hc).
Qed.

Lemma comma_match (x post : pystr) m :
  Forall (fun c => dot c = true) x ->
  line_free post = true ->
  match_k comma_re (x ++ ")"%char :: post) (fun _ => Some 0) = Some m ->
  m = List.length x + 1.
Proof.
  intros Hx Hpost. unfold comma_re, lit. cbn [match_k]. intros H.
  apply chr_some_len in H. destruct H as (c & r & m1 & E & Hc & H & ->).
  destruct x as [|a x]; cbn [app] in E; injection E as <- <-;
    [discriminate Hc|].
  apply space_year_match in H; [|now inversion Hx | exact Hpost].
  simpl. lia.
Qed.

Lemma no_comma_on_line (post : pystr) j t :
  line_free post = true -> j <= run dot post ->
  skipn j post <> ","%char :: t.
Proof.
  revert j. induction post as [|c post IH]; intros j Hfree Hj.
  - destruct j; discriminate.
  - cbn [line_free] in Hfree. cbn [run] in Hj. unfold dot at 1 in Hj.
    destruct (Ascii.eqb c nl) eqn:En; cbn [negb] in Hj.
    + assert (j = 0) as -> by lia. cbn [skipn]. intros H.
      injection H as -> _. discriminate En.
    + apply andb_prop in Hfree. destruct Hfree as [H Hpost].
      apply andb_prop in H. destruct H as [_ Hc].
      destruct j as [|j]; cbn [skipn].
      * intros H. injection H as -> _. discriminate Hc.
      * apply IH; [exact Hpost | lia].
Qed.

Lemma inside_match (x post : pystr) m :
  Forall (fun c => dot c = true) x ->
  line_free post = true ->
  match_k inside_re (x ++ ")"%char :: post) (fun _ => Some 0) = Some m ->
  m = List.length x + 1.
Proof.
  intros Hx Hpost. unfold inside_re. cbn [match_k]. intros H.
  apply star_match_some_len in H. destruct H as (j & m1 & Hj & H & ->).
  destruct (le_lt_dec j (List.length x)) as [Hle|Hgt].
  - rewrite skipn_app_inside in H by exact Hle.
    apply comma_match in H; [|now apply Forall_skipn | exact Hpost].
    rewrite length_skipn in H. lia.
  - exfalso. rewrite (run_app_all _ _ Hx) in Hj. cbn [run] in Hj.
    change (dot ")") with true in Hj. cbv iota in Hj.
    rewrite skipn_app_beyond in H by lia.
    destruct (j - List.length x) as [|j'] eqn:Ej; [lia|].
    cbn [skipn] in H. unfold comma_re, lit in H. cbn [match_k] in H.
    apply chr_some_len in H. destruct H as (c & r & m2 & E & Hc & _).
    apply eqb_eq_char in Hc. subst c.
    apply (@no_comma_on_line post j' r Hpost); [lia | exact E].
Qed.

(** A reference goes from its opening parenthesis to the last closing
    parenthesis of the line. *)
Lemma refs_match_span (mid post : pystr) :
  Forall (fun c => dot c = true) mid ->
  line_free post = true ->
  reference_at ("("%char :: mid ++ ")"%char :: post) = true ->
  match_at refs_re ("("%char :: mid ++ ")"%char :: post)
  = Some (S (List.length mid + 1)).
Proof.
  intros Hmid Hpost Href. apply refs_match_complete in Href.
  destruct (match_at refs_re _) as [n|] eqn:E; [|contradiction].
  f_equal. unfold match_at in E. rewrite refs_re_parts in E.
  unfold lit at 1 in E. cbn [match_k] in E. rewrite Ascii.eqb_refl in E.
  destruct (match_k inside_re _ _) as [m|] eqn:H; [|discriminate].
  injection E as <-. f_equal.
  now apply inside_match in H.
Qed.

(** X21: when a parenthesis opens after a text without parentheses, and a
    comma followed by a four-digit year stands between it and the last
    closing parenthesis of the line, [remove_refs] replaces everything
    from the opening parenthesis to that last closing parenthesis by one
    space, whatever else stands in between, and goes on behind it. *)
Theorem remove_refs_replaces_span (pre mid post : pystr) :
  Forall (fun c => Ascii.eqb "(" c = false) pre ->
  Forall (fun c => dot c = true) mid ->
  line_free post = true ->
  reference_at (str "(" ++ mid ++ str ")" ++ post) = true ->
  remove_refs (pre ++ str "(" ++ mid ++ str ")" ++ post)
  = pre ++ str " " ++ remove_refs post.
Proof.
  intros Hpre Hmid Hpost Href.
  change (str "(" ++ mid ++ str ")" ++ post)
    with ("("%char :: mid ++ ")"%char :: post) in *.
  pose proof (@refs_match_span mid post Hmid Hpost Href) as Hmatch.
  unfold remove_refs.
  rewrite (@sub_one_match refs_re (str " ") (Ascii.eqb "(") pre
             ("("%char :: mid ++ ")"%char :: post) (List.length mid + 1));
    [| | exact Hpre | exact Hmatch].
  - assert (skipn (S (List.length mid + 1))
              ("("%char :: mid ++ ")"%char :: post) = post) as ->.
    { rewrite skipn_cons, skipn_app, skipn_all2 by lia.
      replace (List.length mid + 1 - List.length mid) with 1 by lia.
      reflexivity. }
    reflexivity.
  - intros c s' Hc. unfold match_at, refs_re, lit. cbn [match_k].
    now rewrite Hc.
Qed.

Lemma remove_refs_replaces_span_witness :
  let pre := str "a " in
  let mid := str "b) c (Doe, 2021) d (e" in
  let post := str " f" in
  Forall (fun c => Ascii.eqb "(" c = false) pre
  /\ Forall (fun c => dot c = true) mid
  /\ line_free post = true
  /\ reference_at (str "(" ++ mid ++ str ")" ++ post) = true
  /\ remove_refs (pre ++ str "(" ++ mid ++ str ")" ++ post)
     = pre ++ str " " ++ remove_refs post.
Proof.
  cbv zeta.
  assert (Forall (fun c => Ascii.eqb "(" c = false) (str "a ")) as H1
      by (repeat constructor).
  assert (Forall (fun c => dot c = true) (str "b) c (Doe, 2021) d (e")) as H2
      by (repeat constructor).
  assert (line_free (str " f") = true) as H3 by reflexivity.
  assert (reference_at (str "(" ++ str "b) c (Doe, 2021) d (e" ++ str ")"
                        ++ str " f") = true) as H4 by reflexivity.
  split; [exact H1|]. split; [exact H2|]. split; [exact H3|].
  split; [exact H4|].
  exact (@remove_refs_replaces_span _ _ _ H1 H2 H3 H4).
Defined.

End SpanFacts.

(** ** The list elements of the API wrapper *)

Module GptFacts.
Import Py Re Spec Gpt CharFacts SpanFacts.

(** *** Stripping *)

Lemma lstrip_spaces (ws s : pystr) :
  Forall (fun c => isspace c = true) ws -> lstrip (ws ++ s) = lstrip s.
Proof.
  intros H. induction H as [|c ws Hc _ IH]; [reflexivity|].
  cbn [app lstrip]. now rewrite Hc.
Qed.

Lemma lstrip_app (s ws : pystr) :
  lstrip s <> [] -> lstrip (s ++ ws) = lstrip s ++ ws.
Proof.
  induction s as [|c s IH]; cbn [app lstrip]; [contradiction|].
  destruct (isspace c); [exact IH | reflexivity].
Qed.

Lemma lstrip_all_spaces (s : pystr) :
  lstrip s = [] -> Forall (fun c => isspace c = true) s.
Proof.
  induction s as [|c s IH]; cbn [lstrip]; [constructor|].
  destruct (isspace c) eqn:E; [|discriminate]. intros H. auto.
Qed.

Lemma rstrip_spaces (s ws : pystr) :
  Forall (fun c => isspace c = true) ws -> rstrip (s ++ ws) = rstrip s.
Proof.
  intros H. unfold rstrip. rewrite rev_app_distr, lstrip_spaces;
    [reflexivity|].
  apply Forall_forall. intros c Hc. apply in_rev in Hc.
  rewrite Forall_forall in H. auto.
Qed.

(** White space around a text does not change what [strip] gives. *)
Lemma strip_surrounded (ws1 s ws2 : pystr) :
  Forall (fun c => isspace c = true) ws1 ->
  Forall (fun c => isspace c = true) ws2 ->
  strip (ws1 ++ s ++ ws2) = strip s.
Proof.
  intros H1 H2. unfold strip. rewrite (lstrip_spaces _ H1).
  destruct (lstrip s) as [|c t] eqn:E.
  - apply lstrip_all_spaces in E.
    rewrite (lstrip_spaces ws2 E), <- (app_nil_r ws2), (lstrip_spaces [] H2).
    reflexivity.
  - rewrite lstrip_app by (rewrite E; discriminate).
    rewrite E. apply (rstrip_spaces _ H2).
Qed.

Lemma lstrip_keeps (P : ascii -> Prop) (s : pystr) :
  Forall P s -> Forall P (lstrip s).
Proof.
  intros H. induction H as [|c s Hc Hs IH]; cbn [lstrip]; [constructor|].
  destruct (isspace c); [exact IH | now constructor].
Qed.

Lemma strip_keeps (P : ascii -> Prop) (s : pystr) :
  Forall P s -> Forall P (strip s).
Proof.
  intros H. unfold strip, rstrip.
  apply Forall_rev, lstrip_keeps, Forall_rev, lstrip_keeps, H.
Qed.

(** *** Matches of the index pattern *)

Lemma star_match_r_max {R} (bump : R -> R) p k (s : pystr) :
  (forall c s', p c = true -> k (c :: s') = None) ->
  star_match_r bump p s k
  = option_map (Nat.iter (run p s) bump) (k (skipn (run p s) s)).
Proof.
  intros Hk. induction s as [|c s IH]; cbn [star_match_r run].
  - simpl. destruct (k []); reflexivity.
  - destruct (p c) eqn:Hc.
    + rewrite IH. change (skipn (S (run p s)) (c :: s)) with (skipn (run p s) s).
      destruct (k (skipn (run p s) s)) as [n|]; simpl;
        [reflexivity | apply Hk, Hc].
    + simpl. destruct (k (c :: s)); reflexivity.
Qed.

Lemma star_match_r_end {R} (bump : R -> R) p (s : pystr) (r0 : R) :
  star_match_r bump p s (fun _ => Some r0)
  = Some (Nat.iter (run p s) bump r0).
Proof.
  induction s as [|c s IH]; cbn [star_match_r run]; [reflexivity|].
  destruct (p c); [rewrite IH|]; reflexivity.
Qed.

Lemma iter_total n (t g : nat) :
  Nat.iter n (fun tg : nat * nat => (S (fst tg), snd tg)) (t, g) = (n + t, g).
Proof. induction n as [|n IH]; simpl; [reflexivity|]. now rewrite IH. Qed.

Lemma iter_group n :
  Nat.iter n (fun tg : nat * nat => (S (fst tg), S (snd tg))) (0, 0) = (n, n).
Proof. induction n as [|n IH]; simpl; [reflexivity|]. now rewrite IH. Qed.

Lemma run_all p (s : pystr) :
  Forall (fun c => p c = true) s -> run p s = List.length s.
Proof.
  intros H. induction H as [|c s Hc _ IH]; [reflexivity|].
  cbn [run List.length]. now rewrite Hc, IH.
Qed.

(** No match of the index pattern starts on a character that is not a
    digit. *)
Lemma index_needs_digit (c : ascii) (s : pystr) :
  isdigit c = false -> match_group index_re (Star dot) (c :: s) = None.
Proof.
  intros Hc. unfold match_group, index_re, plus. cbn [match_kr].
  now rewrite Hc.
Qed.

(** The match of the index pattern on an index, a period, a space and the
    rest of the line. *)
Lemma index_match (d : ascii) (digits rest : pystr) :
  isdigit d = true ->
  Forall (fun c => isdigit c = true) digits ->
  Forall (fun c => dot c = true) rest ->
  match_group index_re (Star dot)
    (d :: digits ++ "."%char :: " "%char :: rest)
  = Some (S (List.length digits + 2 + List.length rest), List.length rest).
Proof.
  intros Hd Hdigits Hrest. unfold match_group, index_re, plus, lit.
  cbn [match_kr]. rewrite Hd.
  rewrite star_match_r_max.
  - rewrite (@run_digits digits (" "%char :: rest) "."%char Hdigits eq_refl).
    rewrite skipn_app, skipn_all, Nat.sub_diag. cbn [app skipn].
    change (Ascii.eqb "." ".") with true. change (Ascii.eqb " " " ") with true.
    cbv iota. rewrite star_match_r_end, (run_all _ Hrest), iter_group.
    cbn [option_map fst snd]. rewrite iter_total. cbn [fst snd].
    do 2 f_equal. lia.
  - intros c s' Hc.
    destruct (Ascii.eqb "." c) eqn:E; [|reflexivity].
    apply eqb_eq_char in E. subst c. discriminate Hc.
Qed.

Lemma sub_group_prefix (before group : regex) (first : ascii -> bool)
  (pre s : pystr) :
  (forall c s', first c = false -> match_group before group (c :: s') = None) ->
  Forall (fun c => first c = false) pre ->
  sub_group_scan before group 0 (pre ++ s)
  = pre ++ sub_group_scan before group 0 s.
Proof.
  intros Hfirst Hpre. induction Hpre as [|c pre Hc _ IH]; [reflexivity|].
  cbn [app sub_group_scan]. rewrite (Hfirst c (pre ++ s) Hc). now rewrite IH.
Qed.

Lemma sub_group_skip_all (before group : regex) (s : pystr) :
  sub_group_scan before group (List.length s) s = [].
Proof. induction s as [|c s IH]; [reflexivity | exact IH]. Qed.

Lemma sub_group_index (pre digits rest : pystr) :
  Forall (fun c => isdigit c = false) pre ->
  digits <> [] ->
  Forall (fun c => isdigit c = true) digits ->
  Forall (fun c => dot c = true) rest ->
  sub_group index_re (Star dot) (pre ++ digits ++ str ". " ++ rest)
  = pre ++ rest.
Proof.
  intros Hpre Hne Hdigits Hrest. unfold sub_group.
  rewrite (@sub_group_prefix index_re (Star dot) isdigit pre _
             index_needs_digit Hpre).
  f_equal. destruct digits as [|d digits]; [contradiction|].
  inversion Hdigits as [|? ? Hd Hds]; subst.
  change ((d :: digits) ++ str ". " ++ rest)
    with (d :: digits ++ "."%char :: " "%char :: rest).
  cbn [sub_group_scan]. rewrite (@index_match d digits rest Hd Hds Hrest).
  replace (S (List.length digits + 2 + List.length rest) - List.length rest)
    with (S (List.length digits + 2)) by lia.
  replace (List.length digits + 2 + List.length rest)
    with (List.length (digits ++ "."%char :: " "%char :: rest))
    by (rewrite length_app; simpl; lia).
  rewrite sub_group_skip_all, app_nil_r.
  rewrite skipn_cons, skipn_app, skipn_all2 by lia.
  replace (List.length digits + 2 - List.length digits) with 2 by lia.
  cbn [skipn app]. apply firstn_all.
Qed.

(** X22: [scrub_elem] ignores the white space around the element and
    drops the first index of the line, a run of digits followed by a
    period and a space, wherever it stands after a part without digits,
    not only at the beginning; the rest of the line is kept as it is. *)
Theorem scrub_elem_drops_index (ws1 ws2 pre digits rest : pystr) :
  Forall (fun c => isspace c = true) ws1 ->
  Forall (fun c => isspace c = true) ws2 ->
  strip (pre ++ digits ++ str ". " ++ rest)
  = pre ++ digits ++ str ". " ++ rest ->
  Forall (fun c => isdigit c = false) pre ->
  digits <> [] ->
  Forall (fun c => isdigit c = true) digits ->
  Forall (fun c => dot c = true) rest ->
  scrub_elem (ws1 ++ (pre ++ digits ++ str ". " ++ rest) ++ ws2)
  = pre ++ rest.
Proof.
  intros H1 H2 Hstrip Hpre Hne Hdigits Hrest. unfold scrub_elem.
  rewrite (strip_surrounded _ H1 H2), Hstrip.
  now apply sub_group_index.
Qed.

Lemma scrub_elem_drops_index_witness :
  let ws1 := str " " in
  let ws2 := str " " in
  let pre := str "Top " in
  let digits := str "10" in
  let rest := str "Football 1. League" in
  Forall (fun c => isspace c = true) ws1
  /\ Forall (fun c => isspace c = true) ws2
  /\ strip (pre ++ digits ++ str ". " ++ rest)
     = pre ++ digits ++ str ". " ++ rest
  /\ Forall (fun c => isdigit c = false) pre
  /\ digits <> []
  /\ Forall (fun c => isdigit c = true) digits
  /\ Forall (fun c => dot c = true) rest
  /\ scrub_elem (ws1 ++ (pre ++ digits ++ str ". " ++ rest) ++ ws2)
     = pre ++ rest.
Proof.
  cbv zeta.
  assert (Forall (fun c => isspace c = true) (str " ")) as H1
      by (repeat constructor).
  assert (strip (str "Top " ++ str "10" ++ str ". "
                 ++ str "Football 1. League")
          = str "Top " ++ str "10" ++ str ". " ++ str "Football 1. League")
    as H3 by reflexivity.
  assert (Forall (fun c => isdigit c = false) (str "Top ")) as H4
      by (repeat constructor).
  assert (str "10" <> []) as H5 by discriminate.
  assert (Forall (fun c => isdigit c = true) (str "10")) as H6
      by (repeat constructor).
  assert (Forall (fun c => dot c = true) (str "Football 1. League")) as H7
      by (repeat constructor).
  split; [exact H1|]. split; [exact H1|]. split; [exact H3|].
  split; [exact H4|]. split; [exact H5|]. split; [exact H6|].
  split; [exact H7|].
  exact (@scrub_elem_drops_index _ _ _ _ _ H1 H1 H3 H4 H5 H6 H7).
Defined.

(** X23: on an element without digits [scrub_elem] only strips the white
    space around it. *)
Theorem scrub_elem_without_digits (elem : pystr) :
  Forall (fun c => isdigit c = false) elem ->
  scrub_elem elem = strip elem.
Proof.
  intros H. unfold scrub_elem, sub_group.
  apply strip_keeps in H.
  rewrite <- (app_nil_r (strip elem)) at 1.
  rewrite (@sub_group_prefix index_re (Star dot) isdigit (strip elem) []
             index_needs_digit H).
  cbn [sub_group_scan]. now rewrite !app_nil_r.
Qed.

Lemma scrub_elem_without_digits_witness :
  Forall (fun c => isdigit c = false) (str "  Football. ")
  /\ scrub_elem (str "  Football. ") = strip (str "  Football. ").
Proof.
  assert (Forall (fun c => isdigit c = false) (str "  Football. ")) as H
      by (repeat constructor).
  split; [exact H | exact (@scrub_elem_without_digits _ H)].
Defined.

End GptFacts.

(** ** The cuts on texts of any code point *)

Module UnicodeFacts.
Import Py Unicode.

(** *** [str.lower], character by character *)

Lemma no_dotted_capital_cons c (t : ustr) :
  no_dotted_capital (c :: t) = true
  <-> c <> dotted_capital_i /\ no_dotted_capital t = true.
Proof.
  unfold no_dotted_capital. cbn [forallb].
  rewrite andb_true_iff, negb_true_iff, N.eqb_neq. reflexivity.
Qed.

Lemma no_dotted_capital_app (s t : ustr) :
  no_dotted_capital (s ++ t) = true
  <-> no_dotted_capital s = true /\ no_dotted_capital t = true.
Proof.
  unfold no_dotted_capital. rewrite forallb_app, andb_true_iff. reflexivity.
Qed.

Lemma no_dotted_capital_firstn n (t : ustr) :
  no_dotted_capital t = true -> no_dotted_capital (firstn n t) = true.
Proof.
  intros H. rewrite <- (firstn_skipn n t) in H.
  apply no_dotted_capital_app in H. tauto.
Qed.

Lemma no_dotted_capital_skipn n (t : ustr) :
  no_dotted_capital t = true -> no_dotted_capital (skipn n t) = true.
Proof.
  intros H. rewrite <- (firstn_skipn n t) in H.
  apply no_dotted_capital_app in H. tauto.
Qed.

(** Without U+0130 the lowered text has, at each index, the lowercase
    letter of the character of the text at that index. *)
Lemma do_lower_pointwise (t : ustr) : forall before,
  no_dotted_capital t = true ->
  Forall2 same_letter (do_lower before t) (map to_lower t).
Proof.
  induction t as [|c t IH]; intros before H; cbn [do_lower map].
  - constructor.
  - apply no_dotted_capital_cons in H. destruct H as [Hc Ht].
    destruct (c =? capital_sigma)%N eqn:Es.
    + apply N.eqb_eq in Es. subst c. cbn [app]. constructor; [|now apply IH].
      right. split; [|left; reflexivity].
      unfold handle_capital_sigma.
      destruct (match skip_ignorable before with
                | [] => false
                | c :: _ => _
                end); auto.
    + unfold to_lower_full. apply N.eqb_neq in Hc. rewrite Hc. cbn [app].
      constructor; [left; reflexivity | now apply IH].
Qed.

Lemma lower_pointwise (t : ustr) :
  no_dotted_capital t = true ->
  Forall2 same_letter (lower t) (map to_lower t).
Proof. apply do_lower_pointwise. Qed.

Lemma u_lower_length (t : ustr) :
  no_dotted_capital t = true -> List.length (lower t) = List.length t.
Proof.
  intros H. apply lower_pointwise in H. apply Forall2_length in H.
  now rewrite length_map in H.
Qed.

Lemma same_letter_skipn n (s s' : ustr) :
  Forall2 same_letter s s' ->
  Forall2 same_letter (skipn n s) (skipn n s').
Proof.
  intros H. revert n. induction H as [|a b s s' Hab H IH]; intros [|n];
    cbn [skipn]; auto.
Qed.

Lemma same_letter_ascii a b c :
  (a < 128)%N -> same_letter b c -> (a =? b)%N = (a =? c)%N.
Proof.
  intros Ha [->|[Hb Hc]]; [reflexivity|].
  assert (a <> b) as H1
      by (unfold small_sigma, final_sigma in Hb; intros ->; lia).
  assert (a <> c) as H2
      by (unfold small_sigma, final_sigma in Hc; intros ->; lia).
  apply N.eqb_neq in H1, H2. congruence.
Qed.

(** An ASCII marker starts two texts of the same letters alike. *)
Lemma starts_with_same_letter (m s s' : ustr) :
  ascii_only m = true ->
  Forall2 same_letter s s' ->
  starts_with m s = starts_with m s'.
Proof.
  revert s s'. induction m as [|a m IH]; intros s s' Hm H; [reflexivity|].
  unfold ascii_only in Hm. cbn [forallb] in Hm.
  apply andb_true_iff in Hm. destruct Hm as [Ha Hm]. apply N.ltb_lt in Ha.
  destruct H as [|b c s s' Hbc H]; [reflexivity|]. cbn [starts_with].
  rewrite (same_letter_ascii Ha Hbc), (IH s s' Hm H). reflexivity.
Qed.

Lemma u_starts_with_firstn (m s : ustr) :
  starts_with m s = true <-> firstn (List.length m) s = m.
Proof.
  revert s. induction m as [|a m IH]; intros s; simpl.
  - split; reflexivity.
  - destruct s as [|b s]; simpl.
    + split; discriminate.
    + rewrite andb_true_iff, N.eqb_eq, IH. split.
      * intros [-> ->]. reflexivity.
      * intros H. injection H as -> H. auto.
Qed.

Lemma starts_with_refl (m : ustr) : starts_with m m = true.
Proof. apply u_starts_with_firstn. apply firstn_all. Qed.

Lemma starts_with_window (m s : ustr) :
  starts_with m (firstn (List.length m) s) = starts_with m s.
Proof.
  revert s. induction m as [|a m IH]; intros [|b s]; cbn; auto.
  now rewrite IH.
Qed.

(** Two texts of the same letters, one of them ASCII, are equal. *)
Lemma same_letter_ascii_eq (s m : ustr) :
  ascii_only m = true -> Forall2 same_letter s m -> s = m.
Proof.
  intros Hm H. induction H as [|a b s m Hab H IH]; [reflexivity|].
  unfold ascii_only in Hm. cbn [forallb] in Hm.
  apply andb_true_iff in Hm. destruct Hm as [Hb Hm]. apply N.ltb_lt in Hb.
  rewrite (IH Hm). destruct Hab as [->|[_ Hs]]; [reflexivity|].
  unfold small_sigma, final_sigma in Hs. lia.
Qed.

Lemma to_lower_window n i (t : ustr) :
  map to_lower (firstn n (skipn i t)) = firstn n (skipn i (map to_lower t)).
Proof. now rewrite skipn_map, firstn_map. Qed.

(** An occurrence of a lowercase ASCII marker in a text without U+0130,
    in terms of the lowered text. *)
Lemma u_occurs_at_lowered (m t : ustr) i :
  no_dotted_capital t = true ->
  plain_marker m ->
  occurs_at m t i
  <-> i <= List.length t /\ starts_with m (skipn i (lower t)) = true.
Proof.
  intros Ht [Ha Hm]. unfold occurs_at. rewrite Hm.
  set (w := firstn (List.length m) (skipn i t)).
  assert (no_dotted_capital w = true) as Hw
      by (apply no_dotted_capital_firstn, no_dotted_capital_skipn, Ht).
  pose proof (lower_pointwise _ Hw) as Pw.
  pose proof (same_letter_skipn i (lower_pointwise _ Ht)) as Pt.
  rewrite (starts_with_same_letter _ Ha Pt).
  rewrite <- starts_with_window, <- to_lower_window. fold w.
  rewrite <- (starts_with_same_letter _ Ha Pw).
  split.
  - intros [Hi H]. split; [lia|]. rewrite H. apply starts_with_refl.
  - intros [Hi H]. apply u_starts_with_firstn in H.
    assert (List.length (lower w) = List.length w) as Hl
        by now apply u_lower_length.
    assert (List.length m <= List.length w) as Hlm.
    { rewrite <- Hl. rewrite <- H at 1. rewrite length_firstn. lia. }
    assert (List.length w <= List.length m) as Hwm
        by (unfold w; rewrite length_firstn; lia).
    split.
    + unfold w in Hlm. rewrite length_firstn, length_skipn in Hlm. lia.
    + rewrite <- H. symmetry. apply firstn_all2. lia.
Qed.


(** *** [str.find] and [str.rfind] *)

Lemma u_find_first_some sub (s : ustr) i :
  find_first sub s = Some i ->
  i <= List.length s
  /\ starts_with sub (skipn i s) = true
  /\ forall j, j < i -> starts_with sub (skipn j s) = false.
Proof.
  revert i. induction s as [|c s IH]; intros i; cbn [find_first].
  - destruct (starts_with sub []) eqn:E; [|discriminate].
    intros H. injection H as <-. repeat split; auto. intros j Hj. lia.
  - destruct (starts_with sub (c :: s)) eqn:E.
    + intros H. injection H as <-. repeat split; auto; [simpl; lia|].
      intros j Hj. lia.
    + destruct (find_first sub s) as [i'|]; [|discriminate].
      intros H. injection H as <-.
      destruct (IH _ eq_refl) as (Hi & Hs & Hmin).
      repeat split; [simpl; lia | exact Hs |].
      intros [|j] Hj; [exact E | apply Hmin; lia].
Qed.

Lemma u_find_first_none sub (s : ustr) :
  find_first sub s = None -> forall j, starts_with sub (skipn j s) = false.
Proof.
  induction s as [|c s IH]; cbn [find_first].
  - destruct (starts_with sub []) eqn:E; [discriminate|].
    intros _ [|j]; exact E.
  - destruct (starts_with sub (c :: s)) eqn:E; [discriminate|].
    destruct (find_first sub s) as [i'|]; [discriminate|].
    intros _ [|j]; [exact E | apply IH; reflexivity].
Qed.

Lemma u_find_last_some sub (s : ustr) i :
  find_last sub s = Some i ->
  i <= List.length s
  /\ starts_with sub (skipn i s) = true
  /\ forall j, i < j -> j <= List.length s ->
       starts_with sub (skipn j s) = false.
Proof.
  revert i. induction s as [|c s IH]; intros i; cbn [find_last].
  - destruct (starts_with sub []) eqn:E; [|discriminate].
    intros H. injection H as <-. split; [simpl; lia|]. split; [exact E|].
    intros j Hj Hj'. simpl in Hj'. lia.
  - destruct (find_last sub s) as [i'|] eqn:El.
    + intros H. injection H as <-.
      destruct (IH _ eq_refl) as (Hi & Hs & Hmax).
      split; [simpl; lia|]. split; [exact Hs|].
      intros [|j] Hj Hj'; [lia|]. apply Hmax; simpl in Hj'; lia.
    + destruct (starts_with sub (c :: s)) eqn:E; [|discriminate].
      intros H. injection H as <-. split; [simpl; lia|]. split; [exact E|].
      intros [|j] Hj Hj'; [lia|]. cbn [skipn].
      clear -El. revert j. induction s as [|d s IH]; intros j.
      * cbn [find_last] in El. destruct (starts_with sub []) eqn:E;
          [discriminate|]. now destruct j.
      * cbn [find_last] in El.
        destruct (find_last sub s) as [i'|]; [discriminate|].
        destruct (starts_with sub (d :: s)) eqn:E; [discriminate|].
        destruct j as [|j]; [exact E | apply IH; reflexivity].
Qed.

Lemma u_find_last_none sub (s : ustr) :
  find_last sub s = None -> forall j, starts_with sub (skipn j s) = false.
Proof.
  induction s as [|c s IH]; cbn [find_last].
  - destruct (starts_with sub []) eqn:E; [discriminate|].
    intros _ [|j]; exact E.
  - destruct (find_last sub s) as [i'|]; [discriminate|].
    destruct (starts_with sub (c :: s)) eqn:E; [discriminate|].
    intros _ [|j]; [exact E | apply IH; reflexivity].
Qed.

(** *** The back cut *)

Lemma u_marker_position_value (text marker : ustr) :
  (find (lower text) marker
   + (len text + 1) * Z.b2z (find (lower text) marker =? -1))%Z
  = Z.of_nat (marker_position text marker).
Proof.
  unfold find, marker_position, len.
  destruct (find_first marker (lower text)) as [i|]; cbn [index_or_minus_one].
  - replace (Z.of_nat i =? -1)%Z with false by (symmetry; apply Z.eqb_neq; lia).
    cbn [Z.b2z]. lia.
  - rewrite Z.eqb_refl. cbn [Z.b2z]. lia.
Qed.

Lemma u_marker_position_bound (text marker : ustr) :
  no_dotted_capital text = true ->
  marker_position text marker <= List.length text.
Proof.
  intros Ht. unfold marker_position.
  destruct (find_first marker (lower text)) as [i|] eqn:E; [|lia].
  apply u_find_first_some in E. rewrite (u_lower_length _ Ht) in E. lia.
Qed.

Lemma u_marker_position_first (text marker : ustr) i :
  no_dotted_capital text = true ->
  plain_marker marker ->
  occurs_at marker text i ->
  first_occurrence marker text (marker_position text marker).
Proof.
  intros Ht Hm Hocc. unfold marker_position.
  apply (u_occurs_at_lowered _ _ Ht Hm) in Hocc. destruct Hocc as [_ Hocc].
  destruct (find_first marker (lower text)) as [i0|] eqn:E.
  - apply u_find_first_some in E. destruct E as (Hi & Hs & Hmin).
    rewrite (u_lower_length _ Ht) in Hi. split.
    + apply (u_occurs_at_lowered _ _ Ht Hm). auto.
    + intros j Hj Hocc'. apply (u_occurs_at_lowered _ _ Ht Hm) in Hocc'.
      rewrite (Hmin j Hj) in Hocc'. destruct Hocc'. discriminate.
  - rewrite (u_find_first_none _ _ E) in Hocc. discriminate.
Qed.

Lemma u_marker_position_le (text marker : ustr) i :
  no_dotted_capital text = true ->
  plain_marker marker ->
  occurs_at marker text i ->
  marker_position text marker <= i.
Proof.
  intros Ht Hm Hocc.
  destruct (@u_marker_position_first text marker i Ht Hm Hocc) as [_ Hmin].
  destruct (le_lt_dec (marker_position text marker) i) as [H|H]; [exact H|].
  destruct (Hmin i H Hocc).
Qed.

Lemma u_fold_min_spec (l : list Z) (x : Z) :
  In (fold_left Z.min l x) (x :: l)
  /\ forall y, In y (x :: l) -> (fold_left Z.min l x <= y)%Z.
Proof.
  revert x. induction l as [|a l IH]; intros x; simpl.
  - split; [auto|]. intros y [<-|[]]. lia.
  - destruct (IH (Z.min x a)) as [Hin Hle]. split.
    + destruct Hin as [Hin|Hin]; [|auto].
      rewrite <- Hin. destruct (Z.min_spec x a) as [[_ ->]|[_ ->]]; auto.
    + intros y Hy.
      assert (fold_left Z.min l (Z.min x a) <= Z.min x a)%Z as H0
          by (apply Hle; left; reflexivity).
      destruct Hy as [<-|[<-|Hy]]; [lia | lia |].
      apply Hle. right. exact Hy.
Qed.

Lemma u_slice_to_inside (text : ustr) k :
  k <= List.length text -> slice_to text (Z.of_nat k) = firstn k text.
Proof.
  intros Hk. unfold slice_to, slice_bound, len.
  replace (Z.of_nat k <? 0)%Z with false by (symmetry; apply Z.ltb_ge; lia).
  rewrite Z.min_l by lia. now rewrite Nat2Z.id.
Qed.

(** The index of the back cut is the least marker position, whatever the
    text; the position of a marker is an index of the lowered text. *)
Lemma u_cut_tail_index (text : ustr) (stopstrings : list ustr) :
  stopstrings <> [] ->
  exists m,
    In m stopstrings
    /\ cut_tail text stopstrings
       = Ok (slice_to text (Z.of_nat (marker_position text m)))
    /\ forall m', In m' stopstrings ->
         marker_position text m <= marker_position text m'.
Proof.
  intros Hne. unfold cut_tail.
  rewrite (map_ext _ (fun m => Z.of_nat (marker_position text m)))
    by (intros m; apply u_marker_position_value).
  destruct stopstrings as [|m0 ms]; [contradiction|].
  cbn [map py_min bind].
  destruct (u_fold_min_spec
              (map (fun m => Z.of_nat (marker_position text m)) ms)
              (Z.of_nat (marker_position text m0))) as [Hin Hle].
  change (Z.of_nat (marker_position text m0)
          :: map (fun m => Z.of_nat (marker_position text m)) ms)
    with (map (fun m => Z.of_nat (marker_position text m)) (m0 :: ms))
    in Hin, Hle.
  apply in_map_iff in Hin. destruct Hin as (m & Hm & Hin).
  exists m. split; [exact Hin|]. split; [now rewrite Hm|].
  intros m' Hm'. apply Nat2Z.inj_le. rewrite Hm. apply Hle.
  apply (in_map (fun m => Z.of_nat (marker_position text m))). exact Hm'.
Qed.

Lemma u_cut_tail_position (text : ustr) (stopstrings : list ustr) :
  no_dotted_capital text = true ->
  stopstrings <> [] ->
  exists k,
    cut_tail text stopstrings = Ok (firstn k text)
    /\ In k (map (marker_position text) stopstrings)
    /\ forall m, In m stopstrings -> k <= marker_position text m.
Proof.
  intros Ht Hne.
  destruct (@u_cut_tail_index text stopstrings Hne) as (m & Hm & Hcut & Hmin).
  exists (marker_position text m). split; [|split].
  - rewrite Hcut, u_slice_to_inside; [reflexivity|].
    now apply u_marker_position_bound.
  - now apply in_map.
  - exact Hmin.
Qed.

(** The back cut of a text without U+0130, for lowercase ASCII markers. *)
Lemma u_cut_tail_general (text : ustr) (stopstrings : list ustr) :
  no_dotted_capital text = true ->
  stopstrings <> [] ->
  Forall plain_marker stopstrings ->
  exists k,
    cut_tail text stopstrings = Ok (firstn k text)
    /\ (forall m i, In m stopstrings -> occurs_at m text i -> k <= i)
    /\ ((exists m, In m stopstrings /\ first_occurrence m text k)
        \/ ((forall m, In m stopstrings -> ~ occurs m text)
            /\ k = List.length text
            /\ cut_tail text stopstrings = Ok text)).
Proof.
  intros Ht Hne Hlow. rewrite Forall_forall in Hlow.
  destruct (@u_cut_tail_position text stopstrings Ht Hne) as (k & Hcut & Hin & Hmin).
  exists k. split; [exact Hcut|]. split.
  - intros m i Hm Hocc. specialize (Hmin m Hm).
    pose proof (@u_marker_position_le text m i Ht (Hlow m Hm) Hocc). lia.
  - assert (forall m i, In m stopstrings ->
              find_first m (lower text) = Some i -> occurs_at m text i)
      as Hfound.
    { intros m i Hm E. apply (u_occurs_at_lowered _ _ Ht (Hlow m Hm)).
      apply u_find_first_some in E. rewrite (u_lower_length _ Ht) in E.
      tauto. }
    destruct (existsb (fun m' => match find_first m' (lower text) with
                                 | Some _ => true
                                 | None => false
                                 end) stopstrings) eqn:Ex.
    + left. apply existsb_exists in Ex. destruct Ex as (m' & Hm' & Ex).
      destruct (find_first m' (lower text)) as [i1|] eqn:E1; [|discriminate].
      pose proof (Hfound m' i1 Hm' E1) as Hocc.
      pose proof (@u_marker_position_first text m' i1 Ht (Hlow m' Hm') Hocc) as Hfirst.
      apply in_map_iff in Hin. destruct Hin as (m & Hk & Hm).
      destruct (find_first m (lower text)) as [i0|] eqn:E0.
      * exists m. split; [exact Hm|]. rewrite <- Hk.
        apply u_marker_position_first with (i := i0); auto.
      * exists m'. split; [exact Hm'|].
        assert (k = List.length text) as Hlen
            by (rewrite <- Hk; unfold marker_position; now rewrite E0).
        pose proof (Hmin m' Hm') as H1.
        pose proof (@u_marker_position_bound text m' Ht) as H2.
        replace k with (marker_position text m') by lia. exact Hfirst.
    + assert (forall m, In m stopstrings ->
                find_first m (lower text) = None) as Hnone.
      { intros m Hm. destruct (find_first m (lower text)) as [i|] eqn:E;
          [|reflexivity].
        assert (existsb (fun m' => match find_first m' (lower text) with
                                   | Some _ => true
                                   | None => false
                                   end) stopstrings = true) as Hx
            by (apply existsb_exists; exists m; now rewrite E).
        congruence. }
      apply in_map_iff in Hin. destruct Hin as (m & Hk & Hm).
      assert (k = List.length text) as Hlen
          by (rewrite <- Hk; unfold marker_position; now rewrite Hnone).
      right. split; [|split; [exact Hlen|]].
      * intros m' Hm' [i Hocc].
        apply (u_occurs_at_lowered _ _ Ht (Hlow m' Hm')) in Hocc.
        destruct Hocc as [_ Hocc].
        rewrite (u_find_first_none _ _ (Hnone m' Hm')) in Hocc. discriminate.
      * rewrite Hcut, Hlen. now rewrite firstn_all.
Qed.

Lemma u_body_markers_plain : Forall plain_marker _stopstrings_body.
Proof. repeat constructor. Qed.

Lemma u_front_markers_plain : Forall plain_marker _stopstrings_front.
Proof. repeat constructor. Qed.




(** With U+0130 often enough before the marker, the index found in the
    lowered text is the length of the text and nothing is cut. *)
Lemma cut_tail_keeps_marker :
  let marker := of_pystr (str "acknowledgements") in
  let text := repeat dotted_capital_i 16 ++ marker in
  occurs_at marker text 16
  /\ cut_tail text _stopstrings_body = Ok text.
Proof. cbv zeta. split; [split; [simpl; lia | reflexivity] | reflexivity]. Qed.

(** *** What the back cut leaves *)

Lemma u_window_of_prefix (t : ustr) n j k :
  j + n <= k ->
  firstn n (skipn j (firstn k t)) = firstn n (skipn j t).
Proof.
  intros H. rewrite skipn_firstn_comm, firstn_firstn.
  now rewrite Nat.min_l by lia.
Qed.

Lemma u_occurs_at_prefix (m t : ustr) k j :
  occurs_at m (firstn k t) j -> occurs_at m t j /\ j + List.length m <= k.
Proof.
  intros [Hlen Hwin]. rewrite length_firstn in Hlen.
  rewrite u_window_of_prefix in Hwin by lia.
  split; [split; [lia | exact Hwin] | lia].
Qed.

Lemma u_body_markers_not_empty m :
  In m _stopstrings_body -> 0 < List.length m.
Proof.
  intros H. repeat (destruct H as [<-|H]; [simpl; lia|]). destruct H.
Qed.

(** X5: in a text without U+0130, with the configured body stopstrings,
    what [cut_tail] returns holds no body stopstring any more (letter
    case ignored), so cutting it again changes nothing. *)
Theorem cut_tail_clears_markers (text : ustr) :
  no_dotted_capital text = true ->
  exists out,
    cut_tail text _stopstrings_body = Ok out
    /\ (forall m, In m _stopstrings_body -> ~ occurs m out)
    /\ cut_tail out _stopstrings_body = Ok out.
Proof.
  intros Ht.
  destruct (@u_cut_tail_general text _stopstrings_body Ht)
    as (k & Hcut & Hmin & _); [discriminate | apply u_body_markers_plain |].
  exists (firstn k text). split; [exact Hcut|].
  assert (forall m, In m _stopstrings_body -> ~ occurs m (firstn k text))
    as Hno.
  { intros m Hm [j Hocc]. apply u_occurs_at_prefix in Hocc.
    destruct Hocc as [Hocc Hjk]. pose proof (Hmin m j Hm Hocc).
    pose proof (@u_body_markers_not_empty _ Hm). lia. }
  split; [exact Hno|].
  destruct (@u_cut_tail_general (firstn k text) _stopstrings_body
              (no_dotted_capital_firstn k text Ht))
    as (k' & _ & _ & [(m & Hm & Hocc & _) | (_ & _ & H)]);
    [discriminate | apply u_body_markers_plain | | exact H].
  exfalso. apply (Hno m Hm). now exists k'.
Qed.

Lemma cut_tail_clears_markers_witness :
  no_dotted_capital greek_text = true
  /\ exists out,
       cut_tail greek_text _stopstrings_body = Ok out
       /\ (forall m, In m _stopstrings_body -> ~ occurs m out)
       /\ cut_tail out _stopstrings_body = Ok out.
Proof.
  assert (no_dotted_capital greek_text = true) as H by reflexivity.
  split; [exact H | exact (cut_tail_clears_markers greek_text H)].
Defined.

(** *** The front cut *)

Lemma u_marker_end_value (text marker : ustr) :
  (rfind (lower text) marker
   + len marker * Z.b2z (negb (rfind (lower text) marker =? -1)))%Z
  = marker_end text marker.
Proof.
  unfold rfind, marker_end, len.
  destruct (find_last marker (lower text)) as [j|]; cbn [index_or_minus_one].
  - replace (Z.of_nat j =? -1)%Z with false by (symmetry; apply Z.eqb_neq; lia).
    cbn [negb Z.b2z]. lia.
  - rewrite Z.eqb_refl. cbn [negb Z.b2z]. lia.
Qed.

Lemma u_front_cut_index_ends (text : ustr) (stopstrings : list ustr) :
  front_cut_index text stopstrings
  = py_max (map (marker_end text) stopstrings).
Proof.
  unfold front_cut_index. f_equal. apply map_ext. intros m.
  apply u_marker_end_value.
Qed.

Lemma u_marker_end_last (text marker : ustr) j :
  no_dotted_capital text = true ->
  plain_marker marker ->
  find_last marker (lower text) = Some j ->
  last_occurrence marker text j.
Proof.
  intros Ht Hm E. apply u_find_last_some in E. destruct E as (Hj & Hs & Hmax).
  rewrite (u_lower_length _ Ht) in Hj, Hmax. split.
  - apply (u_occurs_at_lowered _ _ Ht Hm). auto.
  - intros j' Hlt Hocc. apply (u_occurs_at_lowered _ _ Ht Hm) in Hocc.
    destruct Hocc as [Hle Hocc]. rewrite (Hmax j' Hlt Hle) in Hocc.
    discriminate.
Qed.

Lemma u_marker_end_ge (text marker : ustr) j :
  no_dotted_capital text = true ->
  plain_marker marker ->
  occurs_at marker text j ->
  (Z.of_nat (j + List.length marker) <= marker_end text marker)%Z.
Proof.
  intros Ht Hm Hocc. unfold marker_end.
  pose proof Hocc as Hocc'. apply (u_occurs_at_lowered _ _ Ht Hm) in Hocc'.
  destruct Hocc' as [Hle Hs].
  destruct (find_last marker (lower text)) as [j0|] eqn:E.
  - destruct (@u_marker_end_last text marker j0 Ht Hm E) as [_ Hmax].
    destruct (le_lt_dec j j0) as [H|H]; [lia|].
    destruct (Hmax j H Hocc).
  - rewrite (u_find_last_none _ _ E) in Hs. discriminate.
Qed.

Lemma u_fold_max_spec (l : list Z) (x : Z) :
  In (fold_left Z.max l x) (x :: l)
  /\ forall y, In y (x :: l) -> (y <= fold_left Z.max l x)%Z.
Proof.
  revert x. induction l as [|a l IH]; intros x; simpl.
  - split; [auto|]. intros y [<-|[]]. lia.
  - destruct (IH (Z.max x a)) as [Hin Hle]. split.
    + destruct Hin as [Hin|Hin]; [|auto].
      rewrite <- Hin. destruct (Z.max_spec x a) as [[_ ->]|[_ ->]]; auto.
    + intros y Hy.
      assert (Z.max x a <= fold_left Z.max l (Z.max x a))%Z as H0
          by (apply Hle; left; reflexivity).
      destruct Hy as [<-|[<-|Hy]]; [lia | lia |].
      apply Hle. right. exact Hy.
Qed.

(** The cut index of the front cut is the greatest marker end, whatever
    the text; the end of a marker is an index of the lowered text. *)
Lemma u_front_cut_index_max (text : ustr) (stopstrings : list ustr) :
  stopstrings <> [] ->
  exists m,
    In m stopstrings
    /\ front_cut_index text stopstrings = Ok (marker_end text m)
    /\ forall m', In m' stopstrings ->
         (marker_end text m' <= marker_end text m)%Z.
Proof.
  intros Hne. rewrite u_front_cut_index_ends.
  destruct stopstrings as [|m0 ms]; [contradiction|].
  cbn [map py_max].
  destruct (u_fold_max_spec (map (marker_end text) ms) (marker_end text m0))
    as [Hin Hle].
  change (marker_end text m0 :: map (marker_end text) ms)
    with (map (marker_end text) (m0 :: ms)) in Hin, Hle.
  apply in_map_iff in Hin. destruct Hin as (m & Hm & Hin).
  exists m. split; [exact Hin|]. split; [now rewrite Hm|].
  intros m' Hm'. rewrite Hm. apply Hle.
  apply (in_map (marker_end text) (m0 :: ms) m'). exact Hm'.
Qed.

(** X1: in a text without U+0130, for lowercase ASCII markers, the index
    at which [cut_head] starts its boundary cleanup is the greatest end of
    an occurrence of a marker (letter case ignored), reached by the last
    occurrence of some marker, and [-1] when no marker occurs. *)
Theorem front_cut_index_last_end (text : ustr) (stopstrings : list ustr) :
  no_dotted_capital text = true ->
  stopstrings <> [] ->
  Forall plain_marker stopstrings ->
  exists i,
    front_cut_index text stopstrings = Ok i
    /\ (forall m j, In m stopstrings -> occurs_at m text j ->
          (Z.of_nat (j + List.length m) <= i)%Z)
    /\ ((exists m j, In m stopstrings /\ last_occurrence m text j
                     /\ i = Z.of_nat (j + List.length m))
        \/ (i = (-1)%Z /\ forall m, In m stopstrings -> ~ occurs m text)).
Proof.
  intros Ht Hne Hlow. rewrite Forall_forall in Hlow.
  destruct (@u_front_cut_index_max text stopstrings Hne)
    as (m & Hm & Hi & Hmax).
  exists (marker_end text m). split; [exact Hi|]. split.
  - intros m' j Hm' Hocc.
    pose proof (@u_marker_end_ge text m' j Ht (Hlow m' Hm') Hocc).
    specialize (Hmax m' Hm'). lia.
  - assert (marker_end text m
            = match find_last m (lower text) with
              | Some j => Z.of_nat (j + List.length m)
              | None => (-1)%Z
              end) as Hend by reflexivity.
    destruct (find_last m (lower text)) as [j|] eqn:E.
    + left. exists m, j. split; [exact Hm|]. split; [|exact Hend].
      apply u_marker_end_last; auto.
    + right. split; [exact Hend|]. intros m' Hm' [j Hocc].
      pose proof (@u_marker_end_ge text m' j Ht (Hlow m' Hm') Hocc) as H1.
      specialize (Hmax m' Hm'). lia.
Qed.

Lemma front_cut_index_last_end_witness :
  no_dotted_capital greek_front = true
  /\ _stopstrings_front <> []
  /\ Forall plain_marker _stopstrings_front
  /\ exists i,
       front_cut_index greek_front _stopstrings_front = Ok i
       /\ (forall m j, In m _stopstrings_front -> occurs_at m greek_front j ->
             (Z.of_nat (j + List.length m) <= i)%Z)
       /\ ((exists m j, In m _stopstrings_front
                        /\ last_occurrence m greek_front j
                        /\ i = Z.of_nat (j + List.length m))
           \/ (i = (-1)%Z
               /\ forall m, In m _stopstrings_front
                    -> ~ occurs m greek_front)).
Proof.
  assert (no_dotted_capital greek_front = true) as H0 by reflexivity.
  assert (_stopstrings_front <> []) as H1 by discriminate.
  pose proof u_front_markers_plain as H2.
  split; [exact H0|]. split; [exact H1|]. split; [exact H2|].
  exact (front_cut_index_last_end greek_front H0 H1 H2).
Defined.

(** With U+0130 before the marker the cut index lies past the end of the
    occurrence: here the marker ends at index 7 and the cut index is 8. *)
Lemma front_cut_index_dotted_capital :
  let marker := of_pystr (str "cited") in
  let text := dotted_capital_i :: of_pystr (str " cited x") in
  last_occurrence marker text 2
  /\ front_cut_index text _stopstrings_front = Ok 8%Z.
Proof.
  cbv zeta. split; [split|reflexivity].
  - split; [simpl; lia | reflexivity].
  - intros j Hj [Hlen H]. cbn [List.length of_pystr map str
      list_ascii_of_string] in Hlen.
    do 3 (destruct j as [|j]; [lia|]).
    do 2 (destruct j as [|j]; [vm_compute in H; discriminate|]).
    simpl in Hlen. lia.
Qed.

Lemma u_getitem_inside (text : ustr) (i : Z) :
  (0 <= i < len text)%Z ->
  getitem text i = Ok (nth (Z.to_nat i) text 0%N).
Proof.
  intros Hi. unfold getitem.
  replace (i <? 0)%Z with false by (symmetry; apply Z.ltb_ge; lia).
  replace (i <? 0)%Z with false by (symmetry; apply Z.ltb_ge; lia).
  destruct (nth_error text (Z.to_nat i)) as [c|] eqn:E.
  - now rewrite (nth_error_nth _ _ _ E).
  - apply nth_error_None in E. unfold len in Hi. lia.
Qed.

Lemma u_getitem_outside (text : ustr) (i : Z) :
  (len text <= i)%Z -> getitem text i = Raise IndexError.
Proof.
  intros Hi. unfold getitem. unfold len in Hi.
  replace (i <? 0)%Z with false by (symmetry; apply Z.ltb_ge; lia).
  replace (i <? 0)%Z with false by (symmetry; apply Z.ltb_ge; lia).
  assert (nth_error text (Z.to_nat i) = None) as ->
      by (apply nth_error_None; lia).
  reflexivity.
Qed.

Lemma u_slice_from_inside (text : ustr) (k : Z) :
  (0 <= k <= len text)%Z ->
  slice_from text (Z.min (len text) (Z.max k 0)) = skipn (Z.to_nat k) text.
Proof.
  intros Hk. unfold slice_from, slice_bound.
  rewrite Z.max_l, Z.min_r by lia.
  replace (k <? 0)%Z with false by (symmetry; apply Z.ltb_ge; lia).
  now rewrite Z.min_l by lia.
Qed.

(** The three ways [cut_head] ends, by its cut index, whatever the
    text. *)
Lemma u_cut_head_cases (text : ustr) (stopstrings : list ustr) (i : Z) :
  front_cut_index text stopstrings = Ok i ->
  cut_head text stopstrings
  = if (i <=? 0)%Z then Ok text
    else if (len text <=? i + 1)%Z then Raise IndexError
    else Ok (skipn (Z.to_nat
                      (if isalpha (nth (Z.to_nat (i + 1)) text 0%N)
                       then i else i + 1)%Z)
                   text).
Proof.
  unfold front_cut_index, cut_head. intros ->. cbn [bind].
  assert (0 <= len text)%Z as Hlen by (unfold len; lia).
  destruct (Z.leb_spec i 0) as [Hi|Hi].
  - replace (i >? 0)%Z with false by (rewrite Z.gtb_ltb; symmetry; apply Z.ltb_ge; lia).
    cbn [bind]. unfold slice_from, slice_bound.
    rewrite Z.max_r, Z.min_r by lia. cbn [Z.ltb Z.compare].
    now rewrite Z.min_l by lia.
  - replace (i >? 0)%Z with true by (symmetry; apply Z.gtb_lt; lia).
    destruct (Z.leb_spec (len text) (i + 1)) as [He|He].
    + now rewrite u_getitem_outside.
    + rewrite u_getitem_inside by lia. cbn [bind].
      replace (len text >=? i + 2)%Z with true
        by (symmetry; apply Z.geb_le; lia).
      destruct (isalpha (nth (Z.to_nat (i + 1)) text 0%N));
        cbn [negb bind]; now rewrite u_slice_from_inside by lia.
Qed.

(** *** Texts of code points below 256

    On these texts the cuts above are the cuts of the scrubber's model:
    [Py.lower] is [str.lower], [Py.isalpha] is [str.isalpha], and the two
    models of [cut_head] and of [cut_tail] return the same. *)

Lemma code_eqb (a b : ascii) :
  (N_of_ascii a =? N_of_ascii b)%N = Ascii.eqb a b.
Proof.
  destruct (Ascii.eqb_spec a b) as [->|Hne].
  - apply N.eqb_refl.
  - apply N.eqb_neq. intros H. apply Hne.
    rewrite <- (ascii_N_embedding a), <- (ascii_N_embedding b).
    now rewrite H.
Qed.

Lemma code_not_special (a : ascii) :
  (N_of_ascii a =? capital_sigma)%N = false
  /\ (N_of_ascii a =? dotted_capital_i)%N = false.
Proof.
  pose proof (N_ascii_bounded a) as H.
  unfold capital_sigma, dotted_capital_i.
  split; apply N.eqb_neq; lia.
Qed.

Lemma to_lower_latin1 (a : ascii) :
  to_lower (N_of_ascii a) = N_of_ascii (lower_char a).
Proof. destruct a as [[] [] [] [] [] [] [] []]; vm_compute; reflexivity. Qed.

Lemma isalpha_latin1 (a : ascii) : isalpha (N_of_ascii a) = Py.isalpha a.
Proof. destruct a as [[] [] [] [] [] [] [] []]; vm_compute; reflexivity. Qed.

Lemma do_lower_latin1 (t : pystr) : forall before,
  do_lower before (of_pystr t) = of_pystr (Py.lower t).
Proof.
  induction t as [|a t IH]; intros before; [reflexivity|].
  unfold of_pystr, Py.lower in *. cbn [map do_lower].
  destruct (code_not_special a) as [-> H]. unfold to_lower_full.
  rewrite H, IH, to_lower_latin1. reflexivity.
Qed.

Lemma lower_latin1 (t : pystr) : lower (of_pystr t) = of_pystr (Py.lower t).
Proof. apply do_lower_latin1. Qed.

Lemma no_dotted_capital_latin1 (t : pystr) :
  no_dotted_capital (of_pystr t) = true.
Proof.
  induction t as [|a t IH]; [reflexivity|].
  apply no_dotted_capital_cons. split; [|exact IH].
  destruct (code_not_special a) as [_ H]. now apply N.eqb_neq.
Qed.

Lemma len_latin1 (s : pystr) : len (of_pystr s) = Py.len s.
Proof. unfold len, Py.len, of_pystr. now rewrite length_map. Qed.

Lemma starts_with_latin1 (p s : pystr) :
  starts_with (of_pystr p) (of_pystr s) = Py.starts_with p s.
Proof.
  revert s. induction p as [|a p IH]; intros [|b s]; cbn; auto.
  now rewrite code_eqb, <- IH.
Qed.

Lemma find_first_latin1 (sub s : pystr) :
  find_first (of_pystr sub) (of_pystr s) = Py.find_first sub s.
Proof.
  induction s as [|c s IH].
  - cbn [of_pystr map find_first Py.find_first].
    change (@nil N) with (of_pystr []). now rewrite starts_with_latin1.
  - change (of_pystr (c :: s)) with (N_of_ascii c :: of_pystr s).
    cbn [find_first Py.find_first].
    change (N_of_ascii c :: of_pystr s) with (of_pystr (c :: s)).
    now rewrite starts_with_latin1, IH.
Qed.

Lemma find_last_latin1 (sub s : pystr) :
  find_last (of_pystr sub) (of_pystr s) = Py.find_last sub s.
Proof.
  induction s as [|c s IH].
  - cbn [of_pystr map find_last Py.find_last].
    change (@nil N) with (of_pystr []). now rewrite starts_with_latin1.
  - change (of_pystr (c :: s)) with (N_of_ascii c :: of_pystr s).
    cbn [find_last Py.find_last].
    change (N_of_ascii c :: of_pystr s) with (of_pystr (c :: s)).
    now rewrite starts_with_latin1, IH.
Qed.

Lemma getitem_latin1 (s : pystr) (i : Z) :
  getitem (of_pystr s) i = (c <- Py.getitem s i ;; Ok (N_of_ascii c)).
Proof.
  unfold getitem, Py.getitem. rewrite len_latin1.
  destruct (_ <? 0)%Z; [reflexivity|].
  unfold of_pystr. rewrite nth_error_map.
  now destruct (nth_error s _).
Qed.

Lemma slice_from_latin1 (s : pystr) (i : Z) :
  slice_from (of_pystr s) i = of_pystr (Py.slice_from s i).
Proof.
  unfold slice_from, Py.slice_from, slice_bound, Py.slice_bound.
  rewrite len_latin1. unfold of_pystr. now rewrite skipn_map.
Qed.

Lemma slice_to_latin1 (s : pystr) (i : Z) :
  slice_to (of_pystr s) i = of_pystr (Py.slice_to s i).
Proof.
  unfold slice_to, Py.slice_to, slice_bound, Py.slice_bound.
  rewrite len_latin1. unfold of_pystr. now rewrite firstn_map.
Qed.

(** On a text of code points below 256 [cut_tail] is the back cut of the
    scrubber's model. *)
Lemma cut_tail_latin1 (text : pystr) (stopstrings : list pystr) :
  cut_tail (of_pystr text) (map of_pystr stopstrings)
  = (out <- Scrubber.cut_tail text stopstrings ;; Ok (of_pystr out)).
Proof.
  unfold cut_tail, Scrubber.cut_tail. rewrite map_map.
  rewrite (map_ext _ (fun string =>
            Py.find (Py.lower text) string
            + (Py.len text + 1)
              * Z.b2z (Py.find (Py.lower text) string =? -1))%Z).
  - destruct (py_min _) as [i|e]; [|reflexivity]. cbn [bind].
    now rewrite slice_to_latin1.
  - intros m. unfold find, Py.find.
    now rewrite lower_latin1, find_first_latin1, len_latin1.
Qed.

(** On a text of code points below 256 [cut_head] is the front cut of the
    scrubber's model. *)
Lemma cut_head_latin1 (text : pystr) (stopstrings : list pystr) :
  cut_head (of_pystr text) (map of_pystr stopstrings)
  = (out <- Scrubber.cut_head text stopstrings ;; Ok (of_pystr out)).
Proof.
  unfold cut_head, Scrubber.cut_head. rewrite map_map.
  rewrite (map_ext _ (fun string =>
            Py.rfind (Py.lower text) string
            + Py.len string
              * Z.b2z (negb (Py.rfind (Py.lower text) string =? -1)))%Z).
  - destruct (py_max _) as [i|e]; [|reflexivity]. cbn [bind].
    rewrite !len_latin1.
    destruct (i >? 0)%Z.
    + rewrite getitem_latin1.
      destruct (Py.getitem text (i + 1)) as [c1|e]; [|reflexivity].
      cbn [bind]. rewrite isalpha_latin1.
      destruct (Py.isalpha c1); cbn [negb].
      * cbn [bind]. now rewrite slice_from_latin1.
      * destruct (negb (Py.len text >=? i + 2)%Z).
        -- rewrite getitem_latin1.
           destruct (Py.getitem text (i + 2)) as [c2|e]; [|reflexivity].
           cbn [bind]. rewrite isalpha_latin1.
           destruct (Py.isalpha c2); cbn [bind];
             now rewrite slice_from_latin1.
        -- cbn [bind]. now rewrite slice_from_latin1.
    + cbn [bind]. now rewrite slice_from_latin1.
  - intros m. unfold rfind, Py.rfind.
    now rewrite lower_latin1, find_last_latin1, len_latin1.
Qed.

End UnicodeFacts.
